(** * Interview bot: session store, conversation controller and score endpoint

    A shallow embedding of [server_ws.py] (and of the store functions it
    shares with [server_minimal.py]).

    Conventions of the embedding.
    - Text is a Rocq [string]: the sequence of UTF-8 bytes of the Python
      [str].  Decoding of the backing file is not part of the model: a file
      is either absent or holds text.
    - A Python value that travels through the [json] module is a [json]
      term.  A [dict] is an association list in insertion order (the order
      [json.dump] prints); its keys are kept unique by [dict_set].
    - A floating-point number is carried as the literal it was read from
      ([JFloat]); no arithmetic is done on it.
    - Python exceptions are explicit: a computation that may raise returns
      a [pyresult].
    - The file system, the WebSocket traffic and the calls to the completion
      client are fields of an explicit [world]; the clock reading and the
      generated identifier are inputs of the operations that use them.
    - The limits of the interpreter are not modelled: recursion depth, the
      number of digits [int] converts to and from text, memory, and errors
      of the operating system other than a missing file. *)

From Stdlib Require Import ZArith Ascii String List Lia.
From Stdlib Require Import Decimal DecimalString DecimalZ DecimalPos DecimalFacts.
From stdpp Require Import base option list gmap strings.

Open Scope string_scope.
Set Warnings "-register-all".

(** ** Python values and exceptions *)

Inductive json : Type :=
| JNull
| JBool (b : bool)
| JInt (z : Z)
| JFloat (lit : string)
| JStr (s : string)
| JList (items : list json)
| JDict (members : list (string * json)).

Inductive pyexn : Type :=
| TypeError (msg : string)
| AttributeError (msg : string)
| ValueError (msg : string)
| KeyError (key : string)
| InvalidBucket (key : string) (val : json)
| RuntimeError (msg : string)
| CompletionError (msg : string)
| HTTPException (status : Z) (detail : string) (cause : option pyexn).

Inductive pyresult (A : Type) : Type :=
| Ok (a : A)
| Raise (e : pyexn).
Arguments Ok {A} a.
Arguments Raise {A} e.

#[global] Instance pyresult_ret : MRet pyresult := fun A a => Ok a.
#[global] Instance pyresult_bind : MBind pyresult :=
  fun A B f m => match m with Ok a => f a | Raise e => Raise e end.

(** ** Characters *)

Definition dquote : ascii := "034"%char.
Definition backslash : ascii := "\"%char.
Definition newline : ascii := "010"%char.

Definition quoted (s : string) : string := String dquote s +:+ String dquote "".

Definition is_ascii_digit (c : ascii) : bool :=
  ((48 <=? N_of_ascii c) && (N_of_ascii c <=? 57))%N.

(** [" \t\n\r"], the whitespace of the JSON decoder. *)
Definition is_json_ws (c : ascii) : bool :=
  let n := N_of_ascii c in ((n =? 32) || (n =? 9) || (n =? 10) || (n =? 13))%N.

(** The ASCII characters [str.isspace] accepts. *)
Definition is_py_space (c : ascii) : bool :=
  let n := N_of_ascii c in
  (((9 <=? n) && (n <=? 13)) || ((28 <=? n) && (n <=? 32)))%N.

Definition is_control (c : ascii) : bool := (N_of_ascii c <? 32)%N.

(** ** Strings: the [str] methods the code calls *)

(** [str.lstrip()]: ASCII whitespace and the UTF-8 forms of U+0085, U+00A0,
    U+1680, U+2000..U+200A, U+2028, U+2029, U+202F, U+205F and U+3000. *)
Fixpoint lstrip (s : string) : string :=
  match s with
  | EmptyString => EmptyString
  | String c r =>
    if is_py_space c then lstrip r
    else
      match r with
      | String c1 r1 =>
        let n := N_of_ascii c in
        let n1 := N_of_ascii c1 in
        if ((n =? 194) && ((n1 =? 133) || (n1 =? 160)))%N then lstrip r1
        else
          match r1 with
          | String c2 r2 =>
            let n2 := N_of_ascii c2 in
            if (((n =? 225) && (n1 =? 154) && (n2 =? 128))
                || ((n =? 226) && (n1 =? 128)
                    && (((128 <=? n2) && (n2 <=? 138))
                        || (n2 =? 168) || (n2 =? 169) || (n2 =? 175)))
                || ((n =? 226) && (n1 =? 129) && (n2 =? 159))
                || ((n =? 227) && (n1 =? 128) && (n2 =? 128)))%N
            then lstrip r2 else s
          | EmptyString => s
          end
      | EmptyString => s
      end
  end.

Fixpoint rev_onto (s acc : string) : string :=
  match s with
  | EmptyString => acc
  | String c r => rev_onto r (String c acc)
  end.

Definition str_rev (s : string) : string := rev_onto s "".

(** [lstrip] read from the end of the text: the argument is reversed, so
    the multi-byte forms appear last byte first. *)
Fixpoint lstrip_rev (s : string) : string :=
  match s with
  | EmptyString => EmptyString
  | String c r =>
    if is_py_space c then lstrip_rev r
    else
      match r with
      | String c1 r1 =>
        let n := N_of_ascii c in
        let n1 := N_of_ascii c1 in
        if ((n1 =? 194) && ((n =? 133) || (n =? 160)))%N then lstrip_rev r1
        else
          match r1 with
          | String c2 r2 =>
            let n2 := N_of_ascii c2 in
            if (((n2 =? 225) && (n1 =? 154) && (n =? 128))
                || ((n2 =? 226) && (n1 =? 128)
                    && (((128 <=? n) && (n <=? 138))
                        || (n =? 168) || (n =? 169) || (n =? 175)))
                || ((n2 =? 226) && (n1 =? 129) && (n =? 159))
                || ((n2 =? 227) && (n1 =? 128) && (n =? 128)))%N
            then lstrip_rev r2 else s
          | EmptyString => s
          end
      | EmptyString => s
      end
  end.

Definition rstrip (s : string) : string := str_rev (lstrip_rev (str_rev s)).

(** [str.strip()]. *)
Definition strip (s : string) : string := rstrip (lstrip s).

(** [sep.join(l)]. *)
Fixpoint join_tail (sep : string) (l : list string) : string :=
  match l with
  | [] => ""
  | y :: l' => sep +:+ y +:+ join_tail sep l'
  end.

Definition str_join (sep : string) (l : list string) : string :=
  match l with
  | [] => ""
  | x :: l' => x +:+ join_tail sep l'
  end.

(** [str.isdigit()], on ASCII digits. *)
Fixpoint all_digits (s : string) : bool :=
  match s with
  | EmptyString => true
  | String c r => is_ascii_digit c && all_digits r
  end.

Definition isdigit (s : string) : bool :=
  match s with
  | EmptyString => false
  | _ => all_digits s
  end.

(** [int(s)] for a text of decimal digits. *)
Definition int_of_digits (s : string) : pyresult Z :=
  match NilEmpty.uint_of_string s with
  | Some d => Ok (Z.of_uint d)
  | None => Raise (ValueError "invalid literal for int() with base 10")
  end.

(** [str(z)] for an [int]. *)
Definition str_of_int (z : Z) : string := NilZero.string_of_int (Z.to_int z).

(** ** Dictionaries *)

Fixpoint dict_get (k : string) (m : list (string * json)) : option json :=
  match m with
  | [] => None
  | (k', v) :: m' => if String.eqb k k' then Some v else dict_get k m'
  end.

(** [d[k] = v]: an existing key keeps its place, a new one goes last. *)
Fixpoint dict_set (k : string) (v : json) (m : list (string * json))
  : list (string * json) :=
  match m with
  | [] => [(k, v)]
  | (k', v') :: m' =>
    if String.eqb k k' then (k, v) :: m' else (k', v') :: dict_set k v m'
  end.

(** [dict(pairs)] and [d.update(pairs)]: the pairs are stored in order. *)
Definition dict_update (m upd : list (string * json)) : list (string * json) :=
  fold_left (fun d kv => dict_set kv.1 kv.2 d) upd m.

Definition dict_of_pairs (pairs : list (string * json)) : list (string * json) :=
  dict_update [] pairs.

Definition dict_has (k : string) (m : list (string * json)) : bool :=
  match dict_get k m with Some _ => true | None => false end.

(** Truth value of a Python object. *)
Fixpoint has_nonzero_digit (s : string) : bool :=
  match s with
  | EmptyString => false
  | String c r =>
    if (N_of_ascii c =? 101)%N || (N_of_ascii c =? 69)%N then false
    else if is_ascii_digit c && negb (N_of_ascii c =? 48)%N then true
    else has_nonzero_digit r
  end.

Definition truthy (v : json) : bool :=
  match v with
  | JNull => false
  | JBool b => b
  | JInt z => negb (z =? 0)%Z
  | JFloat lit =>
    match lit with
    | String c _ => if is_ascii_digit c || (N_of_ascii c =? 45)%N
                    then has_nonzero_digit lit else true
    | EmptyString => false
    end
  | JStr s => match s with EmptyString => false | _ => true end
  | JList l => match l with [] => false | _ => true end
  | JDict m => match m with [] => false | _ => true end
  end.

(** The name [type(v).__name__] prints in error messages. *)
Definition type_name (v : json) : string :=
  match v with
  | JNull => "NoneType"
  | JBool _ => "bool"
  | JInt _ => "int"
  | JFloat _ => "float"
  | JStr _ => "str"
  | JList _ => "list"
  | JDict _ => "dict"
  end.

(** ** [json.dump(obj, f, ensure_ascii=False, indent=2)] *)

Definition hex_char (n : N) : ascii :=
  if (n <? 10)%N then ascii_of_N (48 + n) else ascii_of_N (87 + n).

(** One character of a string literal: the quote, the backslash and the
    control characters are escaped, everything else is written as it is. *)
Definition escape_char (c : ascii) : string :=
  let n := N_of_ascii c in
  if (n =? 34)%N then String backslash (String dquote "")
  else if (n =? 92)%N then String backslash (String backslash "")
  else if (n =? 10)%N then String backslash "n"
  else if (n =? 13)%N then String backslash "r"
  else if (n =? 9)%N then String backslash "t"
  else if (n =? 8)%N then String backslash "b"
  else if (n =? 12)%N then String backslash "f"
  else if (n <? 32)%N then
    String backslash
      (String "u" (String "0" (String "0"
        (String (hex_char (n / 16)) (String (hex_char (n mod 16)) "")))))
  else String c "".

Fixpoint escape_body (s : string) : string :=
  match s with
  | EmptyString => ""
  | String c r => escape_char c +:+ escape_body r
  end.

Definition encode_basestring (s : string) : string :=
  String dquote (escape_body s +:+ String dquote "").

Fixpoint spaces (n : nat) : string :=
  match n with
  | O => ""
  | S n' => String " " (spaces n')
  end.

(** A line break followed by the indentation of nesting level [lvl]. *)
Definition newline_indent (lvl : nat) : string := String newline (spaces (2 * lvl)).

Fixpoint encode (lvl : nat) (v : json) : string :=
  match v with
  | JNull => "null"
  | JBool true => "true"
  | JBool false => "false"
  | JInt z => str_of_int z
  | JFloat lit => lit
  | JStr s => encode_basestring s
  | JList l =>
    match l with
    | [] => "[]"
    | _ =>
      "[" +:+ newline_indent (S lvl)
      +:+ str_join ("," +:+ newline_indent (S lvl)) (map (encode (S lvl)) l)
      +:+ newline_indent lvl +:+ "]"
    end
  | JDict m =>
    match m with
    | [] => "{}"
    | _ =>
      "{" +:+ newline_indent (S lvl)
      +:+ str_join ("," +:+ newline_indent (S lvl))
            (map (fun kv => encode_basestring kv.1 +:+ ": " +:+ encode (S lvl) kv.2) m)
      +:+ newline_indent lvl +:+ "}"
    end
  end.

Definition json_dumps (v : json) : string := encode 0 v.

(** ** [json.loads] *)

Fixpoint skip_ws (s : string) : string :=
  match s with
  | EmptyString => EmptyString
  | String c r => if is_json_ws c then skip_ws r else s
  end.

(** [strip_prefix p s] is the text of [s] after its prefix [p]. *)
Fixpoint strip_prefix (p s : string) : option string :=
  match p with
  | EmptyString => Some s
  | String c p' =>
    match s with
    | EmptyString => None
    | String c' s' => if Ascii.eqb c c' then strip_prefix p' s' else None
    end
  end.

Definition hex_val (c : ascii) : option N :=
  let n := N_of_ascii c in
  if ((48 <=? n) && (n <=? 57))%N then Some (n - 48)%N
  else if ((97 <=? n) && (n <=? 102))%N then Some (n - 87)%N
  else if ((65 <=? n) && (n <=? 70))%N then Some (n - 55)%N
  else None.

Definition hex4 (a b c d : ascii) : option N :=
  match hex_val a, hex_val b, hex_val c, hex_val d with
  | Some x, Some y, Some z, Some w => Some (((x * 16 + y) * 16 + z) * 16 + w)%N
  | _, _, _, _ => None
  end.

(** The UTF-8 bytes of a code point (a lone surrogate is written in the
    same three-byte form). *)
Definition utf8_encode (cp : N) : string :=
  if (cp <? 128)%N then String (ascii_of_N cp) ""
  else if (cp <? 2048)%N then
    String (ascii_of_N (192 + cp / 64)) (String (ascii_of_N (128 + cp mod 64)) "")
  else if (cp <? 65536)%N then
    String (ascii_of_N (224 + cp / 4096))
      (String (ascii_of_N (128 + (cp / 64) mod 64))
        (String (ascii_of_N (128 + cp mod 64)) ""))
  else
    String (ascii_of_N (240 + cp / 262144))
      (String (ascii_of_N (128 + (cp / 4096) mod 64))
        (String (ascii_of_N (128 + (cp / 64) mod 64))
          (String (ascii_of_N (128 + cp mod 64)) ""))).

(** The character a one-letter escape stands for. *)
Definition unescape (c : ascii) : option ascii :=
  let n := N_of_ascii c in
  if (n =? 34)%N then Some dquote
  else if (n =? 92)%N then Some backslash
  else if (n =? 47)%N then Some "/"%char
  else if (n =? 98)%N then Some "008"%char
  else if (n =? 102)%N then Some "012"%char
  else if (n =? 110)%N then Some newline
  else if (n =? 114)%N then Some "013"%char
  else if (n =? 116)%N then Some "009"%char
  else None.

Definition prepend (p : string) (r : option (string * string))
  : option (string * string) :=
  match r with
  | Some (s, rest) => Some (p +:+ s, rest)
  | None => None
  end.

(** [scanstring(s, end, strict=True)]: the argument is the text after the
    opening quote; the result is the decoded string and the text after the
    closing quote. *)
Fixpoint py_scanstring (s : string) : option (string * string) :=
  match s with
  | EmptyString => None
  | String c r =>
    if Ascii.eqb c dquote then Some ("", r)
    else if Ascii.eqb c backslash then
      match r with
      | EmptyString => None
      | String e r1 =>
        if Ascii.eqb e "u" then
          match r1 with
          | String h1 (String h2 (String h3 (String h4 r2))) =>
            match hex4 h1 h2 h3 h4 with
            | None => None
            | Some uni =>
              if ((55296 <=? uni) && (uni <=? 56319))%N then
                match r2 with
                | String b2 (String u2 (String l1 (String l2 (String l3 (String l4 r3))))) =>
                  if Ascii.eqb b2 backslash && Ascii.eqb u2 "u" then
                    match hex4 l1 l2 l3 l4 with
                    | None => None
                    | Some uni2 =>
                      if ((56320 <=? uni2) && (uni2 <=? 57343))%N then
                        prepend
                          (utf8_encode (65536 + ((uni - 55296) * 1024 + (uni2 - 56320))))
                          (py_scanstring r3)
                      else prepend (utf8_encode uni) (py_scanstring r2)
                    end
                  else prepend (utf8_encode uni) (py_scanstring r2)
                | _ => prepend (utf8_encode uni) (py_scanstring r2)
                end
              else prepend (utf8_encode uni) (py_scanstring r2)
            end
          | _ => None
          end
        else
          match unescape e with
          | Some c' => prepend (String c' "") (py_scanstring r1)
          | None => None
          end
      end
    else if is_control c then None
    else prepend (String c "") (py_scanstring r)
  end.

(** Longest prefix of decimal digits. *)
Fixpoint span_digits (s : string) : string * string :=
  match s with
  | EmptyString => ("", "")
  | String c r =>
    if is_ascii_digit c
    then let '(d, r') := span_digits r in (String c d, r')
    else ("", s)
  end.

(** The optional fraction of a number: a dot and at least one digit. *)
Definition match_frac (s : string) : string * string :=
  match s with
  | String c r =>
    if Ascii.eqb c "." then
      match span_digits r with
      | (EmptyString, _) => ("", s)
      | (d, r') => (String c d, r')
      end
    else ("", s)
  | EmptyString => ("", s)
  end.

(** The optional exponent of a number: e or E, an optional sign and at
    least one digit. *)
Definition match_exp (s : string) : string * string :=
  match s with
  | String c r =>
    if Ascii.eqb c "e" || Ascii.eqb c "E" then
      let '(sg, r1) :=
        match r with
        | String c1 r' =>
          if Ascii.eqb c1 "+" || Ascii.eqb c1 "-" then (String c1 "", r') else ("", r)
        | EmptyString => ("", r)
        end in
      match span_digits r1 with
      | (EmptyString, _) => ("", s)
      | (d, r2) => (String c (sg +:+ d), r2)
      end
    else ("", s)
  | EmptyString => ("", s)
  end.

(** The integer part of a number, an optional minus sign followed by a
    single zero or by digits that start with a non-zero one: its sign, its
    digits and the text after it. *)
Definition match_int (s : string) : option (bool * string * string) :=
  let '(neg, s1) :=
    match s with
    | String c r => if Ascii.eqb c "-" then (true, r) else (false, s)
    | EmptyString => (false, s)
    end in
  match s1 with
  | String c r =>
    if Ascii.eqb c "0" then Some (neg, "0", r)
    else if is_ascii_digit c then
      let '(d, r') := span_digits s1 in Some (neg, d, r')
    else None
  | EmptyString => None
  end.

Definition int_value (neg : bool) (digits : string) : Z :=
  match NilEmpty.uint_of_string digits with
  | Some d => if neg then Z.of_int (Neg d) else Z.of_int (Pos d)
  | None => 0%Z
  end.

(** [NUMBER_RE.match]: an [int] when there is neither fraction nor
    exponent, a [float] otherwise. *)
Definition match_number (s : string) : option (json * string) :=
  match match_int s with
  | None => None
  | Some (neg, digits, r1) =>
    let '(frac, r2) := match_frac r1 in
    let '(exp, r3) := match_exp r2 in
    match frac, exp with
    | EmptyString, EmptyString => Some (JInt (int_value neg digits), r3)
    | _, _ =>
      Some (JFloat ((if neg then "-" else "") +:+ digits +:+ frac +:+ exp), r3)
    end
  end.

(** The constants the scanner accepts besides numbers. *)
Definition match_constant (s : string) : option (json * string) :=
  match strip_prefix "null" s with
  | Some r => Some (JNull, r)
  | None =>
  match strip_prefix "true" s with
  | Some r => Some (JBool true, r)
  | None =>
  match strip_prefix "false" s with
  | Some r => Some (JBool false, r)
  | None =>
  match match_number s with
  | Some res => Some res
  | None =>
  match strip_prefix "NaN" s with
  | Some r => Some (JFloat "NaN", r)
  | None =>
  match strip_prefix "Infinity" s with
  | Some r => Some (JFloat "Infinity", r)
  | None =>
  match strip_prefix "-Infinity" s with
  | Some r => Some (JFloat "-Infinity", r)
  | None => None
  end end end end end end end.

(** [scan_once], [JSONArray] and [JSONObject].  The recursion of the
    decoder is on the text; [fuel] bounds it, and the length of the text is
    always enough ([json_loads_fuel] below). *)
Fixpoint scan_once (fuel : nat) (s : string) : option (json * string) :=
  match fuel with
  | O => None
  | S fuel' =>
    match s with
    | EmptyString => None
    | String c r =>
      if Ascii.eqb c dquote then
        match py_scanstring r with
        | Some (str, r') => Some (JStr str, r')
        | None => None
        end
      else if Ascii.eqb c "{" then
        match skip_ws r with
        | String c1 r1 =>
          if Ascii.eqb c1 "}" then Some (JDict [], r1)
          else if Ascii.eqb c1 dquote then
            match object_members fuel' r1 with
            | Some (pairs, r') => Some (JDict (dict_of_pairs pairs), r')
            | None => None
            end
          else None
        | EmptyString => None
        end
      else if Ascii.eqb c "[" then
        match skip_ws r with
        | String c1 r1 =>
          if Ascii.eqb c1 "]" then Some (JList [], r1)
          else
            match array_items fuel' (String c1 r1) with
            | Some (items, r') => Some (JList items, r')
            | None => None
            end
        | EmptyString => None
        end
      else match_constant s
    end
  end
with array_items (fuel : nat) (s : string) : option (list json * string) :=
  match fuel with
  | O => None
  | S fuel' =>
    match scan_once fuel' s with
    | None => None
    | Some (v, r) =>
      match skip_ws r with
      | String c r1 =>
        if Ascii.eqb c "]" then Some ([v], r1)
        else if Ascii.eqb c "," then
          match array_items fuel' (skip_ws r1) with
          | Some (vs, r') => Some (v :: vs, r')
          | None => None
          end
        else None
      | EmptyString => None
      end
    end
  end
with object_members (fuel : nat) (s : string)
  : option (list (string * json) * string) :=
  match fuel with
  | O => None
  | S fuel' =>
    match py_scanstring s with
    | None => None
    | Some (key, r) =>
      match skip_ws r with
      | String c r1 =>
        if Ascii.eqb c ":" then
          match scan_once fuel' (skip_ws r1) with
          | None => None
          | Some (v, r2) =>
            match skip_ws r2 with
            | String c2 r3 =>
              if Ascii.eqb c2 "}" then Some ([(key, v)], r3)
              else if Ascii.eqb c2 "," then
                match skip_ws r3 with
                | String c3 r4 =>
                  if Ascii.eqb c3 dquote then
                    match object_members fuel' r4 with
                    | Some (kvs, r') => Some ((key, v) :: kvs, r')
                    | None => None
                    end
                  else None
                | EmptyString => None
                end
              else None
            | EmptyString => None
            end
          end
        else None
      | EmptyString => None
      end
    end
  end.

(** [json.loads(s)]: [None] stands for [JSONDecodeError]. *)
Definition json_loads (s : string) : option json :=
  match scan_once (S (String.length s)) (skip_ws s) with
  | Some (v, r) =>
    match skip_ws r with
    | EmptyString => Some v
    | String _ _ => None
    end
  | None => None
  end.

(** ** [str()] and [repr()] of a value, as an f-string prints it *)

Fixpoint str_contains_char (c : ascii) (s : string) : bool :=
  match s with
  | EmptyString => false
  | String c' r => Ascii.eqb c c' || str_contains_char c r
  end.

Definition repr_char (q c : ascii) : string :=
  let n := N_of_ascii c in
  if Ascii.eqb c q || Ascii.eqb c backslash then String backslash (String c "")
  else if (n =? 10)%N then String backslash "n"
  else if (n =? 13)%N then String backslash "r"
  else if (n =? 9)%N then String backslash "t"
  else if (n <? 32)%N || (n =? 127)%N then
    String backslash (String "x" (String (hex_char (n / 16)) (String (hex_char (n mod 16)) "")))
  else String c "".

Fixpoint repr_body (q : ascii) (s : string) : string :=
  match s with
  | EmptyString => ""
  | String c r => repr_char q c +:+ repr_body q r
  end.

Definition repr_str (s : string) : string :=
  let q := if str_contains_char "'" s && negb (str_contains_char dquote s)
           then dquote else "'"%char in
  String q (repr_body q s +:+ String q "").

Fixpoint py_repr (v : json) : string :=
  match v with
  | JNull => "None"
  | JBool true => "True"
  | JBool false => "False"
  | JInt z => str_of_int z
  | JFloat lit => lit
  | JStr s => repr_str s
  | JList l => "[" +:+ str_join ", " (map py_repr l) +:+ "]"
  | JDict m =>
    "{" +:+ str_join ", " (map (fun kv => repr_str kv.1 +:+ ": " +:+ py_repr kv.2) m) +:+ "}"
  end.

Definition py_str (v : json) : string :=
  match v with
  | JStr s => s
  | _ => py_repr v
  end.

(** [str(e)] of an exception. *)
Fixpoint exn_str (e : pyexn) : string :=
  match e with
  | TypeError msg => msg
  | AttributeError msg => msg
  | ValueError msg => msg
  | KeyError key => repr_str key
  | InvalidBucket key val => "Invalid " +:+ key +:+ ".value: " +:+ py_str val
  | RuntimeError msg => msg
  | CompletionError msg => msg
  | HTTPException status detail cause =>
    str_of_int status +:+ ": " +:+ detail
    +:+ match cause with Some c => exn_str c | None => "" end
  end.

(** ** Operators of the Python object model the handlers use *)

Fixpoint is_prefix (p s : string) : bool :=
  match p with
  | EmptyString => true
  | String c p' =>
    match s with
    | EmptyString => false
    | String c' s' => Ascii.eqb c c' && is_prefix p' s'
    end
  end.

Fixpoint is_substring (p s : string) : bool :=
  is_prefix p s ||
  match s with
  | EmptyString => false
  | String _ s' => is_substring p s'
  end.

Definition is_this_str (k : string) (v : json) : bool :=
  match v with
  | JStr s => String.eqb k s
  | _ => false
  end.

(** [k in v] for a string [k]. *)
Definition py_contains (k : string) (v : json) : pyresult bool :=
  match v with
  | JDict m => Ok (dict_has k m)
  | JList l => Ok (existsb (is_this_str k) l)
  | JStr s => Ok (is_substring k s)
  | _ => Raise (TypeError ("argument of type '" +:+ type_name v +:+ "' is not iterable"))
  end.

(** [v[k]] for a string [k] that [k in v] has found. *)
Definition py_getitem (k : string) (v : json) : pyresult json :=
  match v with
  | JDict m =>
    match dict_get k m with
    | Some x => Ok x
    | None => Raise (KeyError k)
    end
  | JList _ => Raise (TypeError "list indices must be integers or slices, not str")
  | JStr _ => Raise (TypeError "string indices must be integers, not 'str'")
  | _ => Raise (TypeError ("'" +:+ type_name v +:+ "' object is not subscriptable"))
  end.

(** [v[k] = x] for a string [k]. *)
Definition py_setitem (k : string) (x : json) (v : json) : pyresult json :=
  match v with
  | JDict m => Ok (JDict (dict_set k x m))
  | JList _ => Raise (TypeError "list indices must be integers or slices, not str")
  | _ => Raise (TypeError ("'" +:+ type_name v +:+ "' object does not support item assignment"))
  end.

(** [d.get(k)] on a [dict]: [None] when the key is missing. *)
Definition field (k : string) (m : list (string * json)) : json :=
  match dict_get k m with Some x => x | None => JNull end.

(** [v.get(k)]: only a [dict] has the method. *)
Definition py_get (k : string) (v : json) : pyresult json :=
  match v with
  | JDict m => Ok (field k m)
  | _ => Raise (AttributeError ("'" +:+ type_name v +:+ "' object has no attribute 'get'"))
  end.

(** [v.update(upd)]. *)
Definition py_update (upd : list (string * json)) (v : json) : pyresult json :=
  match v with
  | JDict m => Ok (JDict (dict_update m upd))
  | _ => Raise (AttributeError ("'" +:+ type_name v +:+ "' object has no attribute 'update'"))
  end.

(** [a or b]. *)
Definition py_or (a b : json) : json := if truthy a then a else b.

(** ** Paths *)

Definition sep : ascii := "/"%char.

Fixpoint ends_with_sep (s : string) : bool :=
  match s with
  | EmptyString => false
  | String c EmptyString => Ascii.eqb c sep
  | String _ r => ends_with_sep r
  end.

(** [os.path.join(a, b)]. *)
Definition path_join (a b : string) : string :=
  match b with
  | String c _ =>
    if Ascii.eqb c sep then b
    else match a with
         | EmptyString => b
         | _ => if ends_with_sep a then a +:+ b else a +:+ String sep b
         end
  | EmptyString =>
    match a with
    | EmptyString => b
    | _ => if ends_with_sep a then a +:+ b else a +:+ String sep b
    end
  end.

(** [p[:p.rfind(c) + 1]]: the text up to the last [c], that one included. *)
Fixpoint upto_last (c : ascii) (s : string) : string :=
  match s with
  | EmptyString => ""
  | String c' r =>
    if Ascii.eqb c' c || str_contains_char c r then String c' (upto_last c r) else ""
  end.

Fixpoint all_sep (s : string) : bool :=
  match s with
  | EmptyString => true
  | String c r => Ascii.eqb c sep && all_sep r
  end.

Fixpoint lstrip_sep (s : string) : string :=
  match s with
  | EmptyString => ""
  | String c r => if Ascii.eqb c sep then lstrip_sep r else s
  end.

(** [os.path.dirname(p)]. *)
Definition dirname (p : string) : string :=
  let head := upto_last sep p in
  match head with
  | EmptyString => head
  | _ => if all_sep head then head else str_rev (lstrip_sep (str_rev head))
  end.

(** ** The file system *)

Definition write_text (path text : string) (fs : gmap string string)
  : gmap string string := <[path := text]> fs.

(** [os.replace(src, dst)]: in one step [dst] holds what [src] held and
    [src] is gone. *)
Definition os_replace (src dst : string) (fs : gmap string string)
  : gmap string string :=
  match fs !! src with
  | Some t => <[dst := t]> (delete src fs)
  | None => fs
  end.

(** ** The conversation *)

Record chat_msg : Type := ChatMsg { role : string; content : string }.
Record log_entry : Type := LogEntry { speaker : string; text : string }.

(** What a call to the completion client gives: the content of the first
    choice (possibly [None]), or the exception it raised, as [str(e)]. *)
Inductive completion : Type :=
| Reply (body : option string)
| Failure (e : string).

Inductive frame : Type :=
| Sent (line : string)
| Received (line : string).

Record world : Type := World {
  files : gmap string string;
  wire : list frame;
  connected : bool;
  calls : list (list chat_msg)
}.

Record session : Type := Session {
  interview_id : string;
  job_desc : string;
  years_exp : string;
  candidate_name : string;
  messages : list chat_msg;
  conversation_log : list log_entry;
  assistant_turns : nat;
  ended : bool
}.

Inductive event : Type :=
| Recv (line : string)
| Disconnect.

Inductive status : Type :=
| Serving (s : session)
| Finished
| Crashed (e : pyexn).

Definition send_text (line : string) (w : world) : world :=
  World (files w) (wire w ++ [Sent line]) (connected w) (calls w).

Definition note_received (line : string) (w : world) : world :=
  World (files w) (wire w ++ [Received line]) (connected w) (calls w).

Definition set_files (fs : gmap string string) (w : world) : world :=
  World fs (wire w) (connected w) (calls w).

Definition accept (w : world) : world :=
  World (files w) (wire w) true (calls w).

Definition close (w : world) : world :=
  World (files w) (wire w) false (calls w).

Definition say (who line : string) (s : session) : session :=
  Session (interview_id s) (job_desc s) (years_exp s) (candidate_name s)
    (messages s ++ [ChatMsg who line])
    (conversation_log s ++ [LogEntry who line])
    (assistant_turns s) (ended s).

Definition count_turn (s : session) : session :=
  Session (interview_id s) (job_desc s) (years_exp s) (candidate_name s)
    (messages s) (conversation_log s) (S (assistant_turns s)) (ended s).

Definition set_ended (s : session) : session :=
  Session (interview_id s) (job_desc s) (years_exp s) (candidate_name s)
    (messages s) (conversation_log s) (assistant_turns s) true.

Definition entry_json (t : log_entry) : json :=
  JDict [("speaker", JStr (speaker t)); ("text", JStr (text t))].

Definition log_json (log : list log_entry) : json := JList (map entry_json log).

(** The flattened transcript: one line [speaker: text] per message. *)
Definition flatten_transcript (log : list log_entry) : string :=
  str_join (String newline "") (map (fun t => speaker t +:+ ": " +:+ text t) log).

Definition max_assistant_turns : nat := 30.

Definition closing : string :=
  "Thanks for participating in the interview. We will get back to you regarding the "
  +:+ "next steps. Please keep an eye on your email for further instructions.".

Definition greeting_for (name : string) : string :=
  "Hi " +:+ name +:+ ", let's start the interview. Can you please introduce yourself?".

Definition build_system_prompt (job_desc years_exp : string) : string :=
  "You are Interview Bot. Your job is to conduct a structured job interview." +:+ String newline ""
  +:+ "Role: Interview candidates for this position: " +:+ job_desc +:+ "." +:+ String newline ""
  +:+ "Target seniority: ~" +:+ years_exp +:+ " years of relevant experience."
  +:+ String newline (String newline "")
  +:+ "Rules:" +:+ String newline ""
  +:+ "- Stay strictly in scope of the job description; do not answer unrelated questions."
  +:+ String newline ""
  +:+ "- Assess communication clarity and professionalism." +:+ String newline ""
  +:+ "- Ask short, focused questions one at a time." +:+ String newline ""
  +:+ "- Cover: brief background, relevant projects, core skills, problem-solving, and a quick scenario."
  +:+ String newline ""
  +:+ "- After a few questions, politely end the interview and thank the candidate."
  +:+ String newline ""
  +:+ "- Keep responses concise and conversational." +:+ String newline "".

(** [websocket.query_params.get(k)]. *)
Fixpoint params_get (k : string) (params : list (string * string)) : option string :=
  match params with
  | [] => None
  | (k', v) :: rest => if String.eqb k k' then Some v else params_get k rest
  end.

(** [params.get(k) or default]. *)
Definition param_or (k : string) (params : list (string * string)) (default : string)
  : string :=
  match params_get k params with
  | Some (String c r) => String c r
  | _ => default
  end.

(** ** The score endpoint: parsing and validating the model's answer *)

Fixpoint from_first (c : ascii) (s : string) : option string :=
  match s with
  | EmptyString => None
  | String c' r => if Ascii.eqb c' c then Some s else from_first c r
  end.

(** [re.search(r"\{[\s\S]*\}", text)]: from the first opening brace to the
    last closing brace after it. *)
Definition search_object (s : string) : option string :=
  match from_first "{" s with
  | Some (String c r) =>
    match upto_last "}" r with
    | EmptyString => None
    | body => Some (String c body)
    end
  | _ => None
  end.

(** [_parse_score(text)]: [None] when neither the text nor the braces found
    in it parse. *)
Definition _parse_score (s : string) : option json :=
  match json_loads s with
  | Some v => Some v
  | None =>
    match search_object s with
    | None => None
    | Some body => json_loads body
    end
  end.

(** [_norm_bucket(d, key)]. A [bool] is an [int] for [isinstance]; the
    scale that is stored is always ten (a float scale equal to ten would be
    kept as it is by the code; floats are outside the embedding). *)
Definition _norm_bucket (d : list (string * json)) (key : string) : pyresult json :=
  bucket ← Ok (py_or (field key d) (JDict []));
  val ← py_get "value" bucket;
  val ← match val with
        | JInt _ | JBool _ => Ok val
        | JStr t => if isdigit t then z ← int_of_digits t; Ok (JInt z) else Ok val
        | _ => Ok val
        end;
  match val with
  | JInt z =>
    if (z <? 1)%Z || (10 <? z)%Z then Raise (InvalidBucket key val)
    else Ok (JDict [("value", val); ("scale", JInt 10)])
  | JBool b =>
    if b then Ok (JDict [("value", val); ("scale", JInt 10)])
    else Raise (InvalidBucket key val)
  | _ => Raise (InvalidBucket key val)
  end.

Definition schema_hint : string :=
  "Return ONLY valid minified JSON with this exact structure and keys, no prose, no markdown, no comments."
  +:+ String newline ""
  +:+ "{" +:+ String newline ""
  +:+ "  " +:+ quoted "overall" +:+ ": { " +:+ quoted "value" +:+ ": <int 1-10>, "
  +:+ quoted "scale" +:+ ": 10 }," +:+ String newline ""
  +:+ "  " +:+ quoted "communication" +:+ ": { " +:+ quoted "value" +:+ ": <int 1-10>, "
  +:+ quoted "scale" +:+ ": 10 }," +:+ String newline ""
  +:+ "  " +:+ quoted "relevance" +:+ ": { " +:+ quoted "value" +:+ ": <int 1-10>, "
  +:+ quoted "scale" +:+ ": 10 }," +:+ String newline ""
  +:+ "  " +:+ quoted "technical" +:+ ": { " +:+ quoted "value" +:+ ": <int 1-10>, "
  +:+ quoted "scale" +:+ ": 10 }," +:+ String newline ""
  +:+ "  " +:+ quoted "confidence" +:+ ": { " +:+ quoted "value" +:+ ": <int 1-10>, "
  +:+ quoted "scale" +:+ ": 10 }," +:+ String newline ""
  +:+ "  " +:+ quoted "next_steps" +:+ ": [ <short actionable suggestions as strings> ]"
  +:+ String newline ""
  +:+ "}" +:+ String newline "".

Definition score_system_prompt : string :=
  "You are a fair and pragmatic technical interviewer. Be forgiving about ASR/STT mistakes and focus on the candidate's likely intent. Always return strict JSON per the user's schema.".

Definition score_prompt (job_desc years_exp : json) (transcript : string) : string :=
  "Score the candidate based on the transcript using a 1-10 scale for each category. Be fair and forgiving about minor transcription errors; focus on intent and content."
  +:+ String newline ""
  +:+ "Role: " +:+ py_str job_desc +:+ String newline ""
  +:+ "Target Experience: ~" +:+ py_str years_exp +:+ " years"
  +:+ String newline (String newline "")
  +:+ "Transcript (speaker: text):" +:+ String newline "" +:+ transcript
  +:+ String newline (String newline "") +:+ schema_hint.

(** The breakdown the endpoint stores and returns, from the parsed answer. *)
Definition build_breakdown (data : json) : pyresult (list (string * json)) :=
  match data with
  | JDict d =>
    overall ← _norm_bucket d "overall";
    communication ← _norm_bucket d "communication";
    relevance ← _norm_bucket d "relevance";
    technical ← _norm_bucket d "technical";
    confidence ← _norm_bucket d "confidence";
    let next_steps :=
      py_or (field "next_steps" d) (JList []) in
    let next_steps := match next_steps with JList _ => next_steps | _ => JList [] end in
    Ok [("overall", overall); ("communication", communication);
        ("relevance", relevance); ("technical", technical);
        ("confidence", confidence); ("next_steps", next_steps)]
  | _ => Raise (ValueError "Model did not return JSON")
  end.

(** ** The server *)

(** The process: the directory of the module ([os.path.dirname(__file__)]),
    the defaults read from the environment when the module is loaded, and
    the completion client, given as what the [n]-th call of the process
    answers to the messages it is sent. *)
Class Env : Type := {
  module_dir : string;
  DEFAULT_JOB_DESCRIPTION : string;
  DEFAULT_EXPERIENCE_REQUIRED : string;
  DEFAULT_CANDIDATE_NAME : string;
  client : nat -> list chat_msg -> completion
}.

Section Server.

Context {env : Env}.

Definition DB_PATH : string := path_join module_dir "interview_records.json".

Definition tmp_path : string := DB_PATH +:+ ".tmp".

Definition load_db (fs : gmap string string) : json :=
  match fs !! DB_PATH with
  | None => JDict []
  | Some body =>
    match strip body with
    | EmptyString => JDict []
    | stripped =>
      match json_loads stripped with
      | Some v => v
      | None => JDict []
      end
    end
  end.

Definition save_db (db : json) (fs : gmap string string) : gmap string string :=
  os_replace tmp_path DB_PATH (write_text tmp_path (json_dumps db) fs).

(** [resp.choices[0].message.content.strip()], or the exception. *)
Definition completion_text (r : completion) : pyresult string :=
  match r with
  | Reply (Some body) => Ok (strip body)
  | Reply None => Raise (AttributeError "'NoneType' object has no attribute 'strip'")
  | Failure e => Raise (CompletionError e)
  end.

(** The reply of a round: the text of the completion, or the exception it
    raised turned into a message of the conversation. *)
Definition answer_of (r : completion) : string :=
  match completion_text r with
  | Ok a => a
  | Raise e => "[error] OpenAI error: " +:+ exn_str e
  end.

(** [chat_completion(messages, temperature)]: the call is recorded. *)
Definition chat_completion (msgs : list chat_msg) (w : world) : completion * world :=
  (client (length (calls w)) msgs,
   World (files w) (wire w) (connected w) (calls w ++ [msgs])).

Definition initial_record (id job exp name now : string) : json :=
  JDict [("id", JStr id);
         ("job_description", JStr job);
         ("experience_required", JStr exp);
         ("candidate_name", JStr name);
         ("created_at", JStr (now +:+ "Z"));
         ("messages", JList []);
         ("transcript", JNull);
         ("summary", JNull);
         ("score", JNull)].

(** The handler up to its loop: accept, create the record, greet and
    announce the identifier.  [uuid] is [str(uuid.uuid4())] and [now] is
    [datetime.utcnow().isoformat()]. *)
Definition open_session (params : list (string * string)) (uuid now : string)
    (w : world) : pyresult (session * world) :=
  let w := accept w in
  let job := param_or "job" params DEFAULT_JOB_DESCRIPTION in
  let exp := param_or "exp" params DEFAULT_EXPERIENCE_REQUIRED in
  let name := param_or "name" params DEFAULT_CANDIDATE_NAME in
  db ← py_setitem uuid (initial_record uuid job exp name now) (load_db (files w));
  let w := set_files (save_db db (files w)) w in
  let s := Session uuid job exp name
             [ChatMsg "system" (build_system_prompt job exp)] [] 0 false in
  let greeting := greeting_for name in
  let w := send_text greeting w in
  let s := say "assistant" greeting s in
  let w := send_text ("[INTERVIEW_ID] " +:+ uuid) w in
  Ok (s, w).

(** The store update at the end of the interview: the record, if the
    store has it, gets the messages, the transcript and the time. *)
Definition store_transcript (s : session) (now : string) (fs : gmap string string)
  : pyresult (gmap string string) :=
  let transcript := flatten_transcript (conversation_log s) in
  let db := load_db fs in
  found ← py_contains (interview_id s) db;
  if (found : bool) then
    rec ← py_getitem (interview_id s) db;
    rec ← py_setitem "messages" (log_json (conversation_log s)) rec;
    rec ← py_setitem "transcript" (JStr transcript) rec;
    rec ← py_setitem "updated_at" (JStr (now +:+ "Z")) rec;
    db ← py_setitem (interview_id s) rec db;
    Ok (save_db db fs)
  else Ok fs.

(** One round of the loop for a text the client sent. *)
Definition handle_text (user_text now : string) (s : session) (w : world)
  : session * world :=
  let w := note_received user_text w in
  match user_text with
  | EmptyString => (s, send_text "[error] Empty message" w)
  | _ =>
    let s := say "user" user_text s in
    if ended s then (s, send_text "Interview already concluded." w)
    else
      let '(resp, w) := chat_completion (messages s) w in
      let answer := answer_of resp in
      let w := send_text answer w in
      let s := count_turn (say "assistant" answer s) in
      if (max_assistant_turns <=? assistant_turns s)%nat then
        let w := send_text closing w in
        let s := set_ended (say "assistant" closing s) in
        match store_transcript s now (files w) with
        | Ok fs =>
          let w := set_files fs w in
          let w := send_text "[INFO] Interview transcript saved." w in
          (s, close w)
        | Raise e =>
          (s, send_text ("[error] Failed to save transcript: " +:+ exn_str e) w)
        end
      else (s, w)
  end.

(** The state after the reply of an active round, before the turn limit is
    looked at. *)
Definition replied (t : string) (s : session) (w : world) : session * world :=
  let s1 := say "user" t s in
  let a := answer_of (client (length (calls w)) (messages s1)) in
  (count_turn (say "assistant" a s1),
   send_text a (snd (chat_completion (messages s1) (note_received t w)))).

(** The configuration a connection asks for. *)
Definition config_of (params : list (string * string)) : string * string * string :=
  (param_or "job" params DEFAULT_JOB_DESCRIPTION,
   param_or "exp" params DEFAULT_EXPERIENCE_REQUIRED,
   param_or "name" params DEFAULT_CANDIDATE_NAME).

(** The record written when the client disconnects. *)
Definition disconnect_update (s : session) (now : string) : list (string * json) :=
  [("id", JStr (interview_id s));
   ("job_description", JStr (job_desc s));
   ("experience_required", JStr (years_exp s));
   ("candidate_name", JStr (candidate_name s));
   ("messages", log_json (conversation_log s));
   ("transcript", JStr (flatten_transcript (conversation_log s)));
   ("updated_at", JStr (now +:+ "Z"))].

Definition store_on_disconnect (s : session) (now : string) (fs : gmap string string)
  : pyresult (gmap string string) :=
  let db := load_db fs in
  old ← py_get (interview_id s) db;
  rec ← py_update (disconnect_update s now) (py_or old (JDict []));
  db ← py_setitem (interview_id s) rec db;
  Ok (save_db db fs).

(** The handler of [WebSocketDisconnect]: errors of the save are dropped. *)
Definition handle_disconnect (now : string) (s : session) (w : world) : world :=
  match conversation_log s with
  | [] => w
  | _ =>
    match store_on_disconnect s now (files w) with
    | Ok fs => set_files fs w
    | Raise _ => w
    end
  end.

Definition not_connected : pyexn :=
  RuntimeError ("WebSocket is not connected. Need to call " +:+ quoted "accept" +:+ " first.").

(** The loop: each event comes with the clock reading of its round.  Once
    the handler has closed the socket the framework refuses to receive,
    and the error it raises ends the handler. *)
Fixpoint serve (evs : list (event * string)) (s : session) (w : world)
  : status * world :=
  match evs with
  | [] => (Serving s, w)
  | (ev, now) :: evs' =>
    if connected w then
      match ev with
      | Recv line =>
        let '(s', w') := handle_text line now s w in serve evs' s' w'
      | Disconnect => (Finished, handle_disconnect now s w)
      end
    else (Crashed not_connected, w)
  end.

Definition websocket_endpoint (params : list (string * string)) (uuid now : string)
    (evs : list (event * string)) (w : world) : status * world :=
  match open_session params uuid now w with
  | Ok (s, w') => serve evs s w'
  | Raise e => (Crashed e, accept w)
  end.

(** [GET /interviews/{interview_id}/score]. *)
Definition score_messages (prompt : string) : list chat_msg :=
  [ChatMsg "system" score_system_prompt; ChatMsg "user" prompt].

Definition get_score (id now : string) (w : world) : pyresult json * world :=
  let db := load_db (files w) in
  match py_get id db with
  | Raise e => (Raise e, w)
  | Ok item =>
    if negb (truthy item) then (Raise (HTTPException 404 "Interview not found" None), w)
    else
      match item with
      | JDict fields =>
        let cached := field "score_breakdown" fields in
        if truthy cached then
          match cached with
          | JDict m => (Ok (JDict (dict_update [("id", JStr id)] m)), w)
          | _ => (Raise (TypeError ("'" +:+ type_name cached +:+ "' object is not a mapping")), w)
          end
        else
          let transcript := field "transcript" fields in
          if negb (truthy transcript)
          then (Raise (HTTPException 400 "Transcript not available yet" None), w)
          else
            match transcript with
            | JStr tr =>
              let prompt :=
                score_prompt (field "job_description" fields)
                             (field "experience_required" fields) tr in
              let '(resp, w) := chat_completion (score_messages prompt) w in
              let attempt :=
                raw ← completion_text resp;
                breakdown ← match _parse_score raw with
                            | Some data => build_breakdown data
                            | None => Raise (ValueError "Model did not return JSON")
                            end;
                item ← py_setitem "score_breakdown" (JDict breakdown) item;
                overall ← py_getitem "overall" (JDict breakdown);
                value ← py_getitem "value" overall;
                item ← py_setitem "score" value item;
                item ← py_setitem "updated_at" (JStr (now +:+ "Z")) item;
                db ← py_setitem id item db;
                Ok (save_db db (files w), JDict (dict_update [("id", JStr id)] breakdown)) in
              match attempt with
              | Ok (fs, response) => (Ok response, set_files fs w)
              | Raise e =>
                (Raise (HTTPException 500 "Failed to generate score breakdown: " (Some e)), w)
              end
            | _ =>
              (Raise (TypeError ("can only concatenate str (not "
                                 +:+ quoted (type_name transcript) +:+ ") to str")), w)
            end
      | _ =>
        (Raise (AttributeError ("'" +:+ type_name item +:+ "' object has no attribute 'get'")), w)
      end
  end.

End Server.

(** ** Predicates used to state the properties *)

(** The text after a number: it neither continues the digits nor starts a
    fraction or an exponent. *)
Definition ends_number (rest : string) : bool :=
  match rest with
  | EmptyString => true
  | String c _ =>
    negb (is_ascii_digit c || Ascii.eqb c "." || Ascii.eqb c "e" || Ascii.eqb c "E")
  end.

Definition no_digit_ahead (rest : string) : bool :=
  match rest with
  | EmptyString => true
  | String c _ => negb (is_ascii_digit c)
  end.

Definition sign_text (neg : bool) : string := if neg then "-" else "".

(** The shape of an exponent: the letter, the optional sign, the digits. *)
Definition exp_shape (e : string) : Prop :=
  exists c sg d, e = String c (sg +:+ d)
    /\ (Ascii.eqb c "e" || Ascii.eqb c "E") = true
    /\ (sg = "" \/ sg = "+" \/ sg = "-")
    /\ d <> "" /\ all_digits d = true.

(** A character a number can start with. *)
Definition number_head (c : ascii) : bool :=
  is_ascii_digit c || Ascii.eqb c "-".

(** A floating-point literal as the decoder reads it. *)
Definition is_float_literal (lit : string) : bool :=
  match match_number lit with
  | Some (JFloat l, EmptyString) => String.eqb l lit
  | _ => String.eqb lit "NaN" || String.eqb lit "Infinity" || String.eqb lit "-Infinity"
  end.

Fixpoint keys_distinct (ks : list string) : bool :=
  match ks with
  | [] => true
  | k :: r => negb (existsb (String.eqb k) r) && keys_distinct r
  end.

(** The values the decoder produces: the keys of every [dict] are distinct
    and every float is a literal of the grammar. *)
Fixpoint canonical (v : json) : bool :=
  match v with
  | JFloat lit => is_float_literal lit
  | JList l => forallb canonical l
  | JDict m => keys_distinct (map fst m) && forallb (fun kv => canonical kv.2) m
  | _ => true
  end.

(** No floating-point number anywhere in the value. *)
Fixpoint float_free (v : json) : bool :=
  match v with
  | JFloat _ => false
  | JList l => forallb float_free l
  | JDict m => forallb (fun kv => float_free kv.2) m
  | _ => true
  end.


(** The number of calls the decoder needs for a value. *)
Fixpoint jsize (v : json) : nat :=
  match v with
  | JList l => S (list_sum (map (fun x => S (jsize x)) l))
  | JDict m => S (list_sum (map (fun kv => S (jsize kv.2)) m))
  | _ => 1
  end.

(** What the induction gives for a value: the decoder reads back what the
    encoder wrote, at any nesting level, before any text that ends a
    number, with any fuel from [jsize] on. *)
Definition reads_back (v : json) : Prop :=
  canonical v = true ->
  forall lvl rest fuel, ends_number rest = true -> jsize v <= fuel ->
  scan_once fuel (encode lvl v +:+ rest) = Some (v, rest).

(** ** Notions used to state the properties of the handlers *)

(** The record as the end of the interview leaves it. *)
Definition concluded_record (s : session) (now : string) (r : list (string * json))
  : list (string * json) :=
  dict_set "updated_at" (JStr (now +:+ "Z"))
    (dict_set "transcript" (JStr (flatten_transcript (conversation_log s)))
       (dict_set "messages" (log_json (conversation_log s)) r)).

(** The field [key] of the record the store holds for [id]. *)
Definition stored_field {env : Env} (fs : gmap string string)
    (id key : string) : option json :=
  match load_db fs with
  | JDict d =>
    match dict_get id d with
    | Some (JDict r) => dict_get key r
    | _ => None
    end
  | _ => None
  end.




Definition receive_all (texts : list (string * string)) : list (event * string) :=
  map (fun t => (Recv t.1, t.2)) texts.


(** The log a list of stored messages stands for. *)
Definition entry_of_json (v : json) : option log_entry :=
  match v with
  | JDict m =>
    match dict_get "speaker" m, dict_get "text" m with
    | Some (JStr who), Some (JStr line) => Some (LogEntry who line)
    | _, _ => None
    end
  | _ => None
  end.

Fixpoint entries_of_json (l : list json) : option (list log_entry) :=
  match l with
  | [] => Some []
  | v :: l' =>
    match entry_of_json v, entries_of_json l' with
    | Some t, Some log => Some (t :: log)
    | _, _ => None
    end
  end.

Definition log_of_json (v : json) : option (list log_entry) :=
  match v with
  | JList l => entries_of_json l
  | _ => None
  end.

(** The five numeric fields of a score. *)
Definition score_keys : list string :=
  ["overall"; "communication"; "relevance"; "technical"; "confidence"].

(** The value an answer gives for a score field, if it gives one. *)
Definition claimed_value (data : json) (key : string) : option json :=
  match data with
  | JDict d =>
    match dict_get key d with
    | Some (JDict bucket) => dict_get "value" bucket
    | _ => None
    end
  | _ => None
  end.

Definition in_score_range (z : Z) : bool := (1 <=? z)%Z && (z <=? 10)%Z.


(** A value the validation accepts by design: an integer from 1 to 10, or
    a text of decimal digits that denotes one. *)
Definition accepted_value (v : option json) : bool :=
  match v with
  | Some (JInt z) => in_score_range z
  | Some (JStr t) =>
    isdigit t && match int_of_digits t with Ok z => in_score_range z | Raise _ => false end
  | _ => false
  end.



(** ** Sample data *)

Definition sample_client (n : nat) (msgs : list chat_msg) : completion :=
  Reply (Some ("Question " +:+ str_of_int (Z.of_nat n))).

Definition sample_env : Env := {|
  module_dir := "/srv/app";
  DEFAULT_JOB_DESCRIPTION := "Software Engineer focusing on backend Python services.";
  DEFAULT_EXPERIENCE_REQUIRED := "3";
  DEFAULT_CANDIDATE_NAME := "Candidate";
  client := sample_client
|}.

(** A process whose completion client always raises. *)
Definition failing_env : Env := {|
  module_dir := "/srv/app";
  DEFAULT_JOB_DESCRIPTION := "Software Engineer focusing on backend Python services.";
  DEFAULT_EXPERIENCE_REQUIRED := "3";
  DEFAULT_CANDIDATE_NAME := "Candidate";
  client := fun _ _ => Failure "Connection error."
|}.

Definition ada_params : list (string * string) :=
  [("job", "Backend Engineer"); ("exp", "4"); ("name", "Ada")].

Definition fresh_world : world := World ∅ [] false [].

Definition no_session : session := Session "" "" "" "" [] [] 0 false.

(** The session of Ada right after it was opened. *)
Definition opened_sample : session * world :=
  match open_session (env := sample_env) ada_params "id-1" "T0" fresh_world with
  | Ok sw => sw
  | Raise _ => (no_session, fresh_world)
  end.

Definition sample_texts (n : nat) : list (string * string) :=
  repeat ("I build APIs.", "T1") n.


Definition score_answer (overall : json) : string :=
  json_dumps
    (JDict [("overall", JDict [("value", overall); ("scale", JInt 10)]);
            ("communication", JDict [("value", JInt 8); ("scale", JInt 10)]);
            ("relevance", JDict [("value", JInt 7); ("scale", JInt 10)]);
            ("technical", JDict [("value", JInt 6); ("scale", JInt 10)]);
            ("confidence", JDict [("value", JInt 7); ("scale", JInt 10)]);
            ("next_steps", JList [JStr "Schedule a system design round."])]).

(** A process whose completion client answers a score request with the
    given value for the overall field. *)
Definition score_env (overall : json) : Env := {|
  module_dir := "/srv/app";
  DEFAULT_JOB_DESCRIPTION := "Software Engineer focusing on backend Python services.";
  DEFAULT_EXPERIENCE_REQUIRED := "3";
  DEFAULT_CANDIDATE_NAME := "Candidate";
  client := fun _ _ => Reply (Some (score_answer overall))
|}.

Definition sample_store : list (string * json) :=
  [("id-1",
    JDict [("id", JStr "id-1");
           ("job_description", JStr "Backend Engineer");
           ("experience_required", JStr "4");
           ("candidate_name", JStr "Ada");
           ("created_at", JStr "T0Z");
           ("messages",
            log_json [LogEntry "assistant" (greeting_for "Ada");
                      LogEntry "user" "I build APIs."]);
           ("transcript",
            JStr (flatten_transcript [LogEntry "assistant" (greeting_for "Ada");
                                      LogEntry "user" "I build APIs."]));
           ("summary", JNull);
           ("score", JNull)])].

(** A world whose store holds [sample_store]. *)
Definition scored_world : world :=
  World (save_db (env := sample_env) (JDict sample_store) ∅) [] false [].

(** ** The claims the code does not keep, as the specification words them *)




(** * The other endpoints of [server_ws.py] *)

Section Endpoints.

Context {env : Env}.

Definition not_found : pyexn := HTTPException 404 "Interview not found" None.

Definition no_transcript : pyexn := HTTPException 400 "Transcript not available yet" None.

(** [GET /interviews/{interview_id}]. *)
Definition get_interview (id : string) (fs : gmap string string) : pyresult json :=
  item ← py_get id (load_db fs);
  if negb (truthy item) then Raise not_found else Ok item.

Definition summary_system_prompt : string :=
  "You are an expert technical interviewer and evaluator.".

Definition summary_prompt (transcript : string) : string :=
  "Summarize the following interview transcript in 5-8 concise bullet points focusing on the candidate's background, key skills, notable projects, and areas of concern."
  +:+ String newline (String newline "") +:+ transcript.

Definition summary_messages (transcript : string) : list chat_msg :=
  [ChatMsg "system" summary_system_prompt; ChatMsg "user" (summary_prompt transcript)].

Definition summary_response (id : string) (summary : json) : json :=
  JDict [("id", JStr id); ("summary", summary)].

(** [GET /interviews/{interview_id}/summary]. *)
Definition get_summary (id now : string) (w : world) : pyresult json * world :=
  let db := load_db (files w) in
  match py_get id db with
  | Raise e => (Raise e, w)
  | Ok item =>
    if negb (truthy item) then (Raise not_found, w)
    else
      match item with
      | JDict fields =>
        let cached := field "summary" fields in
        if truthy cached then (Ok (summary_response id cached), w)
        else
          let transcript := field "transcript" fields in
          if negb (truthy transcript) then (Raise no_transcript, w)
          else
            match transcript with
            | JStr tr =>
              let '(resp, w) := chat_completion (summary_messages tr) w in
              let attempt :=
                summary ← completion_text resp;
                item ← py_setitem "summary" (JStr summary) item;
                item ← py_setitem "updated_at" (JStr (now +:+ "Z")) item;
                db ← py_setitem id item db;
                Ok (save_db db (files w), summary_response id (JStr summary)) in
              match attempt with
              | Ok (fs, response) => (Ok response, set_files fs w)
              | Raise e =>
                (Raise (HTTPException 500 "Failed to generate summary: " (Some e)), w)
              end
            | _ =>
              (Raise (TypeError ("can only concatenate str (not "
                                 +:+ quoted (type_name transcript) +:+ ") to str")), w)
            end
      | _ =>
        (Raise (AttributeError ("'" +:+ type_name item +:+ "' object has no attribute 'get'")), w)
      end
  end.

Definition simple_response (id : string) (score : json) : json :=
  JDict [("id", JStr id); ("score", score); ("scale", JInt 10)].

(** [GET /interviews/{interview_id}/score_simple]: the stored score, or the
    one a breakdown request leaves in the store. *)
Definition get_score_simple (id now : string) (w : world) : pyresult json * world :=
  match py_get id (load_db (files w)) with
  | Raise e => (Raise e, w)
  | Ok item =>
    if negb (truthy item) then (Raise not_found, w)
    else
      match py_get "score" item with
      | Raise e => (Raise e, w)
      | Ok JNull =>
        match get_score id now w with
        | (Raise e, w') => (Raise e, w')
        | (Ok _, w') =>
          (item ← py_get id (load_db (files w'));
           score ← py_get "score" (py_or item (JDict []));
           Ok (simple_response id score),
           w')
        end
      | Ok score => (Ok (simple_response id score), w)
      end
  end.

End Endpoints.

(** ** Notions used to state the further properties *)

(** The calls a session has made are as many as its assistant turns, and
    an active session is below the limit. *)
Definition within_limit (before : list (list chat_msg)) (s : session) (w : world) : Prop :=
  exists made, calls w = (before ++ made)%list
    /\ length made = assistant_turns s
    /\ assistant_turns s <= max_assistant_turns
    /\ (ended s = false -> assistant_turns s < max_assistant_turns).

(** The store reads as a mapping that has a record for [id] and, for every
    other identifier, what the mapping [d0] has. *)
Definition store_keeps {env : Env} (d0 : list (string * json)) (id : string)
    (fs : gmap string string) : Prop :=
  exists d r, load_db fs = JDict d
    /\ dict_get id d = Some (JDict r)
    /\ forall id', id' <> id -> dict_get id' d = dict_get id' d0.

(** An empty text frame. *)
Definition is_empty_text (ev : event * string) : bool :=
  match ev.1 with
  | Recv EmptyString => true
  | _ => false
  end.

(** The events of a connection without the empty text frames. *)
Fixpoint drop_empty (evs : list (event * string)) : list (event * string) :=
  match evs with
  | [] => []
  | ev :: rest => if is_empty_text ev then drop_empty rest else ev :: drop_empty rest
  end.

(** Two worlds that differ at most in the frames that went over the
    socket. *)
Definition same_state (w1 w2 : world) : Prop :=
  files w1 = files w2 /\ calls w1 = calls w2 /\ connected w1 = connected w2.

(** The value the validation stores for a score field: a text of digits
    becomes the integer it denotes. *)
Definition normal_value (v : option json) : json :=
  match v with
  | Some (JStr t) =>
    match int_of_digits t with
    | Ok z => JInt z
    | Raise _ => JStr t
    end
  | Some x => x
  | None => JNull
  end.

Definition normal_bucket (data : json) (key : string) : json :=
  JDict [("value", normal_value (claimed_value data key)); ("scale", JInt 10)].

(** The suggestions of an answer: its list, or the empty list. *)
Definition normal_steps (data : json) : json :=
  match data with
  | JDict d =>
    match field "next_steps" d with
    | JList l => JList l
    | _ => JList []
    end
  | _ => JList []
  end.

Definition normal_breakdown (data : json) : list (string * json) :=
  [("overall", normal_bucket data "overall");
   ("communication", normal_bucket data "communication");
   ("relevance", normal_bucket data "relevance");
   ("technical", normal_bucket data "technical");
   ("confidence", normal_bucket data "confidence");
   ("next_steps", normal_steps data)].

(** Every one of the five fields has a value the validation accepts. *)
Definition all_accepted (data : json) : bool :=
  forallb (fun key => accepted_value (claimed_value data key)) score_keys.

Definition score_response (id : string) (breakdown : list (string * json)) : json :=
  JDict (("id", JStr id) :: breakdown).

(** The message of the history a log entry stands for. *)
Definition entry_msg (t : log_entry) : chat_msg := ChatMsg (speaker t) (text t).



(** * Text to speech: [tts_piper.py] and the [/tts] endpoint of [server_ws.py]

    The synthesiser is an external program.  What the module decides by
    itself is embedded: which executable and which voice it takes, the
    command it runs, what it returns and what it does with the temporary
    file.  The host is given by what it answers: the environment variables,
    the probe of a command, the listing of a directory, and the run of the
    synthesiser, which is taken to write nothing but its output file.  A
    path stands for the file it names as the process spells it. *)

Inductive node : Type :=
| File (content : string)
| Directory.

Definition disk : Type := gmap string node.

(** [os.path.isfile], [os.path.exists], [os.path.getsize]. *)
Definition isfile (p : string) (dk : disk) : bool :=
  match dk !! p with
  | Some (File _) => true
  | _ => false
  end.

Definition path_exists (p : string) (dk : disk) : bool :=
  match dk !! p with
  | Some _ => true
  | None => false
  end.

Definition getsize (p : string) (dk : disk) : nat :=
  match dk !! p with
  | Some (File c) => String.length c
  | _ => 0
  end.

(** [try: os.unlink(p) except Exception: pass]. *)
Definition unlink_quietly (p : string) (dk : disk) : disk :=
  match dk !! p with
  | Some (File _) => delete p dk
  | _ => dk
  end.

(** [os.path.basename(p)]. *)
Fixpoint basename (p : string) : string :=
  match p with
  | EmptyString => ""
  | String _ r => if str_contains_char sep p then basename r else p
  end.

Fixpoint all_dots (s : string) : bool :=
  match s with
  | EmptyString => true
  | String c r => Ascii.eqb c "." && all_dots r
  end.

(** The root of [os.path.splitext(p)]: the path without the extension of
    its last component.  A component made of dots up to its last dot, or
    without a dot, has no extension. *)
Definition splitext_root (p : string) : string :=
  let dir := upto_last sep p in
  let name := basename p in
  match upto_last "." name with
  | EmptyString => p
  | stem_dot =>
    let stem := substring 0 (String.length stem_dot - 1) stem_dot in
    if all_dots stem then p else dir +:+ stem
  end.

(** [s.lower()] on the letters of ASCII; the search for the letters
    [amy] in the lowered name finds the same either way. *)
Definition lower_char (c : ascii) : ascii :=
  let n := N_of_ascii c in
  if ((65 <=? n) && (n <=? 90))%N then ascii_of_N (n + 32) else c.

Fixpoint lower (s : string) : string :=
  match s with
  | EmptyString => ""
  | String c r => String (lower_char c) (lower r)
  end.

(** What [subprocess.run([command, "--help"], timeout=5)] does. *)
Inductive probe_outcome : Type :=
| Probed
| ProbeTimeout
| ProbeNotFound
| ProbeSubprocessError
| ProbeError (e : pyexn).

(** What [subprocess.run(cmd, input=text, timeout=60)] does. *)
Inductive run_outcome : Type :=
| Completed (returncode : Z) (stderr : string)
| TimeoutExpired
| RunError (e : pyexn).

(** The host: [os.getenv], [os.getcwd], [os.path.expanduser], the probe of a
    command, [glob.glob], and the run of the synthesiser with its input,
    which gives the outcome and the output file as the run leaves it
    ([None]: no file). *)
Class Host : Type := {
  getenv : string -> option string;
  getcwd : string;
  expanduser : string -> string;
  probe : string -> probe_outcome;
  glob : string -> list string;
  run : list string -> string -> run_outcome * option string
}.

(** The truth value of an optional text: given and not empty. *)
Definition is_set (o : option string) : bool :=
  match o with
  | Some (String _ _) => true
  | _ => false
  end.

Record PiperTTS : Type := Piper {
  piper_path : string;
  model_path : option string;
  config_path : option string;
  alias : option string
}.

Definition default_alias : string := "en_US-amy-medium".

Definition piper_not_found : pyexn :=
  RuntimeError ("Piper TTS not found. Please install it from https://github.com/rhasspy/piper"
                +:+ String newline ""
                +:+ "Or download the binary and place it in your PATH").

(** What a request to [/tts] gives: an error status with its detail, the
    audio streamed to its end, or a stream that broke because the file could
    not be opened. *)
Inductive tts_response : Type :=
| TtsRefused (status : Z) (detail : string)
| TtsAudio (body : string)
| TtsBroken.

Section Speech.

Context {env : Env} {host : Host}.

(** [PiperTTS._command_exists]. *)
Definition _command_exists (command : string) : pyresult bool :=
  match probe command with
  | Probed => Ok true
  | ProbeTimeout | ProbeNotFound | ProbeSubprocessError => Ok false
  | ProbeError e => Raise e
  end.

(** [os.path.exists(path) or self._command_exists(path)]. *)
Definition usable (path : string) (dk : disk) : pyresult bool :=
  if path_exists path dk then Ok true else _command_exists path.

Definition possible_paths : list string :=
  ["piper"; "/usr/local/bin/piper"; "/opt/homebrew/bin/piper";
   expanduser "~/piper/piper/piper"; expanduser "~/piper/piper.exe"].

Fixpoint first_usable (paths : list string) (dk : disk) : pyresult string :=
  match paths with
  | [] => Raise piper_not_found
  | path :: rest =>
    found ← usable path dk;
    if (found : bool) then Ok path else first_usable rest dk
  end.

(** [PiperTTS._find_piper]. *)
Definition _find_piper (dk : disk) : pyresult string :=
  match getenv "PIPER_BIN" with
  | Some (String c r) =>
    found ← usable (String c r) dk;
    if (found : bool) then Ok (String c r) else first_usable possible_paths dk
  | _ => first_usable possible_paths dk
  end.

Fixpoint first_amy (paths : list string) : option string :=
  match paths with
  | [] => None
  | p :: rest => if is_substring "amy" (lower (basename p)) then Some p else first_amy rest
  end.

(** [PiperTTS._guess_config_from_model]. *)
Definition _guess_config_from_model (model : string) (dk : disk) : option string :=
  let base := splitext_root model in
  let json_path := base +:+ ".onnx.json" in
  if isfile json_path dk then Some json_path
  else
    let alt_json := base +:+ ".json" in
    if isfile alt_json dk then Some alt_json
    else first_amy (glob (path_join (dirname model) "*.json")).

Fixpoint first_file (candidates : list string) (dk : disk) : option string :=
  match candidates with
  | [] => None
  | c :: rest => if isfile c dk then Some c else first_file rest dk
  end.

Definition text_of (o : option string) : string :=
  match o with
  | Some s => s
  | None => ""
  end.

(** [x and os.path.isfile(x)]. *)
Definition given_file (o : option string) (dk : disk) : bool :=
  is_set o && isfile (text_of o) dk.

(** [PiperTTS._resolve_model_paths]: the model, its configuration and the
    alias. *)
Definition _resolve_model_paths (voice : option string) (dk : disk)
  : option string * option string * option string :=
  let env_model := getenv "PIPER_MODEL_PATH" in
  let env_config := getenv "PIPER_CONFIG_PATH" in
  if given_file env_model dk then
    let cfg := if given_file env_config dk then env_config
               else _guess_config_from_model (text_of env_model) dk in
    (env_model, cfg, None)
  else if given_file voice dk then
    (voice, _guess_config_from_model (text_of voice) dk, None)
  else
    let voices_dir := match getenv "PIPER_VOICES_DIR" with
                      | Some dir => dir
                      | None => path_join getcwd "voices"
                      end in
    let candidates := [path_join voices_dir "en_US-amy-medium.onnx";
                       path_join voices_dir "amy-medium.onnx"] in
    match first_file candidates dk with
    | Some c => (Some c, _guess_config_from_model c dk, None)
    | None =>
      if is_set voice && negb (str_contains_char sep (text_of voice))
      then (None, None, voice)
      else (None, None, Some default_alias)
    end.

(** [PiperTTS.__init__]: the mixer and the download of a voice leave no
    trace in what is modelled. *)
Definition new_piper (voice : option string) (dk : disk) : pyresult PiperTTS :=
  path ← _find_piper dk;
  let '(model, config, alias) := _resolve_model_paths voice dk in
  if negb (is_set model) && negb (is_set alias)
  then Ok (Piper path model config (Some default_alias))
  else Ok (Piper path model config alias).

(** The command line of a synthesis; without a model and without an alias
    the list is not one of texts and the run raises. *)
Definition piper_command (tts : PiperTTS) (temp_path : string) : option (list string) :=
  if is_set (model_path tts) then
    Some ([piper_path tts; "--model"; text_of (model_path tts)]
          ++ (if is_set (config_path tts) then ["--config"; text_of (config_path tts)]
              else [])
          ++ ["--output_file"; temp_path])%list
  else
    match alias tts with
    | Some a => Some [piper_path tts; "--model"; a; "--output_file"; temp_path]
    | None => None
    end.

(** The run of the synthesiser: the outcome, and the disk with the output
    file as the run leaves it. *)
Definition run_piper (tts : PiperTTS) (text temp_path : string) (dk : disk)
  : run_outcome * disk :=
  match piper_command tts temp_path with
  | Some cmd =>
    let '(outcome, out) := run cmd text in
    (outcome,
     match out with
     | Some content => <[temp_path := File content]> dk
     | None => delete temp_path dk
     end)
  | None =>
    (RunError (TypeError "expected str, bytes or os.PathLike object, not NoneType"), dk)
  end.

(** [PiperTTS.synthesize_to_file]; [temp_path] is the name
    [tempfile.NamedTemporaryFile] picks for the new, empty file. *)
Definition synthesize_to_file (tts : PiperTTS) (text temp_path : string) (dk : disk)
  : option string * disk :=
  match strip text with
  | EmptyString => (None, dk)
  | _ =>
    let dk := <[temp_path := File ""]> dk in
    let '(outcome, dk) := run_piper tts text temp_path dk in
    match outcome with
    | Completed returncode _ =>
      if negb (returncode =? 0)%Z then (None, unlink_quietly temp_path dk)
      else if path_exists temp_path dk && (0 <? getsize temp_path dk)%nat
      then (Some temp_path, dk)
      else (None, unlink_quietly temp_path dk)
    | _ => (None, dk)
    end
  end.

(** The startup hook [_init_tts] of the server: the synthesiser, or [None]
    when its construction raised. *)
Definition _init_tts (dk : disk) : option PiperTTS :=
  let bundled := path_join module_dir "en_US-amy-medium.onnx" in
  let model :=
    if isfile bundled dk then Some bundled
    else
      let alt := path_join (path_join module_dir "voices") "en_US-amy-medium.onnx" in
      if isfile alt dk then Some alt else None in
  let voice := if is_set model then model else Some default_alias in
  match new_piper voice dk with
  | Ok tts => Some tts
  | Raise _ => None
  end.

(** The generator [_iterfile] run to its end: the bytes of the file
    ([None] if it could not be opened), and the file removed either way. *)
Definition stream_file (path : string) (dk : disk) : option string * disk :=
  (match dk !! path with
   | Some (File content) => Some content
   | _ => None
   end,
   unlink_quietly path dk).

(** [GET /tts?text=...], the response streamed to its end. *)
Definition tts_endpoint (piper_tts : option PiperTTS) (text temp_path : string) (dk : disk)
  : tts_response * disk :=
  match text, strip text with
  | EmptyString, _ | _, EmptyString => (TtsRefused 400 "text is required", dk)
  | _, _ =>
    match piper_tts with
    | None => (TtsRefused 503 "Piper TTS not available on server", dk)
    | Some tts =>
      let '(path, dk) := synthesize_to_file tts text temp_path dk in
      if is_set path then
        let '(body, dk) := stream_file (text_of path) dk in
        (match body with
         | Some bytes => TtsAudio bytes
         | None => TtsBroken
         end, dk)
      else (TtsRefused 500 "Failed to synthesize", dk)
    end
  end.

End Speech.

(** ** Sample data for the further properties *)

(** A process whose completion client answers with blanks. *)
Definition blank_env : Env := {|
  module_dir := "/srv/app";
  DEFAULT_JOB_DESCRIPTION := "Software Engineer focusing on backend Python services.";
  DEFAULT_EXPERIENCE_REQUIRED := "3";
  DEFAULT_CANDIDATE_NAME := "Candidate";
  client := fun _ _ => Reply (Some "   ")
|}.

(** A host with the executable on the search path, no variable set, no
    listing, and a synthesiser that writes four bytes. *)
Definition sample_host : Host := {|
  getenv := fun _ => None;
  getcwd := "/srv/app";
  expanduser := fun p => match p with
                         | String "~" r => "/home/bot" +:+ r
                         | _ => p
                         end;
  probe := fun command => if String.eqb command "piper" then Probed else ProbeNotFound;
  glob := fun _ => [];
  run := fun _ _ => (Completed 0 "", Some "RIFF")
|}.

(** The same host with a synthesiser that is timed out after two bytes. *)
Definition slow_host : Host := {|
  getenv := fun _ => None;
  getcwd := "/srv/app";
  expanduser := fun p => p;
  probe := fun command => if String.eqb command "piper" then Probed else ProbeNotFound;
  glob := fun _ => [];
  run := fun _ _ => (TimeoutExpired, Some "RI")
|}.

(** A disk with the bundled model and its configuration. *)
Definition sample_disk : disk :=
  <["/srv/app/en_US-amy-medium.onnx" := File "model"]>
    (<["/srv/app/en_US-amy-medium.onnx.json" := File "{}"]> ∅).

Definition sample_piper : PiperTTS :=
  Piper "piper" (Some "/srv/app/en_US-amy-medium.onnx")
        (Some "/srv/app/en_US-amy-medium.onnx.json") None.

(** The session of Ada after twenty-nine turns, the store having been
    emptied by another process in the meantime. *)
Definition orphaned_sample : session * world :=
  match serve (env := sample_env) (receive_all (sample_texts 29))
              (fst opened_sample) (snd opened_sample) with
  | (Serving s, w) => (s, set_files ∅ w)
  | _ => (no_session, fresh_world)
  end.

(** A world whose store holds [sample_store] and where the session of a
    second candidate is about to be opened. *)
Definition second_events : list (event * string) :=
  [(Recv "Hello.", "T1"); (Recv "", "T2"); (Recv "I write Rocq.", "T3"); (Disconnect, "T4")].

(** The record of [sample_store] and its transcript. *)
Definition sample_record : list (string * json) :=
  match sample_store with
  | (_, JDict r) :: _ => r
  | _ => []
  end.

Definition sample_transcript : string :=
  flatten_transcript [LogEntry "assistant" (greeting_for "Ada");
                      LogEntry "user" "I build APIs."].

(** The answer [score_answer (JInt 9)] once decoded. *)
Definition sample_answer : json :=
  JDict [("overall", JDict [("value", JInt 9); ("scale", JInt 10)]);
         ("communication", JDict [("value", JInt 8); ("scale", JInt 10)]);
         ("relevance", JDict [("value", JInt 7); ("scale", JInt 10)]);
         ("technical", JDict [("value", JInt 6); ("scale", JInt 10)]);
         ("confidence", JDict [("value", JInt 7); ("scale", JInt 10)]);
         ("next_steps", JList [JStr "Schedule a system design round."])].

(** * Properties *)

(** ** Text *)

Lemma str_app_cons (x : ascii) (a b : string) : String x a +:+ b = String x (a +:+ b).
Proof. reflexivity. Qed.

Lemma str_app_nil_l (b : string) : "" +:+ b = b.
Proof. reflexivity. Qed.

Lemma str_app_assoc (a b c : string) : (a +:+ b) +:+ c = a +:+ (b +:+ c).
Proof.
  induction a as [|x a IH]; [reflexivity |].
  rewrite !str_app_cons, IH. reflexivity.
Qed.

Lemma str_app_nil_r (a : string) : a +:+ "" = a.
Proof.
  induction a as [|x a IH]; [reflexivity |].
  rewrite str_app_cons, IH. reflexivity.
Qed.

Lemma str_length_app (a b : string) :
  String.length (a +:+ b) = String.length a + String.length b.
Proof.
  induction a as [|x a IH]; [reflexivity |].
  rewrite str_app_cons. simpl. rewrite IH. reflexivity.
Qed.

Lemma rev_onto_app (a b acc : string) :
  rev_onto (a +:+ b) acc = rev_onto b (rev_onto a acc).
Proof.
  revert acc. induction a as [|x a IH]; intros acc; [reflexivity |].
  rewrite str_app_cons. simpl. apply IH.
Qed.

Lemma rev_onto_acc (a acc : string) : rev_onto a acc = rev_onto a "" +:+ acc.
Proof.
  revert acc. induction a as [|x a IH]; intros acc; simpl; [reflexivity |].
  rewrite IH, (IH (String x "")), str_app_assoc. reflexivity.
Qed.

Lemma str_rev_involutive (a : string) : str_rev (str_rev a) = a.
Proof.
  unfold str_rev.
  assert (H : forall s acc, rev_onto (rev_onto s acc) "" = rev_onto acc s).
  { induction s as [|x s IH]; intros acc; simpl.
    - clear. revert acc. 
      assert (G : forall acc t, rev_onto acc t = rev_onto acc "" +:+ t)
        by (intros; apply rev_onto_acc).
      intros acc. symmetry. rewrite G, str_app_nil_r. reflexivity.
    - rewrite IH. reflexivity. }
  rewrite H. reflexivity.
Qed.

(** ** The decoder on what the encoder writes: strings *)

Lemma scanstring_escape_char (c : ascii) (t : string) :
  py_scanstring (escape_char c +:+ t) = prepend (String c "") (py_scanstring t).
Proof.
  destruct c as [[] [] [] [] [] [] [] []]; reflexivity.
Qed.

Lemma prepend_some (p s rest : string) :
  prepend p (Some (s, rest)) = Some (p +:+ s, rest).
Proof. reflexivity. Qed.

Lemma scanstring_escape_body (s rest : string) :
  py_scanstring (escape_body s +:+ String dquote rest) = Some (s, rest).
Proof.
  induction s as [|c s IH].
  - reflexivity.
  - cbn [escape_body]. rewrite str_app_assoc, scanstring_escape_char, IH. reflexivity.
Qed.

(** ** The decoder on what the encoder writes: numbers *)

Lemma ends_number_no_digit (rest : string) :
  ends_number rest = true -> no_digit_ahead rest = true.
Proof.
  destruct rest as [|c r]; [reflexivity |]. simpl.
  destruct (is_ascii_digit c); simpl; [discriminate | reflexivity].
Qed.

Lemma span_digits_app (d rest : string) :
  all_digits d = true -> no_digit_ahead rest = true ->
  span_digits (d +:+ rest) = (d, rest).
Proof.
  intros Hd Hr. induction d as [|c d IH].
  - rewrite str_app_nil_l. destruct rest as [|c r]; [reflexivity |].
    simpl in *. destruct (is_ascii_digit c); [discriminate | reflexivity].
  - simpl in Hd. apply andb_prop in Hd as [Hc Hd].
    rewrite str_app_cons. simpl. rewrite Hc, (IH Hd). reflexivity.
Qed.

Lemma span_digits_spec (s d r : string) :
  span_digits s = (d, r) ->
  s = d +:+ r /\ all_digits d = true /\ no_digit_ahead r = true.
Proof.
  revert d r. induction s as [|c s IH]; intros d r H; simpl in H.
  - inversion H; subst. auto.
  - destruct (is_ascii_digit c) eqn:Hc.
    + destruct (span_digits s) as [d' r'] eqn:Hs. inversion H; subst.
      destruct (IH _ _ eq_refl) as (-> & Hd & Hr).
      rewrite str_app_cons. simpl. rewrite Hc, Hd. auto.
    + inversion H; subst. rewrite str_app_nil_l. simpl. rewrite Hc. auto.
Qed.

Lemma string_of_uint_digits (d : uint) :
  all_digits (NilEmpty.string_of_uint d) = true.
Proof. induction d; simpl; auto. Qed.

Lemma match_frac_end (rest : string) :
  ends_number rest = true -> match_frac rest = ("", rest).
Proof.
  destruct rest as [|c r]; [reflexivity |]. simpl. unfold match_frac.
  destruct (Ascii.eqb c "."); [|reflexivity].
  rewrite orb_true_r. discriminate.
Qed.

Lemma match_exp_end (rest : string) :
  ends_number rest = true -> match_exp rest = ("", rest).
Proof.
  destruct rest as [|c r]; [reflexivity |]. simpl. unfold match_exp.
  destruct (Ascii.eqb c "e"), (Ascii.eqb c "E"); simpl; try reflexivity;
    rewrite ?orb_true_r; discriminate.
Qed.

Lemma uint_leading_digit (p : positive) :
  exists c r, NilEmpty.string_of_uint (Pos.to_uint p) = String c r
              /\ is_ascii_digit c = true /\ Ascii.eqb c "0" = false.
Proof.
  pose proof (Unsigned.to_uint_nonzero p) as Hnz.
  pose proof (Unsigned.to_uint_nonnil p) as Hnn.
  assert (Hn : unorm (Pos.to_uint p) = Pos.to_uint p).
  { rewrite <- (DecimalN.Unsigned.to_of (Pos.to_uint p)).
    change (N.of_uint (Pos.to_uint p)) with (Pos.of_uint (Pos.to_uint p)).
    rewrite Unsigned.of_to. reflexivity. }
  destruct (Pos.to_uint p) as [|u|u|u|u|u|u|u|u|u|u] eqn:E; try congruence;
    try (eexists _, _; split; [reflexivity | split; reflexivity]).
  exfalso. rewrite unorm_D0 in Hn.
  assert (G : forall v, unorm v <> D0 (D0 v) /\ forall w, unorm v = D0 w -> w = Nil).
  { clear. induction v; simpl; try (split; [discriminate | intros w Hw; discriminate]).
    - split; [discriminate | intros w Hw; inversion Hw; reflexivity].
    - destruct IHv as [IH1 IH2]. split.
      + intros Hv. apply IH2 in Hv. discriminate.
      + apply IH2. }
  destruct (G u) as [_ G2]. specialize (G2 _ Hn). subst u. apply Hnz. reflexivity.
Qed.

Lemma string_of_uint_nonnil (d : uint) :
  d <> Nil -> NilZero.string_of_uint d = NilEmpty.string_of_uint d.
Proof. destruct d; [congruence | reflexivity..]. Qed.

Lemma digit_not_minus (c : ascii) : is_ascii_digit c = true -> Ascii.eqb c "-" = false.
Proof. destruct c as [[] [] [] [] [] [] [] []]; vm_compute; congruence. Qed.

Lemma match_int_digits (neg : bool) (p : positive) (rest : string) :
  no_digit_ahead rest = true ->
  match_int ((if neg then "-" else "") +:+ NilEmpty.string_of_uint (Pos.to_uint p) +:+ rest)
  = Some (neg, NilEmpty.string_of_uint (Pos.to_uint p), rest).
Proof.
  intros Hr.
  destruct (uint_leading_digit p) as (c & r & E & Hc & H0).
  pose proof (string_of_uint_digits (Pos.to_uint p)) as Hd.
  pose proof (span_digits_app _ _ Hd Hr) as Hs.
  rewrite E in *. rewrite str_app_cons in Hs.
  destruct neg.
  - rewrite str_app_cons, str_app_nil_l, str_app_cons. unfold match_int.
    change (Ascii.eqb "-" "-") with true. cbv iota beta.
    rewrite H0, Hc, Hs. reflexivity.
  - rewrite str_app_nil_l, str_app_cons. unfold match_int.
    rewrite (digit_not_minus c Hc), H0, Hc, Hs. reflexivity.
Qed.

Lemma match_number_int (z : Z) (rest : string) :
  ends_number rest = true ->
  match_number (str_of_int z +:+ rest) = Some (JInt z, rest).
Proof.
  intros Hr. pose proof (ends_number_no_digit _ Hr) as Hn.
  unfold match_number, str_of_int.
  destruct z as [|p|p]; cbn [Z.to_int NilZero.string_of_int].
  - change (NilZero.string_of_uint zero) with "0".
    rewrite str_app_cons, str_app_nil_l. cbn [match_int Ascii.eqb]. 
    change (match_int (String "0" rest)) with (Some (false, "0", rest)).
    cbv iota beta. rewrite (match_frac_end _ Hr), (match_exp_end _ Hr). reflexivity.
  - rewrite (string_of_uint_nonnil _ (Unsigned.to_uint_nonnil p)).
    pose proof (match_int_digits false p rest Hn) as Hm.
    cbv iota in Hm. rewrite str_app_nil_l in Hm. rewrite Hm.
    rewrite (match_frac_end _ Hr), (match_exp_end _ Hr).
    unfold int_value. rewrite NilEmpty.usu.
    change (Pos (Pos.to_uint p)) with (Z.to_int (Z.pos p)). rewrite DecimalZ.of_to.
    reflexivity.
  - rewrite (string_of_uint_nonnil _ (Unsigned.to_uint_nonnil p)).
    pose proof (match_int_digits true p rest Hn) as Hm.
    cbv iota in Hm. rewrite str_app_cons, str_app_nil_l in Hm. rewrite str_app_cons, Hm.
    rewrite (match_frac_end _ Hr), (match_exp_end _ Hr).
    unfold int_value. rewrite NilEmpty.usu.
    change (Neg (Pos.to_uint p)) with (Z.to_int (Z.neg p)). rewrite DecimalZ.of_to.
    reflexivity.
Qed.

(** *** Floating-point literals: scanning the literal again gives it back *)

Lemma no_digit_ahead_app (a b : string) :
  no_digit_ahead (a +:+ b) = match a with EmptyString => no_digit_ahead b | _ => no_digit_ahead a end.
Proof. destruct a; reflexivity. Qed.

Lemma match_int_spec (s : string) (neg : bool) (d r : string) :
  match_int s = Some (neg, d, r) ->
  forall x, (match d with String c EmptyString => Ascii.eqb c "0" | _ => false end = true
             \/ no_digit_ahead x = true) ->
  match_int (sign_text neg +:+ d +:+ x) = Some (neg, d, x).
Proof.
  unfold match_int. intros H x Hx.
  assert (G : forall s1, 
    match s1 with
    | String c r0 => if Ascii.eqb c "0" then Some (neg, "0", r0)
                     else if is_ascii_digit c then let '(dg, r') := span_digits s1 in Some (neg, dg, r')
                     else None
    | EmptyString => None
    end = Some (neg, d, r) ->
    match d +:+ x with
    | String c r0 => if Ascii.eqb c "0" then Some (neg, "0", r0)
                     else if is_ascii_digit c then let '(dg, r') := span_digits (d +:+ x) in Some (neg, dg, r')
                     else None
    | EmptyString => None
    end = Some (neg, d, x) /\ exists c t, d = String c t /\ is_ascii_digit c = true).
  { intros s1 H1. destruct s1 as [|c r0]; [discriminate |].
    destruct (Ascii.eqb c "0") eqn:E0.
    - inversion H1; subst. split; [reflexivity | eexists _, _; split; reflexivity].
    - destruct (is_ascii_digit c) eqn:Ec; [|discriminate].
      destruct (span_digits (String c r0)) as [dg r'] eqn:Es. inversion H1; subst.
      simpl in Es. rewrite Ec in Es. destruct (span_digits r0) as [d1 r1] eqn:Es1.
      inversion Es; subst. apply span_digits_spec in Es1 as (-> & Hd & Hr).
      split; [| eexists _, _; split; [reflexivity | assumption]].
      rewrite str_app_cons, E0, Ec.
      destruct Hx as [Hx | Hx].
      + destruct d1; [rewrite E0 in Hx |]; discriminate.
      + rewrite <- str_app_cons, span_digits_app; [reflexivity | | assumption].
        simpl. rewrite Ec, Hd. reflexivity. }
  destruct s as [|c0 s0].
  - discriminate.
  - destruct (Ascii.eqb c0 "-") eqn:Em.
    + assert (neg = true) as ->.
      { destruct s0 as [|c r0]; [discriminate |].
        destruct (Ascii.eqb c "0"); [inversion H; reflexivity |].
        destruct (is_ascii_digit c); [|discriminate].
        destruct (span_digits (String c r0)). inversion H; reflexivity. }
      destruct (G s0 H) as [G1 _].
      unfold sign_text. rewrite str_app_cons, str_app_nil_l.
      change (Ascii.eqb "-" "-") with true. cbv iota. exact G1.
    + assert (neg = false) as ->.
      { destruct (Ascii.eqb c0 "0"); [inversion H; reflexivity |].
        destruct (is_ascii_digit c0); [|discriminate].
        destruct (span_digits (String c0 s0)). inversion H; reflexivity. }
      destruct (G (String c0 s0) H) as [G1 (c & t & -> & Hc)].
      unfold sign_text. rewrite str_app_nil_l.
      rewrite str_app_cons in *. rewrite (digit_not_minus c Hc). exact G1.
Qed.

Lemma match_frac_spec (s f r : string) :
  match_frac s = (f, r) ->
  (f = "" /\ r = s) \/
  (exists d, f = String "." d /\ d <> "" /\ all_digits d = true /\ s = f +:+ r).
Proof.
  unfold match_frac. destruct s as [|c s']; [intros H; inversion H; auto |].
  destruct (Ascii.eqb c ".") eqn:Ec; [| intros H; inversion H; auto].
  apply Ascii.eqb_eq in Ec as ->.
  destruct (span_digits s') as [d r'] eqn:Es.
  apply span_digits_spec in Es as (-> & Hd & Hr).
  destruct d as [|x d]; intros H; inversion H; subst; [auto |].
  right. exists (String x d). repeat split; [discriminate | assumption].
Qed.

Lemma match_frac_again (d x : string) :
  d <> "" -> all_digits d = true -> no_digit_ahead x = true ->
  match_frac (String "." d +:+ x) = (String "." d, x).
Proof.
  intros Hne Hd Hx. rewrite str_app_cons. unfold match_frac.
  change (Ascii.eqb "." ".") with true. cbv iota.
  rewrite (span_digits_app _ _ Hd Hx). destruct d; [congruence | reflexivity].
Qed.

Lemma match_frac_skip (s : string) :
  match s with String c _ => Ascii.eqb c "." | EmptyString => false end = false ->
  match_frac s = ("", s).
Proof. unfold match_frac. destruct s as [|c s']; [reflexivity |]. intros ->. reflexivity. Qed.

Lemma match_exp_spec (s e r : string) :
  match_exp s = (e, r) -> (e = "" /\ r = s) \/ exp_shape e.
Proof.
  unfold match_exp. destruct s as [|c s']; [intros H; inversion H; auto |].
  destruct (Ascii.eqb c "e" || Ascii.eqb c "E") eqn:Ec; [| intros H; inversion H; auto].
  destruct s' as [|c1 r'].
  - simpl. intros H; inversion H; auto.
  - destruct (Ascii.eqb c1 "+" || Ascii.eqb c1 "-") eqn:Es.
    + destruct (span_digits r') as [d r2] eqn:Ed.
      apply span_digits_spec in Ed as (-> & Hd & Hr).
      destruct d as [|x d]; intros H; inversion H; subst; [auto |].
      right. exists c, (String c1 ""), (String x d).
      repeat split; try assumption; try discriminate.
      apply orb_prop in Es as [Es | Es]; apply Ascii.eqb_eq in Es as ->; auto.
    + destruct (span_digits (String c1 r')) as [d r2] eqn:Ed.
      apply span_digits_spec in Ed as (Ed & Hd & Hr).
      destruct d as [|x d]; intros H; inversion H; subst; [auto |].
      right. exists c, "", (String x d).
      repeat split; try assumption; try discriminate; auto.
Qed.

Lemma digit_not_sign (c : ascii) :
  is_ascii_digit c = true -> (Ascii.eqb c "+" || Ascii.eqb c "-") = false.
Proof. destruct c as [[] [] [] [] [] [] [] []]; vm_compute; congruence. Qed.

Lemma match_exp_again (e x : string) :
  exp_shape e -> no_digit_ahead x = true -> match_exp (e +:+ x) = (e, x).
Proof.
  intros (c & sg & d & -> & Hc & Hsg & Hne & Hd) Hx.
  rewrite str_app_cons, str_app_assoc. unfold match_exp. rewrite Hc.
  destruct d as [|y d]; [congruence |].
  pose proof (span_digits_app _ _ Hd Hx) as Hs.
  destruct Hsg as [-> | [-> | ->]].
  - rewrite str_app_nil_l, str_app_nil_l.
    simpl in Hd. apply andb_prop in Hd as [Hy Hd].
    rewrite str_app_cons. rewrite (digit_not_sign y Hy).
    rewrite <- str_app_cons, Hs. reflexivity.
  - rewrite !str_app_cons, !str_app_nil_l. change (Ascii.eqb "+" "+" || Ascii.eqb "+" "-") with true.
    cbv iota. rewrite <- str_app_cons, Hs. reflexivity.
  - rewrite !str_app_cons, !str_app_nil_l. change (Ascii.eqb "-" "+" || Ascii.eqb "-" "-") with true.
    cbv iota. rewrite <- str_app_cons, Hs. reflexivity.
Qed.

Lemma exp_shape_head (e x : string) :
  exp_shape e ->
  no_digit_ahead (e +:+ x) = true /\
  match e +:+ x with String c _ => Ascii.eqb c "." | EmptyString => false end = false.
Proof.
  intros (c & sg & d & -> & Hc & _). rewrite str_app_cons. simpl.
  destruct c as [[] [] [] [] [] [] [] []]; vm_compute in Hc; try discriminate;
    split; reflexivity.
Qed.

Lemma match_number_float_again (s lit r : string) :
  match_number s = Some (JFloat lit, r) ->
  forall x, ends_number x = true -> match_number (lit +:+ x) = Some (JFloat lit, x).
Proof.
  unfold match_number. intros H x Hx.
  pose proof (ends_number_no_digit _ Hx) as Hnx.
  destruct (match_int s) as [[[neg d] r1]|] eqn:Hi; [|discriminate].
  destruct (match_frac r1) as [f r2] eqn:Hf.
  destruct (match_exp r2) as [e r3] eqn:He.
  apply match_frac_spec in Hf. apply match_exp_spec in He.
  assert (Hlit : lit = sign_text neg +:+ d +:+ f +:+ e /\ (f <> "" \/ e <> "")).
  { destruct f, e; inversion H; subst; split; auto; right + left; discriminate. }
  destruct Hlit as [-> Hfe]. clear H.
  rewrite !str_app_assoc.
  assert (Hhead : no_digit_ahead (f +:+ e +:+ x) = true).
  { destruct Hf as [[-> _] | (dd & -> & _)]; [| reflexivity].
    rewrite str_app_nil_l.
    destruct He as [[-> _] | He]; [destruct Hfe; congruence |].
    apply (exp_shape_head e x He). }
  rewrite (match_int_spec _ _ _ _ Hi _ (or_intror Hhead)).
  assert (Hfrac : match_frac (f +:+ e +:+ x) = (f, e +:+ x)).
  { destruct Hf as [[-> _] | (dd & -> & Hne & Hdd & _)].
    - rewrite str_app_nil_l. apply match_frac_skip.
      destruct He as [[-> _] | He]; [destruct Hfe; congruence |].
      apply (exp_shape_head e x He).
    - apply match_frac_again; [assumption..|].
      destruct He as [[-> _] | He]; [assumption | apply (exp_shape_head e x He)]. }
  rewrite Hfrac.
  assert (Hexp : match_exp (e +:+ x) = (e, x)).
  { destruct He as [[-> _] | He].
    - rewrite str_app_nil_l. apply match_exp_end. assumption.
    - apply match_exp_again; assumption. }
  rewrite Hexp.
  destruct f, e; try reflexivity. destruct Hfe; congruence.
Qed.

(** ** Induction on values *)

Lemma json_nested_ind (P : json -> Prop) :
  P JNull -> (forall b, P (JBool b)) -> (forall z, P (JInt z)) ->
  (forall lit, P (JFloat lit)) -> (forall s, P (JStr s)) ->
  (forall l, Forall P l -> P (JList l)) ->
  (forall m, Forall (fun kv => P kv.2) m -> P (JDict m)) ->
  forall v, P v.
Proof.
  intros HN HB HI HF HS HL HD. fix IH 1.
  intros [ | b | z | lit | s | l | m].
  - exact HN.
  - apply HB.
  - apply HI.
  - apply HF.
  - apply HS.
  - apply HL. induction l as [|x l IHl]; constructor; [apply IH | exact IHl].
  - apply HD. induction m as [|[k x] m IHm]; constructor; [apply IH | exact IHm].
Qed.

(** ** Dictionaries *)

Lemma dict_get_set_eq (k : string) (v : json) (m : list (string * json)) :
  dict_get k (dict_set k v m) = Some v.
Proof.
  induction m as [|[k' v'] m IH]; simpl.
  - rewrite String.eqb_refl. reflexivity.
  - destruct (String.eqb k k') eqn:E; simpl.
    + rewrite String.eqb_refl. reflexivity.
    + rewrite E. exact IH.
Qed.

Lemma dict_get_set_ne (k k' : string) (v : json) (m : list (string * json)) :
  k <> k' -> dict_get k' (dict_set k v m) = dict_get k' m.
Proof.
  intros Hne. induction m as [|[k0 v0] m IH]; simpl.
  - destruct (String.eqb_spec k' k); [congruence | reflexivity].
  - destruct (String.eqb_spec k k0) as [-> | Hk]; simpl.
    + destruct (String.eqb_spec k' k0); [congruence | reflexivity].
    + destruct (String.eqb_spec k' k0); [reflexivity | exact IH].
Qed.

Lemma existsb_eqb_false_get (k : string) (m : list (string * json)) :
  existsb (String.eqb k) (map fst m) = false -> dict_get k m = None.
Proof.
  induction m as [|[k' v'] m IH]; simpl; [reflexivity |].
  intros H. apply orb_false_elim in H as [H1 H2]. rewrite H1. auto.
Qed.

Lemma dict_set_fresh (k : string) (v : json) (m : list (string * json)) :
  existsb (String.eqb k) (map fst m) = false -> dict_set k v m = (m ++ [(k, v)])%list.
Proof.
  induction m as [|[k' v'] m IH]; simpl; [reflexivity |].
  intros H. apply orb_false_elim in H as [H1 H2]. rewrite H1, (IH H2). reflexivity.
Qed.

Lemma keys_dict_set (k : string) (v : json) (m : list (string * json)) :
  map fst (dict_set k v m) =
  if existsb (String.eqb k) (map fst m) then map fst m else (map fst m ++ [k])%list.
Proof.
  induction m as [|[k' v'] m IH]; simpl; [reflexivity |].
  destruct (String.eqb_spec k k') as [-> | Hk]; simpl; [reflexivity |].
  rewrite IH. destruct (existsb (String.eqb k) (map fst m)); reflexivity.
Qed.

Lemma existsb_eqb_app (k : string) (a b : list string) :
  existsb (String.eqb k) (a ++ b)%list = existsb (String.eqb k) a || existsb (String.eqb k) b.
Proof. apply existsb_app. Qed.

Lemma keys_distinct_snoc (ks : list string) (k : string) :
  keys_distinct ks = true -> existsb (String.eqb k) ks = false ->
  keys_distinct (ks ++ [k])%list = true.
Proof.
  induction ks as [|k0 ks IH]; simpl; [reflexivity |].
  intros H Hk. apply andb_prop in H as [H1 H2]. apply orb_false_elim in Hk as [Hk1 Hk2].
  rewrite existsb_eqb_app. simpl. rewrite orb_false_r.
  rewrite String.eqb_sym in Hk1. rewrite Hk1, orb_false_r, H1. simpl. auto.
Qed.

Lemma keys_distinct_set (k : string) (v : json) (m : list (string * json)) :
  keys_distinct (map fst m) = true -> keys_distinct (map fst (dict_set k v m)) = true.
Proof.
  intros H. rewrite keys_dict_set.
  destruct (existsb (String.eqb k) (map fst m)) eqn:E; [exact H |].
  apply keys_distinct_snoc; assumption.
Qed.

Lemma forallb_dict_set (P : json -> bool) (k : string) (v : json) (m : list (string * json)) :
  P v = true -> forallb (fun kv => P kv.2) m = true ->
  forallb (fun kv => P kv.2) (dict_set k v m) = true.
Proof.
  intros Hv. induction m as [|[k' v'] m IH]; simpl.
  - rewrite Hv. reflexivity.
  - intros H. apply andb_prop in H as [H1 H2].
    destruct (String.eqb k k'); simpl; [rewrite Hv | rewrite H1]; auto.
Qed.

Lemma keys_distinct_update (m upd : list (string * json)) :
  keys_distinct (map fst m) = true -> keys_distinct (map fst (dict_update m upd)) = true.
Proof.
  unfold dict_update. revert m. induction upd as [|[k v] upd IH]; intros m H; simpl.
  - exact H.
  - apply IH. apply keys_distinct_set. exact H.
Qed.

Lemma forallb_dict_update (P : json -> bool) (m upd : list (string * json)) :
  forallb (fun kv => P kv.2) m = true -> forallb (fun kv => P kv.2) upd = true ->
  forallb (fun kv => P kv.2) (dict_update m upd) = true.
Proof.
  unfold dict_update. revert m. induction upd as [|[k v] upd IH]; intros m Hm Hu; simpl.
  - exact Hm.
  - simpl in Hu. apply andb_prop in Hu as [Hv Hu].
    apply IH; [apply forallb_dict_set; assumption | exact Hu].
Qed.

Lemma dict_update_distinct (acc m : list (string * json)) :
  keys_distinct (map fst (acc ++ m)%list) = true -> dict_update acc m = (acc ++ m)%list.
Proof.
  unfold dict_update. revert acc. induction m as [|[k v] m IH]; intros acc H; simpl.
  - rewrite app_nil_r. reflexivity.
  - assert (Hk : existsb (String.eqb k) (map fst acc) = false).
    { clear IH. induction acc as [|[k0 v0] acc IHa]; [reflexivity |].
      simpl in H. apply andb_prop in H as [H1 H2]. simpl.
      rewrite map_app, existsb_eqb_app in H1. simpl in H1.
      apply negb_true_iff in H1. apply orb_false_elim in H1 as [_ H1].
      apply orb_false_elim in H1 as [H1 _]. rewrite String.eqb_sym, H1. simpl.
      apply IHa. exact H2. }
    rewrite (dict_set_fresh _ _ _ Hk). rewrite IH.
    + rewrite <- app_assoc. reflexivity.
    + rewrite <- app_assoc. exact H.
Qed.

Lemma dict_of_pairs_distinct (m : list (string * json)) :
  keys_distinct (map fst m) = true -> dict_of_pairs m = m.
Proof. intros H. unfold dict_of_pairs. apply (dict_update_distinct [] m H). Qed.

Lemma canonical_dict_of_pairs (pairs : list (string * json)) :
  forallb (fun kv => canonical kv.2) pairs = true ->
  canonical (JDict (dict_of_pairs pairs)) = true.
Proof.
  intros H. cbn [canonical]. apply andb_true_intro. split.
  - apply keys_distinct_update. reflexivity.
  - apply forallb_dict_update; [reflexivity | exact H].
Qed.

(** ** The decoder on what the encoder writes: values *)

Lemma skip_ws_spaces (n : nat) (t : string) : skip_ws (spaces n +:+ t) = skip_ws t.
Proof.
  induction n as [|n IH]; [reflexivity |].
  change (spaces (S n) +:+ t) with (String " " (spaces n +:+ t)). exact IH.
Qed.

Lemma skip_ws_newline_indent (lvl : nat) (t : string) :
  skip_ws (newline_indent lvl +:+ t) = skip_ws t.
Proof.
  unfold newline_indent. rewrite str_app_cons.
  change (skip_ws (String newline (spaces (2 * lvl) +:+ t)))
    with (skip_ws (spaces (2 * lvl) +:+ t)).
  apply skip_ws_spaces.
Qed.

Lemma skip_ws_head (c : ascii) (r : string) :
  is_json_ws c = false -> skip_ws (String c r) = String c r.
Proof. intros H. simpl. rewrite H. reflexivity. Qed.

Lemma ends_number_newline_indent (lvl : nat) (t : string) :
  ends_number (newline_indent lvl +:+ t) = true.
Proof. reflexivity. Qed.

Lemma number_head_facts (c : ascii) :
  number_head c = true ->
  is_json_ws c = false /\ Ascii.eqb c "]" = false /\ Ascii.eqb c dquote = false
  /\ Ascii.eqb c "{" = false /\ Ascii.eqb c "[" = false
  /\ Ascii.eqb "n" c = false /\ Ascii.eqb "t" c = false /\ Ascii.eqb "f" c = false.
Proof.
  destruct c as [[] [] [] [] [] [] [] []]; vm_compute; intros H;
    try discriminate H; repeat split.
Qed.

Lemma strip_prefix_head (c c' : ascii) (p s : string) :
  Ascii.eqb c c' = false -> strip_prefix (String c p) (String c' s) = None.
Proof. intros H. simpl. rewrite H. reflexivity. Qed.

Lemma scan_once_number (fuel : nat) (c : ascii) (r : string) (res : json * string) :
  number_head c = true ->
  match_number (String c r) = Some res ->
  scan_once (S fuel) (String c r) = Some res.
Proof.
  intros Hc Hm. destruct (number_head_facts c Hc) as (_ & _ & Hq & Hb & Hk & Hn & Ht & Hf).
  cbn [scan_once]. rewrite Hq, Hb, Hk. unfold match_constant.
  rewrite (strip_prefix_head _ _ _ _ Hn), (strip_prefix_head _ _ _ _ Ht),
    (strip_prefix_head _ _ _ _ Hf), Hm.
  reflexivity.
Qed.

Lemma match_int_head (s : string) (res : bool * string * string) :
  match_int s = Some res -> exists c r, s = String c r /\ number_head c = true.
Proof.
  unfold match_int, number_head. destruct s as [|c r]; [discriminate |].
  intros H. exists c, r. split; [reflexivity |].
  destruct (Ascii.eqb c "-") eqn:Em; [apply orb_true_r |].
  destruct (Ascii.eqb c "0") eqn:E0.
  - apply Ascii.eqb_eq in E0 as ->. reflexivity.
  - destruct (is_ascii_digit c); [reflexivity | discriminate].
Qed.

Lemma match_number_head (s : string) (res : json * string) :
  match_number s = Some res -> exists c r, s = String c r /\ number_head c = true.
Proof.
  unfold match_number. destruct (match_int s) as [[[neg d] r1]|] eqn:Hi; [|discriminate].
  intros _. eapply match_int_head. exact Hi.
Qed.

Lemma str_of_int_head (z : Z) :
  exists c r, str_of_int z = String c r /\ number_head c = true.
Proof.
  unfold str_of_int. destruct z as [|p|p]; cbn [Z.to_int NilZero.string_of_int].
  - exists "0"%char, "". split; reflexivity.
  - rewrite (string_of_uint_nonnil _ (Unsigned.to_uint_nonnil p)).
    destruct (uint_leading_digit p) as (c & r & E & Hc & _).
    exists c, r. split; [exact E |]. unfold number_head. rewrite Hc. reflexivity.
  - eexists _, _. split; reflexivity.
Qed.

Lemma scan_once_int (fuel : nat) (z : Z) (rest : string) :
  ends_number rest = true ->
  scan_once (S fuel) (str_of_int z +:+ rest) = Some (JInt z, rest).
Proof.
  intros Hr. pose proof (match_number_int z rest Hr) as Hm.
  destruct (str_of_int_head z) as (c & r & E & Hc).
  rewrite E in *. rewrite str_app_cons in *.
  apply scan_once_number; assumption.
Qed.

Lemma is_float_literal_cases (lit : string) :
  is_float_literal lit = true ->
  match_number lit = Some (JFloat lit, "")
  \/ lit = "NaN" \/ lit = "Infinity" \/ lit = "-Infinity".
Proof.
  unfold is_float_literal.
  assert (G : (String.eqb lit "NaN" || String.eqb lit "Infinity"
               || String.eqb lit "-Infinity") = true ->
              lit = "NaN" \/ lit = "Infinity" \/ lit = "-Infinity").
  { intros H. apply orb_prop in H as [H | H]; [apply orb_prop in H as [H | H] |];
      apply String.eqb_eq in H; auto. }
  destruct (match_number lit) as [[v r]|]; [| intros H; right; auto].
  destruct v; try (intros H; right; auto; fail).
  destruct r; [| intros H; right; auto].
  intros H. apply String.eqb_eq in H as ->. left. reflexivity.
Qed.

Lemma scan_once_float (fuel : nat) (lit rest : string) :
  is_float_literal lit = true -> ends_number rest = true ->
  scan_once (S fuel) (lit +:+ rest) = Some (JFloat lit, rest).
Proof.
  intros Hl Hr. destruct (is_float_literal_cases lit Hl) as [H | [-> | [-> | ->]]];
    try reflexivity.
  pose proof (match_number_float_again _ _ _ H rest Hr) as Hm.
  destruct (match_number_head _ _ H) as (c & r & E & Hc).
  rewrite E in *. rewrite str_app_cons in *.
  apply scan_once_number; assumption.
Qed.

Lemma float_literal_head (lit : string) :
  is_float_literal lit = true ->
  exists c r, lit = String c r /\ is_json_ws c = false /\ Ascii.eqb c "]" = false.
Proof.
  intros Hl. destruct (is_float_literal_cases lit Hl) as [H | [-> | [-> | ->]]];
    try (eexists _, _; repeat split; reflexivity).
  destruct (match_number_head _ _ H) as (c & r & E & Hc).
  destruct (number_head_facts c Hc) as (H1 & H2 & _).
  exists c, r. auto.
Qed.

Lemma encode_head (lvl : nat) (v : json) :
  canonical v = true ->
  exists c r, encode lvl v = String c r /\ is_json_ws c = false /\ Ascii.eqb c "]" = false.
Proof.
  intros Hc. destruct v as [ | [] | z | lit | s | [|x l] | [|kv m]];
    try (eexists _, _; repeat split; reflexivity).
  - destruct (str_of_int_head z) as (c & r & E & Hh).
    destruct (number_head_facts c Hh) as (H1 & H2 & _).
    exists c, r. auto.
  - apply float_literal_head. exact Hc.
Qed.

Lemma skip_ws_encode (lvl : nat) (v : json) (t : string) :
  canonical v = true -> skip_ws (encode lvl v +:+ t) = encode lvl v +:+ t.
Proof.
  intros Hc. destruct (encode_head lvl v Hc) as (c & r & E & Hw & _).
  rewrite E, str_app_cons. apply skip_ws_head. exact Hw.
Qed.

Ltac norm_str := repeat (rewrite ?str_app_assoc, ?str_app_cons, ?str_app_nil_l).

Lemma array_items_S (fuel : nat) (s : string) :
  array_items (S fuel) s =
  match scan_once fuel s with
  | None => None
  | Some (v, r) =>
    match skip_ws r with
    | String c r1 =>
      if Ascii.eqb c "]" then Some ([v], r1)
      else if Ascii.eqb c "," then
        match array_items fuel (skip_ws r1) with
        | Some (vs, r') => Some (v :: vs, r')
        | None => None
        end
      else None
    | EmptyString => None
    end
  end.
Proof. reflexivity. Qed.

Lemma object_members_S (fuel : nat) (s : string) :
  object_members (S fuel) s =
  match py_scanstring s with
  | None => None
  | Some (key, r) =>
    match skip_ws r with
    | String c r1 =>
      if Ascii.eqb c ":" then
        match scan_once fuel (skip_ws r1) with
        | None => None
        | Some (v, r2) =>
          match skip_ws r2 with
          | String c2 r3 =>
            if Ascii.eqb c2 "}" then Some ([(key, v)], r3)
            else if Ascii.eqb c2 "," then
              match skip_ws r3 with
              | String c3 r4 =>
                if Ascii.eqb c3 dquote then
                  match object_members fuel r4 with
                  | Some (kvs, r') => Some ((key, v) :: kvs, r')
                  | None => None
                  end
                else None
              | EmptyString => None
              end
            else None
          | EmptyString => None
          end
        end
      else None
    | EmptyString => None
    end
  end.
Proof. reflexivity. Qed.

Lemma scan_once_array (fuel : nat) (r : string) :
  scan_once (S fuel) (String "[" r) =
  match skip_ws r with
  | String c1 r1 =>
    if Ascii.eqb c1 "]" then Some (JList [], r1)
    else
      match array_items fuel (String c1 r1) with
      | Some (items, r') => Some (JList items, r')
      | None => None
      end
  | EmptyString => None
  end.
Proof. reflexivity. Qed.

Lemma scan_once_object (fuel : nat) (r : string) :
  scan_once (S fuel) (String "{" r) =
  match skip_ws r with
  | String c1 r1 =>
    if Ascii.eqb c1 "}" then Some (JDict [], r1)
    else if Ascii.eqb c1 dquote then
      match object_members fuel r1 with
      | Some (pairs, r') => Some (JDict (dict_of_pairs pairs), r')
      | None => None
      end
    else None
  | EmptyString => None
  end.
Proof. reflexivity. Qed.

Lemma scan_once_string (fuel : nat) (r : string) :
  scan_once (S fuel) (String dquote r) =
  match py_scanstring r with
  | Some (str, r') => Some (JStr str, r')
  | None => None
  end.
Proof. reflexivity. Qed.

Lemma array_items_encode (lvl : nat) (tail : string) (l : list json) :
  Forall reads_back l ->
  forallb canonical l = true ->
  forall x fuel, reads_back x -> canonical x = true ->
  skip_ws tail <> "" ->
  ends_number tail = true ->
  S (jsize x) + list_sum (map (fun y => S (jsize y)) l) <= fuel ->
  (forall c r, skip_ws tail = String c r -> Ascii.eqb c "]" = true) ->
  array_items fuel
    (encode lvl x +:+ join_tail (String "," (newline_indent lvl)) (map (encode lvl) l) +:+ tail)
  = match skip_ws tail with
    | String _ r => Some (x :: l, r)
    | EmptyString => None
    end.
Proof.
  intros HF. induction HF as [|y l Hy HF IH]; intros Hc x fuel Hx Hcx Hne Het Hfuel Htail.
  - destruct fuel as [|fuel]; [simpl in Hfuel; lia |].
    cbn [map join_tail]. norm_str. rewrite array_items_S.
    rewrite (Hx Hcx lvl tail fuel Het) by (simpl in Hfuel; lia).
    destruct (skip_ws tail) as [|c r] eqn:E; [congruence |].
    rewrite (Htail c r eq_refl). reflexivity.
  - destruct fuel as [|fuel]; [simpl in Hfuel; lia |].
    cbn [forallb] in Hc. apply andb_prop in Hc as [Hcy Hcl].
    cbn [map join_tail list_sum] in *. norm_str. rewrite array_items_S.
    rewrite (Hx Hcx lvl _ fuel) by (reflexivity || (simpl in Hfuel; lia)).
    rewrite skip_ws_head by reflexivity.
    change (Ascii.eqb "," "]") with false. change (Ascii.eqb "," ",") with true. cbv iota.
    rewrite skip_ws_newline_indent, skip_ws_encode by assumption.
    rewrite (IH Hcl y fuel Hy Hcy Hne Het) by (assumption || (simpl in Hfuel; lia)).
    destruct (skip_ws tail); reflexivity.
Qed.

Lemma object_members_encode (lvl : nat) (tail : string) (l : list (string * json)) :
  Forall (fun kv => reads_back kv.2) l ->
  forallb (fun kv => canonical kv.2) l = true ->
  forall k v fuel, reads_back v -> canonical v = true ->
  ends_number tail = true ->
  S (jsize v) + list_sum (map (fun kv => S (jsize kv.2)) l) <= fuel ->
  (forall c r, skip_ws tail = String c r -> Ascii.eqb c "}" = true) ->
  object_members fuel
    (escape_body k +:+ String dquote (String ":" (String " "
       (encode lvl v
        +:+ join_tail (String "," (newline_indent lvl))
              (map (fun kv => encode_basestring kv.1 +:+ ": " +:+ encode lvl kv.2) l)
        +:+ tail))))
  = match skip_ws tail with
    | String _ r => Some ((k, v) :: l, r)
    | EmptyString => None
    end.
Proof.
  intros HF. induction HF as [|[k' v'] l Hy HF IH]; intros Hc k v fuel Hv Hcv Het Hfuel Htail.
  - destruct fuel as [|fuel]; [simpl in Hfuel; lia |].
    cbn [map join_tail]. norm_str. rewrite object_members_S, scanstring_escape_body.
    rewrite skip_ws_head by reflexivity.
    change (Ascii.eqb ":" ":") with true. cbv iota.
    change (skip_ws (String " " (encode lvl v +:+ tail))) with (skip_ws (encode lvl v +:+ tail)).
    rewrite skip_ws_encode by assumption.
    rewrite (Hv Hcv lvl tail fuel Het) by (simpl in Hfuel; lia).
    destruct (skip_ws tail) as [|c r] eqn:E; [reflexivity |].
    rewrite (Htail c r eq_refl). reflexivity.
  - destruct fuel as [|fuel]; [simpl in Hfuel; lia |].
    cbn [forallb snd] in Hc. apply andb_prop in Hc as [Hcy Hcl].
    cbn [snd] in Hy.
    cbn [map join_tail fst snd].
    change (encode_basestring k') with (String dquote (escape_body k' +:+ String dquote "")).
    norm_str.
    rewrite object_members_S, scanstring_escape_body.
    rewrite skip_ws_head by reflexivity.
    change (Ascii.eqb ":" ":") with true. cbv iota.
    match goal with
    | |- context [skip_ws (String " " ?t)] =>
      change (skip_ws (String " " t)) with (skip_ws t)
    end.
    rewrite skip_ws_encode by assumption.
    rewrite (Hv Hcv lvl _ fuel) by (reflexivity || (simpl in Hfuel; lia)).
    rewrite skip_ws_head by reflexivity.
    change (Ascii.eqb "," "}") with false. change (Ascii.eqb "," ",") with true. cbv iota.
    rewrite skip_ws_newline_indent, skip_ws_head by reflexivity.
    rewrite Ascii.eqb_refl.
    rewrite (IH Hcl k' v' fuel Hy Hcy Het) by (assumption || (simpl in Hfuel; lia)).
    destruct (skip_ws tail); reflexivity.
Qed.

Lemma list_sum_jsize_length (lvl : nat) (l : list json) :
  Forall (fun v => canonical v = true -> forall lvl, jsize v <= String.length (encode lvl v)) l ->
  forallb canonical l = true ->
  list_sum (map (fun y => S (jsize y)) l)
  <= String.length (join_tail (String "," (newline_indent lvl)) (map (encode lvl) l)).
Proof.
  intros HF. induction HF as [|y l Hy HF IH]; intros Hc; [simpl; lia |].
  cbn [forallb] in Hc. apply andb_prop in Hc as [Hcy Hcl].
  cbn [map join_tail]. simpl list_sum. rewrite !str_length_app.
  specialize (Hy Hcy lvl). specialize (IH Hcl). simpl String.length. lia.
Qed.

Lemma list_sum_members_length (lvl : nat) (l : list (string * json)) :
  Forall (fun kv => canonical kv.2 = true ->
                    forall lvl, jsize kv.2 <= String.length (encode lvl kv.2)) l ->
  forallb (fun kv => canonical kv.2) l = true ->
  list_sum (map (fun kv => S (jsize kv.2)) l)
  <= String.length (join_tail (String "," (newline_indent lvl))
       (map (fun kv => encode_basestring kv.1 +:+ ": " +:+ encode lvl kv.2) l)).
Proof.
  intros HF. induction HF as [|[k y] l Hy HF IH]; intros Hc; [simpl; lia |].
  cbn [forallb snd] in Hc. apply andb_prop in Hc as [Hcy Hcl].
  cbn [map join_tail fst snd]. simpl list_sum. rewrite !str_length_app.
  cbn [snd] in Hy. specialize (Hy Hcy lvl). specialize (IH Hcl). simpl String.length. lia.
Qed.

Lemma jsize_le_length (v : json) :
  canonical v = true -> forall lvl, jsize v <= String.length (encode lvl v).
Proof.
  induction v as [ | b | z | lit | s | l IH | m IH] using json_nested_ind; intros Hc lvl.
  - simpl. lia.
  - destruct b; simpl; lia.
  - destruct (str_of_int_head z) as (c & r & E & _). cbn [encode jsize]. rewrite E. simpl. lia.
  - destruct (float_literal_head lit Hc) as (c & r & E & _). cbn [encode jsize]. rewrite E.
    simpl. lia.
  - simpl. lia.
  - destruct l as [|x l]; [simpl; lia |].
    cbn [canonical forallb] in Hc. apply andb_prop in Hc as [Hcx Hcl].
    inversion IH as [|? ? Hx HF]; subst.
    pose proof (list_sum_jsize_length (S lvl) l HF Hcl) as Hl.
    specialize (Hx Hcx (S lvl)).
    cbn [encode jsize map str_join].
    change ("," +:+ newline_indent (S lvl)) with (String "," (newline_indent (S lvl))).
    simpl list_sum. rewrite !str_length_app. simpl String.length. lia.
  - destruct m as [|[k x] m]; [simpl; lia |].
    cbn [canonical forallb map fst snd] in Hc. apply andb_prop in Hc as [_ Hc].
    apply andb_prop in Hc as [Hcx Hcl].
    inversion IH as [|? ? Hx HF]; subst. cbn [snd] in Hx.
    pose proof (list_sum_members_length (S lvl) m HF Hcl) as Hl.
    specialize (Hx Hcx (S lvl)).
    cbn [encode jsize map str_join fst snd].
    change ("," +:+ newline_indent (S lvl)) with (String "," (newline_indent (S lvl))).
    simpl list_sum. rewrite !str_length_app. simpl String.length. lia.
Qed.

Lemma scan_once_encode (v : json) : reads_back v.
Proof.
  induction v as [ | b | z | lit | s | l IH | m IH] using json_nested_ind;
    intros Hc lvl rest fuel Hr Hfuel;
    (destruct fuel as [|fuel]; [simpl in Hfuel; lia |]).
  - reflexivity.
  - destruct b; reflexivity.
  - cbn [encode]. apply scan_once_int. exact Hr.
  - cbn [encode]. apply scan_once_float; assumption.
  - cbn [encode]. unfold encode_basestring. norm_str.
    rewrite scan_once_string, scanstring_escape_body. reflexivity.
  - destruct l as [|x l]; [reflexivity |].
    cbn [canonical forallb] in Hc. apply andb_prop in Hc as [Hcx Hcl].
    inversion IH as [|? ? Hx HF]; subst.
    cbn [encode map str_join]. norm_str. rewrite scan_once_array.
    rewrite skip_ws_newline_indent, skip_ws_encode by assumption.
    destruct (encode_head (S lvl) x Hcx) as (c & r & E & Hw & Hb).
    pose proof (array_items_encode (S lvl) (newline_indent lvl +:+ String "]" rest)
                  l HF Hcl x fuel Hx Hcx) as Ha.
    rewrite skip_ws_newline_indent, skip_ws_head in Ha by reflexivity.
    rewrite E in *. rewrite str_app_cons in *. rewrite Hb.
    rewrite Ha; [reflexivity | discriminate | reflexivity | | ].
    + simpl in Hfuel. lia.
    + intros c' r' Heq. inversion Heq. reflexivity.
  - destruct m as [|[k x] m]; [reflexivity |].
    pose proof Hc as Hcan.
    cbn [canonical forallb map fst snd] in Hc. apply andb_prop in Hc as [Hkeys Hc].
    apply andb_prop in Hc as [Hcx Hcl].
    inversion IH as [|? ? Hx HF]; subst. cbn [snd] in Hx.
    cbn [encode map str_join fst snd].
    change (encode_basestring k) with (String dquote (escape_body k +:+ String dquote "")).
    norm_str.
    rewrite scan_once_object.
    rewrite skip_ws_newline_indent, skip_ws_head by reflexivity.
    change (Ascii.eqb dquote "}") with false. rewrite Ascii.eqb_refl. cbv iota.
    pose proof (object_members_encode (S lvl) (newline_indent lvl +:+ String "}" rest)
                  m HF Hcl k x fuel Hx Hcx) as Ha.
    rewrite skip_ws_newline_indent, skip_ws_head in Ha by reflexivity.
    rewrite Ha; [ | reflexivity | | ].
    + rewrite dict_of_pairs_distinct; [reflexivity |]. exact Hkeys.
    + simpl in Hfuel. lia.
    + intros c' r' Heq. inversion Heq. reflexivity.
Qed.

(** [json.loads(json.dumps(v))] is [v]. *)
Lemma json_loads_dumps (v : json) :
  canonical v = true -> json_loads (json_dumps v) = Some v.
Proof.
  intros Hc. unfold json_loads, json_dumps.
  pose proof (skip_ws_encode 0 v "" Hc) as Hs. rewrite str_app_nil_r in Hs. rewrite Hs.
  pose proof (scan_once_encode v Hc 0 "" (S (String.length (encode 0 v))) eq_refl) as H.
  rewrite str_app_nil_r in H. rewrite H; [reflexivity |].
  pose proof (jsize_le_length v Hc 0). lia.
Qed.

(** ** What the decoder produces is canonical *)

Lemma match_number_shape (s : string) (v : json) (r : string) :
  match_number s = Some (v, r) -> (exists z, v = JInt z) \/ (exists lit, v = JFloat lit).
Proof.
  unfold match_number. destruct (match_int s) as [[[neg d] r1]|]; [|discriminate].
  destruct (match_frac r1) as [f r2]. destruct (match_exp r2) as [e r3].
  destruct f, e; intros H; inversion H; eauto.
Qed.

Lemma match_number_canonical (s : string) (v : json) (r : string) :
  match_number s = Some (v, r) -> canonical v = true.
Proof.
  intros H. destruct (match_number_shape _ _ _ H) as [[z ->] | [lit ->]]; [reflexivity |].
  pose proof (match_number_float_again _ _ _ H "" eq_refl) as Hm.
  rewrite str_app_nil_r in Hm. cbn [canonical]. unfold is_float_literal.
  rewrite Hm. apply String.eqb_refl.
Qed.

Lemma match_constant_canonical (s : string) (v : json) (r : string) :
  match_constant s = Some (v, r) -> canonical v = true.
Proof.
  unfold match_constant.
  destruct (strip_prefix "null" s); [intros H; inversion H; reflexivity |].
  destruct (strip_prefix "true" s); [intros H; inversion H; reflexivity |].
  destruct (strip_prefix "false" s); [intros H; inversion H; reflexivity |].
  destruct (match_number s) as [[v' r']|] eqn:Hm.
  { intros H; inversion H; subst. eapply match_number_canonical; eassumption. }
  destruct (strip_prefix "NaN" s); [intros H; inversion H; reflexivity |].
  destruct (strip_prefix "Infinity" s); [intros H; inversion H; reflexivity |].
  destruct (strip_prefix "-Infinity" s); [intros H; inversion H; reflexivity |].
  discriminate.
Qed.

Lemma scan_canonical (fuel : nat) :
  (forall s v r, scan_once fuel s = Some (v, r) -> canonical v = true)
  /\ (forall s l r, array_items fuel s = Some (l, r) -> forallb canonical l = true)
  /\ (forall s m r, object_members fuel s = Some (m, r) ->
                    forallb (fun kv => canonical kv.2) m = true).
Proof.
  induction fuel as [|fuel (IH1 & IH2 & IH3)]; [repeat split; discriminate |].
  repeat split.
  - intros s v r. destruct s as [|c s']; [discriminate |].
    cbn [scan_once].
    destruct (Ascii.eqb c dquote).
    { destruct (py_scanstring s') as [[str r']|]; intros H; inversion H; reflexivity. }
    destruct (Ascii.eqb c "{").
    { destruct (skip_ws s') as [|c1 r1]; [discriminate |].
      destruct (Ascii.eqb c1 "}"); [intros H; inversion H; reflexivity |].
      destruct (Ascii.eqb c1 dquote); [|discriminate].
      destruct (object_members fuel r1) as [[pairs r']|] eqn:Ho; [|discriminate].
      intros H; inversion H; subst. apply canonical_dict_of_pairs. eapply IH3. exact Ho. }
    destruct (Ascii.eqb c "[").
    { destruct (skip_ws s') as [|c1 r1]; [discriminate |].
      destruct (Ascii.eqb c1 "]"); [intros H; inversion H; reflexivity |].
      destruct (array_items fuel (String c1 r1)) as [[items r']|] eqn:Ha; [|discriminate].
      intros H; inversion H; subst. cbn [canonical]. eapply IH2. exact Ha. }
    apply match_constant_canonical.
  - intros s l r. rewrite array_items_S.
    destruct (scan_once fuel s) as [[v r0]|] eqn:Hs; [|discriminate].
    destruct (skip_ws r0) as [|c r1]; [discriminate |].
    destruct (Ascii.eqb c "]").
    { intros H; inversion H; subst. cbn [forallb]. rewrite (IH1 _ _ _ Hs). reflexivity. }
    destruct (Ascii.eqb c ","); [|discriminate].
    destruct (array_items fuel (skip_ws r1)) as [[vs r']|] eqn:Ha; [|discriminate].
    intros H; inversion H; subst. cbn [forallb].
    rewrite (IH1 _ _ _ Hs), (IH2 _ _ _ Ha). reflexivity.
  - intros s m r. rewrite object_members_S.
    destruct (py_scanstring s) as [[key r0]|]; [|discriminate].
    destruct (skip_ws r0) as [|c r1]; [discriminate |].
    destruct (Ascii.eqb c ":"); [|discriminate].
    destruct (scan_once fuel (skip_ws r1)) as [[v r2]|] eqn:Hs; [|discriminate].
    destruct (skip_ws r2) as [|c2 r3]; [discriminate |].
    destruct (Ascii.eqb c2 "}").
    { intros H; inversion H; subst. cbn [forallb snd]. rewrite (IH1 _ _ _ Hs). reflexivity. }
    destruct (Ascii.eqb c2 ","); [|discriminate].
    destruct (skip_ws r3) as [|c3 r4]; [discriminate |].
    destruct (Ascii.eqb c3 dquote); [|discriminate].
    destruct (object_members fuel r4) as [[kvs r']|] eqn:Ho; [|discriminate].
    intros H; inversion H; subst. cbn [forallb snd].
    rewrite (IH1 _ _ _ Hs), (IH3 _ _ _ Ho). reflexivity.
Qed.

Lemma json_loads_canonical (s : string) (v : json) :
  json_loads s = Some v -> canonical v = true.
Proof.
  unfold json_loads.
  destruct (scan_once (S (String.length s)) (skip_ws s)) as [[v' r]|] eqn:Hs; [|discriminate].
  destruct (skip_ws r); [|discriminate].
  intros H; inversion H; subst. eapply (scan_canonical _). exact Hs.
Qed.


(** ** Stripping what the encoder writes for a [dict] *)

Lemma str_rev_snoc (a : string) (c : ascii) :
  str_rev (a +:+ String c "") = String c (str_rev a).
Proof. unfold str_rev. rewrite rev_onto_app. reflexivity. Qed.

Lemma lstrip_brace (r : string) : lstrip (String "{" r) = String "{" r.
Proof. destruct r as [|c1 [|c2 r2]]; reflexivity. Qed.

Lemma lstrip_rev_brace (r : string) : lstrip_rev (String "}" r) = String "}" r.
Proof.
  destruct r as [|c1 [|c2 r2]]; [reflexivity | |].
  - cbn [lstrip_rev]. change (is_py_space "}") with false. cbv iota zeta.
    change (N_of_ascii "}") with 125%N.
    change (N.eqb 125 133) with false. change (N.eqb 125 160) with false.
    cbn [orb]. rewrite andb_false_r. reflexivity.
  - cbn [lstrip_rev]. change (is_py_space "}") with false. cbv iota zeta.
    change (N_of_ascii "}") with 125%N.
    change (N.eqb 125 133) with false. change (N.eqb 125 160) with false.
    change (N.eqb 125 128) with false. change (N.eqb 125 159) with false.
    change (N.eqb 125 168) with false. change (N.eqb 125 169) with false.
    change (N.eqb 125 175) with false. change (N.leb 128 125) with false.
    cbn [orb andb]. rewrite !andb_false_r. reflexivity.
Qed.

Lemma strip_braces (body : string) :
  strip (String "{" (body +:+ "}")) = String "{" (body +:+ "}").
Proof.
  unfold strip, rstrip. rewrite lstrip_brace.
  rewrite <- str_app_cons at 1. rewrite str_rev_snoc, lstrip_rev_brace.
  rewrite <- str_rev_snoc. rewrite str_rev_involutive. reflexivity.
Qed.

Lemma encode_dict_braces (lvl : nat) (m : list (string * json)) :
  exists body, encode lvl (JDict m) = String "{" (body +:+ "}").
Proof.
  destruct m as [|kv m]; [exists ""; reflexivity |].
  cbn [encode].
  match goal with
  | |- exists _, "{" +:+ ?a +:+ ?b +:+ ?c +:+ "}" = _ => exists (a +:+ b +:+ c)
  end.
  rewrite !str_app_assoc. reflexivity.
Qed.

Lemma strip_dumps_dict (m : list (string * json)) :
  strip (json_dumps (JDict m)) = json_dumps (JDict m)
  /\ json_dumps (JDict m) <> "".
Proof.
  unfold json_dumps. destruct (encode_dict_braces 0 m) as [body ->].
  split; [apply strip_braces | discriminate].
Qed.

(** ** The fuel of the decoder *)

Lemma skip_ws_length (s : string) : String.length (skip_ws s) <= String.length s.
Proof.
  induction s as [|c s IH]; [reflexivity |]. simpl.
  destruct (is_json_ws c); simpl; lia.
Qed.

Lemma prepend_inv (p : string) (o : option (string * string)) (str r : string) :
  prepend p o = Some (str, r) -> exists str', o = Some (str', r).
Proof. destruct o as [[a b]|]; [|discriminate]. intros H. inversion H. eauto. Qed.

Lemma py_scanstring_length (n : nat) :
  forall s str r, String.length s <= n -> py_scanstring s = Some (str, r) ->
  String.length r < String.length s.
Proof.
  induction n as [|n IH]; intros s str r Hn H.
  - destruct s; [discriminate | simpl in Hn; lia].
  - destruct s as [|c s0]; [discriminate |]. cbn [py_scanstring] in H.
    simpl in Hn.
    assert (Hrec : forall t, String.length t <= String.length s0 ->
                     forall p, prepend p (py_scanstring t) = Some (str, r) ->
                     String.length r < S (String.length s0)).
    { intros t Ht p Hp. apply prepend_inv in Hp as [str' Hp].
      apply IH in Hp; lia. }
    destruct (Ascii.eqb c dquote); [inversion H; subst; simpl; lia |].
    destruct (Ascii.eqb c backslash).
    + destruct s0 as [|e r1]; [discriminate |].
      destruct (Ascii.eqb e "u").
      * destruct r1 as [|h1 [|h2 [|h3 [|h4 r2]]]]; try discriminate.
        destruct (hex4 h1 h2 h3 h4) as [uni|]; [|discriminate].
        destruct ((55296 <=? uni) && (uni <=? 56319))%N.
        -- destruct r2 as [|b2 [|u2 [|l1 [|l2 [|l3 [|l4 r3]]]]]];
             try (eapply Hrec; [| exact H]; simpl; lia).
           destruct (Ascii.eqb b2 backslash && Ascii.eqb u2 "u");
             [| eapply Hrec; [| exact H]; simpl; lia].
           destruct (hex4 l1 l2 l3 l4) as [uni2|]; [|discriminate].
           destruct ((56320 <=? uni2) && (uni2 <=? 57343))%N;
             (eapply Hrec; [| exact H]; simpl; lia).
        -- eapply Hrec; [| exact H]; simpl; lia.
      * destruct (unescape e); [|discriminate].
        eapply Hrec; [| exact H]; simpl; lia.
    + destruct (is_control c); [discriminate |].
      eapply Hrec; [| exact H]; simpl; lia.
Qed.

Lemma strip_prefix_length (p s r : string) :
  strip_prefix p s = Some r -> String.length s = String.length p + String.length r.
Proof.
  revert s. induction p as [|c p IH]; intros s H; simpl in H.
  - inversion H. reflexivity.
  - destruct s as [|c' s]; [discriminate |]. destruct (Ascii.eqb c c'); [|discriminate].
    simpl. rewrite (IH _ H). reflexivity.
Qed.

Lemma span_digits_length (s d r : string) :
  span_digits s = (d, r) -> String.length s = String.length d + String.length r.
Proof.
  intros H. apply span_digits_spec in H as (-> & _). apply str_length_app.
Qed.

Lemma match_frac_length (s f r : string) :
  match_frac s = (f, r) -> String.length r <= String.length s.
Proof.
  intros H. apply match_frac_spec in H as [[_ ->] | (d & _ & _ & _ & ->)].
  - lia.
  - rewrite str_length_app. lia.
Qed.

Lemma match_exp_length (s e r : string) :
  match_exp s = (e, r) -> String.length r <= String.length s.
Proof.
  unfold match_exp. destruct s as [|c s']; [intros H; inversion H; simpl; lia |].
  destruct (Ascii.eqb c "e" || Ascii.eqb c "E"); [| intros H; inversion H; simpl; lia].
  destruct s' as [|c1 r'].
  - simpl. intros H; inversion H. simpl. lia.
  - destruct (Ascii.eqb c1 "+" || Ascii.eqb c1 "-").
    + destruct (span_digits r') as [d r2] eqn:Ed. apply span_digits_length in Ed.
      destruct d; intros H; inversion H; subst; simpl in *; lia.
    + destruct (span_digits (String c1 r')) as [d r2] eqn:Ed. apply span_digits_length in Ed.
      destruct d; intros H; inversion H; subst; simpl in *; lia.
Qed.

Lemma match_int_length (s : string) (neg : bool) (d r : string) :
  match_int s = Some (neg, d, r) -> String.length r < String.length s.
Proof.
  unfold match_int. intros H.
  assert (G : forall s1, 
    match s1 with
    | String c r0 => if Ascii.eqb c "0" then Some (neg, "0", r0)
                     else if is_ascii_digit c then let '(dg, r') := span_digits s1 in Some (neg, dg, r')
                     else None
    | EmptyString => None
    end = Some (neg, d, r) -> String.length r < String.length s1).
  { intros s1 H1. destruct s1 as [|c r0]; [discriminate |].
    destruct (Ascii.eqb c "0"); [inversion H1; subst; simpl; lia |].
    destruct (is_ascii_digit c) eqn:Ec; [|discriminate].
    destruct (span_digits (String c r0)) as [dg r'] eqn:Es. inversion H1; subst.
    pose proof (span_digits_length _ _ _ Es) as Hl.
    simpl in Es. rewrite Ec in Es. destruct (span_digits r0). inversion Es; subst.
    simpl in Hl. simpl. lia. }
  destruct s as [|c0 s0]; [discriminate |].
  destruct (Ascii.eqb c0 "-").
  - assert (neg = true) as ->.
    { destruct s0 as [|c r0]; [discriminate |].
      destruct (Ascii.eqb c "0"); [inversion H; reflexivity |].
      destruct (is_ascii_digit c); [|discriminate].
      destruct (span_digits (String c r0)). inversion H; reflexivity. }
    apply G in H. simpl. lia.
  - assert (neg = false) as ->.
    { destruct (Ascii.eqb c0 "0"); [inversion H; reflexivity |].
      destruct (is_ascii_digit c0); [|discriminate].
      destruct (span_digits (String c0 s0)). inversion H; reflexivity. }
    apply (G (String c0 s0)) in H. exact H.
Qed.

Lemma match_number_length (s : string) (v : json) (r : string) :
  match_number s = Some (v, r) -> String.length r < String.length s.
Proof.
  unfold match_number. destruct (match_int s) as [[[neg d] r1]|] eqn:Hi; [|discriminate].
  destruct (match_frac r1) as [f r2] eqn:Hf. destruct (match_exp r2) as [e r3] eqn:He.
  apply match_int_length in Hi. apply match_frac_length in Hf. apply match_exp_length in He.
  destruct f, e; intros H; inversion H; subst; lia.
Qed.

Lemma match_constant_length (s : string) (v : json) (r : string) :
  match_constant s = Some (v, r) -> String.length r < String.length s.
Proof.
  unfold match_constant.
  destruct (strip_prefix "null" s) eqn:E1;
    [intros H; inversion H; subst; apply strip_prefix_length in E1; simpl in E1; lia |].
  destruct (strip_prefix "true" s) eqn:E2;
    [intros H; inversion H; subst; apply strip_prefix_length in E2; simpl in E2; lia |].
  destruct (strip_prefix "false" s) eqn:E3;
    [intros H; inversion H; subst; apply strip_prefix_length in E3; simpl in E3; lia |].
  destruct (match_number s) as [[v' r']|] eqn:Hm;
    [intros H; inversion H; subst; eapply match_number_length; eassumption |].
  destruct (strip_prefix "NaN" s) eqn:E4;
    [intros H; inversion H; subst; apply strip_prefix_length in E4; simpl in E4; lia |].
  destruct (strip_prefix "Infinity" s) eqn:E5;
    [intros H; inversion H; subst; apply strip_prefix_length in E5; simpl in E5; lia |].
  destruct (strip_prefix "-Infinity" s) eqn:E6;
    [intros H; inversion H; subst; apply strip_prefix_length in E6; simpl in E6; lia |].
  discriminate.
Qed.

(** Fuel that covers the characters a value takes is enough to read it:
    a successful scan does not depend on how much more fuel there was. *)
Lemma scan_fuel (m : nat) :
  (forall s v r, scan_once m s = Some (v, r) ->
     String.length r < String.length s /\
     forall n, String.length s - String.length r <= n -> scan_once n s = Some (v, r)) /\
  (forall s vs r, array_items m s = Some (vs, r) ->
     String.length r < String.length s /\
     forall n, String.length s - String.length r <= n -> array_items n s = Some (vs, r)) /\
  (forall s kvs r, object_members m s = Some (kvs, r) ->
     String.length r < String.length s /\
     forall n, String.length s - String.length r <= n ->
               object_members n s = Some (kvs, r)).
Proof.
  induction m as [|m (IHs & IHa & IHo)]; [repeat split; discriminate |].
  split; [| split].
  - intros s v r H. destruct s as [|c r0]; [discriminate |].
    cbn [scan_once] in H.
    destruct (Ascii.eqb c dquote) eqn:Eq.
    { destruct (py_scanstring r0) as [[str r']|] eqn:Es; [|discriminate].
      inversion H; subst.
      pose proof (py_scanstring_length _ _ _ _ (le_n _) Es) as Hl.
      split; [simpl; lia |]. intros [|n] Hn; [simpl in Hn; lia |].
      cbn [scan_once]. rewrite Eq, Es. reflexivity. }
    destruct (Ascii.eqb c "{") eqn:Eo.
    { pose proof (skip_ws_length r0) as Hw.
      destruct (skip_ws r0) as [|c1 r1] eqn:Ew; [discriminate |]. simpl in Hw.
      destruct (Ascii.eqb c1 "}") eqn:Ec.
      { inversion H; subst. split; [simpl; lia |].
        intros [|n] Hn; [simpl in Hn; lia |].
        cbn [scan_once]. rewrite Eq, Eo, Ew, Ec. reflexivity. }
      destruct (Ascii.eqb c1 dquote) eqn:Ed; [|discriminate].
      destruct (object_members m r1) as [[pairs r']|] eqn:Em; [|discriminate].
      inversion H; subst. apply IHo in Em as [Hl Hm].
      split; [simpl; lia |]. intros [|n] Hn; [simpl in Hn; lia |].
      cbn [scan_once]. rewrite Eq, Eo, Ew, Ec, Ed, Hm; [reflexivity |].
      simpl in Hn. lia. }
    destruct (Ascii.eqb c "[") eqn:Eb.
    { pose proof (skip_ws_length r0) as Hw.
      destruct (skip_ws r0) as [|c1 r1] eqn:Ew; [discriminate |]. simpl in Hw.
      destruct (Ascii.eqb c1 "]") eqn:Ec.
      { inversion H; subst. split; [simpl; lia |].
        intros [|n] Hn; [simpl in Hn; lia |].
        cbn [scan_once]. rewrite Eq, Eo, Eb, Ew, Ec. reflexivity. }
      destruct (array_items m (String c1 r1)) as [[items r']|] eqn:Em; [|discriminate].
      inversion H; subst. apply IHa in Em as [Hl Hm]. simpl in Hl.
      split; [simpl; lia |]. intros [|n] Hn; [simpl in Hn; lia |].
      cbn [scan_once]. rewrite Eq, Eo, Eb, Ew, Ec, Hm; [reflexivity |].
      simpl in Hn |- *. lia. }
    pose proof (match_constant_length _ _ _ H) as Hl.
    split; [exact Hl |]. intros [|n] Hn; [lia |].
    cbn [scan_once]. rewrite Eq, Eo, Eb. exact H.
  - intros s vs r H. rewrite array_items_S in H.
    destruct (scan_once m s) as [[v r0]|] eqn:Es; [|discriminate].
    apply IHs in Es as [Hl Hs].
    pose proof (skip_ws_length r0) as Hw.
    destruct (skip_ws r0) as [|c r1] eqn:Ew; [discriminate |]. simpl in Hw.
    destruct (Ascii.eqb c "]") eqn:Ec.
    { inversion H; subst. split; [lia |]. intros [|n] Hn; [lia |].
      rewrite array_items_S, Hs, Ew, Ec; [reflexivity | lia]. }
    destruct (Ascii.eqb c ",") eqn:Ek; [|discriminate].
    pose proof (skip_ws_length r1) as Hw1.
    destruct (array_items m (skip_ws r1)) as [[vs' r']|] eqn:Em; [|discriminate].
    inversion H; subst. apply IHa in Em as [Hl' Hm].
    split; [lia |]. intros [|n] Hn; [lia |].
    rewrite array_items_S, Hs, Ew, Ec, Ek, Hm; [reflexivity | lia | lia].
  - intros s kvs r H. rewrite object_members_S in H.
    destruct (py_scanstring s) as [[key r0]|] eqn:Ek; [|discriminate].
    pose proof (py_scanstring_length _ _ _ _ (le_n _) Ek) as Hlk.
    pose proof (skip_ws_length r0) as Hw.
    destruct (skip_ws r0) as [|c r1] eqn:Ew; [discriminate |]. simpl in Hw.
    destruct (Ascii.eqb c ":") eqn:Ec; [|discriminate].
    pose proof (skip_ws_length r1) as Hw1.
    destruct (scan_once m (skip_ws r1)) as [[v r2]|] eqn:Es; [|discriminate].
    apply IHs in Es as [Hl Hs].
    pose proof (skip_ws_length r2) as Hw2.
    destruct (skip_ws r2) as [|c2 r3] eqn:Ew2; [discriminate |]. simpl in Hw2.
    destruct (Ascii.eqb c2 "}") eqn:Ec2.
    { inversion H; subst. split; [lia |]. intros [|n] Hn; [lia |].
      rewrite object_members_S, Ek, Ew, Ec, Hs, Ew2, Ec2; [reflexivity | lia]. }
    destruct (Ascii.eqb c2 ",") eqn:Ek2; [|discriminate].
    pose proof (skip_ws_length r3) as Hw3.
    destruct (skip_ws r3) as [|c3 r4] eqn:Ew3; [discriminate |]. simpl in Hw3.
    destruct (Ascii.eqb c3 dquote) eqn:Ed; [|discriminate].
    destruct (object_members m r4) as [[kvs' r']|] eqn:Em; [|discriminate].
    inversion H; subst. apply IHo in Em as [Hl' Hm].
    split; [lia |]. intros [|n] Hn; [lia |].
    rewrite object_members_S, Ek, Ew, Ec, Hs, Ew2, Ec2, Ek2, Ew3, Ed, Hm;
      [reflexivity | lia | lia].
Qed.

(** The fuel [json_loads] gives is enough: whatever any amount of fuel reads
    from a text, [json_loads] reads. *)
Lemma json_loads_fuel (s : string) (fuel : nat) (v : json) (r : string) :
  scan_once fuel (skip_ws s) = Some (v, r) ->
  scan_once (S (String.length s)) (skip_ws s) = Some (v, r).
Proof.
  intros H. destruct (scan_fuel fuel) as (Hs & _ & _).
  apply Hs in H as [Hl Hn]. apply Hn.
  pose proof (skip_ws_length s). lia.
Qed.

(** ** Paths *)


Lemma contains_char_app (c : ascii) (a b : string) :
  str_contains_char c (a +:+ b) = str_contains_char c a || str_contains_char c b.
Proof.
  induction a as [|x a IH]; [reflexivity |].
  rewrite str_app_cons. simpl. rewrite IH, orb_assoc. reflexivity.
Qed.

Lemma upto_last_app (c : ascii) (a b : string) :
  str_contains_char c b = false -> upto_last c (a +:+ b) = upto_last c a.
Proof.
  intros Hb. induction a as [|x a IH].
  - rewrite str_app_nil_l. destruct b as [|y b]; [reflexivity |].
    simpl in *. apply orb_false_elim in Hb as [H1 H2].
    rewrite Ascii.eqb_sym, H1, H2. reflexivity.
  - rewrite str_app_cons. simpl. rewrite contains_char_app, Hb, orb_false_r, IH.
    reflexivity.
Qed.


Section Store.

Context {env : Env}.



Lemma save_db_unfold (db : json) (fs : gmap string string) :
  save_db db fs = <[DB_PATH := json_dumps db]> (delete tmp_path fs).
Proof.
  unfold save_db, os_replace, write_text. rewrite lookup_insert_eq.
  rewrite delete_insert_eq. reflexivity.
Qed.

Lemma save_db_lookup (db : json) (fs : gmap string string) :
  save_db db fs !! DB_PATH = Some (json_dumps db).
Proof. rewrite save_db_unfold. apply lookup_insert_eq. Qed.


Lemma load_db_of_text (fs : gmap string string) (m : list (string * json)) :
  fs !! DB_PATH = Some (json_dumps (JDict m)) -> canonical (JDict m) = true ->
  load_db fs = JDict m.
Proof.
  intros Hf Hc. unfold load_db. rewrite Hf.
  destruct (strip_dumps_dict m) as [Hs Hne]. rewrite Hs.
  destruct (json_dumps (JDict m)) eqn:E; [congruence |]. rewrite <- E.
  rewrite (json_loads_dumps _ Hc). reflexivity.
Qed.

Lemma load_save (m : list (string * json)) (fs : gmap string string) :
  canonical (JDict m) = true -> load_db (save_db (JDict m) fs) = JDict m.
Proof. intros Hc. apply load_db_of_text; [apply save_db_lookup | exact Hc]. Qed.

Lemma load_db_canonical (fs : gmap string string) : canonical (load_db fs) = true.
Proof.
  unfold load_db. destruct (fs !! DB_PATH) as [body|]; [|reflexivity].
  destruct (strip body) as [|c r]; [reflexivity |].
  destruct (json_loads (String c r)) as [v|] eqn:E; [|reflexivity].
  eapply json_loads_canonical. exact E.
Qed.

Lemma load_db_absent (fs : gmap string string) :
  fs !! DB_PATH = None -> load_db fs = JDict [].
Proof. intros H. unfold load_db. rewrite H. reflexivity. Qed.

Lemma load_db_unparsable (fs : gmap string string) (body : string) :
  fs !! DB_PATH = Some body -> json_loads (strip body) = None -> load_db fs = JDict [].
Proof.
  intros H Hp. unfold load_db. rewrite H. revert Hp.
  destruct (strip body); intros Hp; [reflexivity | rewrite Hp; reflexivity].
Qed.

Lemma load_db_blank (fs : gmap string string) (body : string) :
  fs !! DB_PATH = Some body -> strip body = "" -> load_db fs = JDict [].
Proof. intros H Hp. unfold load_db. rewrite H, Hp. reflexivity. Qed.


(** An absent file, a blank one and one that does not parse all load as
    the empty mapping. *)
Lemma load_db_empty_cases (fs : gmap string string) :
  fs !! DB_PATH = None
  \/ (exists body, fs !! DB_PATH = Some body
                   /\ (strip body = "" \/ json_loads (strip body) = None)) ->
  load_db fs = JDict [].
Proof.
  intros [H | (body & H & [Hb | Hp])].
  - apply load_db_absent. exact H.
  - eapply load_db_blank; eassumption.
  - eapply load_db_unparsable; eassumption.
Qed.

(** A backing file that holds the text of an empty array. *)
Lemma load_db_array : load_db {[ DB_PATH := "[]" ]} = JList [].
Proof. unfold load_db. rewrite lookup_singleton_eq. reflexivity. Qed.

(** C4. A backing file that holds a JSON document other than an object is
    loaded as that document: for the text of an empty array [load_db]
    returns a list, not a mapping. *)
Theorem load_db_array_not_mapping :
  load_db {[ DB_PATH := "[]" ]} = JList []
  /\ forall m, load_db {[ DB_PATH := "[]" ]} <> JDict m.
Proof.
  split; [apply load_db_array |]. intros m. rewrite load_db_array. discriminate.
Qed.

(** The callers take what [load_db] returns for a [dict]: on that file the
    handler raises when it stores the record of the new session, and the
    score endpoint raises when it looks the session up. *)
Lemma open_session_on_array (params : list (string * string)) (uuid now : string)
    (w : world) :
  files w = {[ DB_PATH := "[]" ]} ->
  open_session params uuid now w
  = Raise (TypeError "list indices must be integers or slices, not str").
Proof.
  intros Hf. unfold open_session. cbn [accept files]. rewrite Hf, load_db_array.
  reflexivity.
Qed.

Lemma get_score_on_array (id now : string) (w : world) :
  files w = {[ DB_PATH := "[]" ]} ->
  fst (get_score id now w)
  = Raise (AttributeError "'list' object has no attribute 'get'").
Proof.
  intros Hf. unfold get_score. rewrite Hf, load_db_array. reflexivity.
Qed.

End Store.

(** ** The rounds of the conversation loop *)

Section Rounds.

Context {env : Env}.

Lemma handle_text_empty (now : string) (s : session) (w : world) :
  handle_text "" now s w = (s, send_text "[error] Empty message" (note_received "" w)).
Proof. reflexivity. Qed.

Lemma handle_text_ended (t now : string) (s : session) (w : world) :
  t <> "" -> ended s = true ->
  handle_text t now s w
  = (say "user" t s, send_text "Interview already concluded." (note_received t w)).
Proof.
  intros Ht He. destruct t as [|c r]; [congruence |].
  unfold handle_text. cbn [say ended]. rewrite He. reflexivity.
Qed.

Lemma handle_text_active (t now : string) (s : session) (w : world) :
  t <> "" -> ended s = false -> S (assistant_turns s) < max_assistant_turns ->
  handle_text t now s w = replied t s w.
Proof.
  intros Ht He Hn. destruct t as [|c r]; [congruence |].
  unfold handle_text, replied. cbn [say ended]. rewrite He.
  cbn [chat_completion note_received calls count_turn assistant_turns say snd].
  destruct (Nat.leb_spec max_assistant_turns (S (assistant_turns s))); [lia | reflexivity].
Qed.

Lemma handle_text_limit (t now : string) (s : session) (w : world) :
  t <> "" -> ended s = false -> max_assistant_turns <= S (assistant_turns s) ->
  handle_text t now s w =
  let '(s1, w1) := replied t s w in
  let w2 := send_text closing w1 in
  let s2 := set_ended (say "assistant" closing s1) in
  match store_transcript s2 now (files w2) with
  | Ok fs => (s2, close (send_text "[INFO] Interview transcript saved." (set_files fs w2)))
  | Raise e => (s2, send_text ("[error] Failed to save transcript: " +:+ exn_str e) w2)
  end.
Proof.
  intros Ht He Hn. destruct t as [|c r]; [congruence |].
  unfold handle_text, replied. cbn [say ended]. rewrite He.
  cbn [chat_completion note_received calls count_turn assistant_turns say snd].
  destruct (Nat.leb_spec max_assistant_turns (S (assistant_turns s))); [reflexivity | lia].
Qed.

Lemma replied_fields (t : string) (s : session) (w : world) :
  let a := answer_of (client (length (calls w)) (messages s ++ [ChatMsg "user" t])) in
  let '(s', w') := replied t s w in
  messages s' = (messages s ++ [ChatMsg "user" t; ChatMsg "assistant" a])%list
  /\ conversation_log s' = (conversation_log s ++ [LogEntry "user" t; LogEntry "assistant" a])%list
  /\ assistant_turns s' = S (assistant_turns s)
  /\ ended s' = ended s
  /\ interview_id s' = interview_id s /\ job_desc s' = job_desc s
  /\ years_exp s' = years_exp s /\ candidate_name s' = candidate_name s
  /\ wire w' = (wire w ++ [Received t; Sent a])%list
  /\ files w' = files w /\ connected w' = connected w
  /\ calls w' = (calls w ++ [(messages s ++ [ChatMsg "user" t])%list])%list.
Proof.
  unfold replied. cbn. rewrite <- !app_assoc. cbn. repeat split; reflexivity.
Qed.

(** C9. A client that connects with the name Ada to a server whose store is
    a mapping is greeted with the fixed sentence, and the next frame is the
    tagged line that carries the identifier of the session. *)
Theorem greeting_then_identifier (params : list (string * string)) (uuid now : string)
    (w : world) (d : list (string * json)) :
  params_get "name" params = Some "Ada" ->
  load_db (files w) = JDict d ->
  exists s w',
    open_session params uuid now w = Ok (s, w')
    /\ wire w' = (wire w
                  ++ [Sent "Hi Ada, let's start the interview. Can you please introduce yourself?";
                      Sent ("[INTERVIEW_ID] " +:+ uuid)])%list
    /\ interview_id s = uuid /\ candidate_name s = "Ada".
Proof.
  intros Hn Hd.
  assert (Hname : param_or "name" params DEFAULT_CANDIDATE_NAME = "Ada")
    by (unfold param_or; rewrite Hn; reflexivity).
  unfold open_session. cbn [accept files]. rewrite Hd, Hname.
  cbn [py_setitem mbind pyresult_bind].
  eexists _, _. split; [reflexivity |].
  cbn [send_text wire say interview_id candidate_name set_files].
  rewrite <- app_assoc. repeat split; reflexivity.
Qed.

(** C5. When the call to the completion client raises in an active round,
    the error text is sent to the client as an ordinary frame right after
    the text it answers, both are appended to the history and to the log as
    a user and an assistant message, and the turn is counted.  Below the
    limit nothing else happens in the round and the loop goes on with the
    next event. *)
Theorem failed_completion_counts (t now : string) (s : session) (w : world) (e : pyexn) :
  t <> "" -> ended s = false ->
  completion_text (client (length (calls w)) (messages s ++ [ChatMsg "user" t])%list)
  = Raise e ->
  let err := "[error] OpenAI error: " +:+ exn_str e in
  let s' := fst (handle_text t now s w) in
  let w' := snd (handle_text t now s w) in
  (exists more, wire w' = (wire w ++ [Received t; Sent err] ++ more)%list)
  /\ (exists more,
        messages s'
        = (messages s ++ [ChatMsg "user" t; ChatMsg "assistant" err] ++ more)%list)
  /\ (exists more,
        conversation_log s'
        = (conversation_log s ++ [LogEntry "user" t; LogEntry "assistant" err] ++ more)%list)
  /\ assistant_turns s' = S (assistant_turns s)
  /\ (S (assistant_turns s) < max_assistant_turns ->
      wire w' = (wire w ++ [Received t; Sent err])%list
      /\ messages s' = (messages s ++ [ChatMsg "user" t; ChatMsg "assistant" err])%list
      /\ conversation_log s'
         = (conversation_log s ++ [LogEntry "user" t; LogEntry "assistant" err])%list
      /\ ended s' = false /\ connected w' = connected w /\ files w' = files w
      /\ forall evs, connected w = true ->
           serve ((Recv t, now) :: evs) s w = serve evs s' w').
Proof.
  intros Ht He Hc err s' w'.
  pose proof (replied_fields t s w) as Hr. cbv zeta in Hr.
  unfold answer_of in Hr. rewrite Hc in Hr. fold err in Hr.
  destruct (replied t s w) as [s1 w1] eqn:E.
  destruct Hr as (Hm & Hl & Ha & Hen & Hid & Hj & Hy & Hcn & Hw & Hf & Hco & Hca).
  destruct (Nat.lt_ge_cases (S (assistant_turns s)) max_assistant_turns) as [Hlt | Hge].
  - pose proof (handle_text_active t now s w Ht He Hlt) as Hh. rewrite E in Hh.
    subst s' w'. rewrite Hh. cbn [fst snd].
    split; [exists []; rewrite app_nil_r; exact Hw |].
    split; [exists []; rewrite app_nil_r; exact Hm |].
    split; [exists []; rewrite app_nil_r; exact Hl |].
    split; [exact Ha |]. intros _.
    repeat split; try assumption; try congruence.
    intros evs Hcon. cbn [serve]. rewrite Hcon, Hh. reflexivity.
  - pose proof (handle_text_limit t now s w Ht He Hge) as Hh. rewrite E in Hh.
    cbv zeta in Hh. subst s' w'. rewrite Hh.
    destruct (store_transcript _ _ _) as [fs | ex]; cbn [fst snd];
      cbn [set_ended say send_text close set_files wire messages conversation_log
           assistant_turns];
      rewrite ?Hw, ?Hm, ?Hl, ?Ha, <- ?app_assoc;
      (split; [eexists; reflexivity |]);
      (split; [eexists; reflexivity |]);
      (split; [eexists; reflexivity |]);
      (split; [reflexivity |]); intros Hlt; lia.
Qed.

End Rounds.

(** ** Records in the store *)

Lemma canonical_dict_set (k : string) (v : json) (d : list (string * json)) :
  canonical (JDict d) = true -> canonical v = true ->
  canonical (JDict (dict_set k v d)) = true.
Proof.
  cbn [canonical]. intros H Hv. apply andb_prop in H as [H1 H2].
  apply andb_true_intro. split.
  - apply keys_distinct_set. exact H1.
  - apply (forallb_dict_set canonical); assumption.
Qed.

Lemma canonical_dict_update (d upd : list (string * json)) :
  canonical (JDict d) = true -> forallb (fun kv => canonical kv.2) upd = true ->
  canonical (JDict (dict_update d upd)) = true.
Proof.
  cbn [canonical]. intros H Hu. apply andb_prop in H as [H1 H2].
  apply andb_true_intro. split.
  - apply keys_distinct_update. exact H1.
  - apply (forallb_dict_update canonical); assumption.
Qed.

Lemma canonical_dict_get (k : string) (d : list (string * json)) (v : json) :
  canonical (JDict d) = true -> dict_get k d = Some v -> canonical v = true.
Proof.
  cbn [canonical]. intros H. apply andb_prop in H as [_ H].
  induction d as [|[k' v'] d IH]; [discriminate |].
  cbn [forallb snd] in H. apply andb_prop in H as [Hv Hd]. simpl.
  destruct (String.eqb k k'); [intros E; inversion E; subst; exact Hv | apply IH; exact Hd].
Qed.

Lemma canonical_log_json (log : list log_entry) : canonical (log_json log) = true.
Proof.
  unfold log_json. cbn [canonical].
  induction log as [|t log IH]; [reflexivity |]. cbn [map forallb]. rewrite IH. reflexivity.
Qed.

Lemma log_of_json_log_json (log : list log_entry) : log_of_json (log_json log) = Some log.
Proof.
  unfold log_json, log_of_json.
  induction log as [|[who line] log IH]; [reflexivity |].
  cbn [map entries_of_json]. rewrite IH. reflexivity.
Qed.

Section Sessions.

Context {env : Env}.

Lemma stored_after_save (d : list (string * json)) (id key : string)
    (r : list (string * json)) (fs : gmap string string) :
  canonical (JDict d) = true -> dict_get id d = Some (JDict r) ->
  stored_field (save_db (JDict d) fs) id key = dict_get key r.
Proof.
  intros Hc Hg. unfold stored_field. rewrite (load_save d fs Hc), Hg. reflexivity.
Qed.

Lemma load_db_dict_canonical (fs : gmap string string) (d : list (string * json)) :
  load_db fs = JDict d -> canonical (JDict d) = true.
Proof. intros H. rewrite <- H. apply load_db_canonical. Qed.

(** *** Opening a session *)

Lemma open_session_ok (params : list (string * string)) (uuid now : string) (w : world)
    (d : list (string * json)) :
  load_db (files w) = JDict d ->
  let '(job, exp, name) := config_of params in
  let rec0 := initial_record uuid job exp name now in
  let s := Session uuid job exp name
             [ChatMsg "system" (build_system_prompt job exp);
              ChatMsg "assistant" (greeting_for name)]
             [LogEntry "assistant" (greeting_for name)] 0 false in
  let w' := World (save_db (JDict (dict_set uuid rec0 d)) (files w))
              (wire w ++ [Sent (greeting_for name); Sent ("[INTERVIEW_ID] " +:+ uuid)])
              true (calls w) in
  open_session params uuid now w = Ok (s, w')
  /\ load_db (files w') = JDict (dict_set uuid rec0 d).
Proof.
  intros Hd. unfold config_of. cbv zeta. split.
  - unfold open_session. cbn [accept files]. rewrite Hd.
    cbn [py_setitem mbind pyresult_bind].
    unfold say, send_text, set_files.
    cbn [wire files connected calls interview_id job_desc years_exp candidate_name
         messages conversation_log assistant_turns ended app].
    rewrite <- app_assoc. reflexivity.
  - cbn [files]. apply load_save. apply canonical_dict_set.
    + eapply load_db_dict_canonical. exact Hd.
    + reflexivity.
Qed.

(** *** Rounds keep what they do not touch *)

Lemma handle_text_keeps (t now : string) (s : session) (w : world) :
  let s' := fst (handle_text t now s w) in
  let w' := snd (handle_text t now s w) in
  interview_id s' = interview_id s /\ job_desc s' = job_desc s
  /\ years_exp s' = years_exp s /\ candidate_name s' = candidate_name s
  /\ (conversation_log s <> [] -> conversation_log s' <> [])
  /\ (ended s' = false ->
      ended s = false /\ files w' = files w /\ connected w' = connected w).
Proof.
  cbv zeta. destruct t as [|c r].
  - rewrite handle_text_empty. cbn. repeat split; auto.
  - set (t := String c r). assert (Ht : t <> "") by discriminate.
    destruct (ended s) eqn:He.
    + rewrite (handle_text_ended t now s w Ht He). cbn. rewrite He.
      repeat split; auto; try discriminate. intros _ H. apply app_eq_nil in H as [_ H].
      discriminate.
    + pose proof (replied_fields t s w) as Hr. cbv zeta in Hr.
      destruct (replied t s w) as [s1 w1] eqn:E.
      destruct Hr as (Hm & Hl & Ha & Hen & Hid & Hj & Hy & Hcn & Hw & Hf & Hco & Hca).
      destruct (Nat.lt_ge_cases (S (assistant_turns s)) max_assistant_turns) as [Hlt | Hge].
      * rewrite (handle_text_active t now s w Ht He Hlt), E. cbn [fst snd].
        repeat split; auto. rewrite Hl. intros _ H. apply app_eq_nil in H as [_ H].
        discriminate.
      * rewrite (handle_text_limit t now s w Ht He Hge), E. cbv zeta.
        destruct (store_transcript _ _ _) as [fs | ex]; cbn; rewrite ?Hid, ?Hj, ?Hy, ?Hcn;
          repeat split; auto; try discriminate;
          intros _ H; apply app_eq_nil in H as [_ H]; discriminate.
Qed.


(** Once the handler has closed the socket nothing more is read: the next
    receive raises, whatever the client sends. *)
Lemma serve_closed (ev : event * string) (evs : list (event * string))
    (s : session) (w : world) :
  connected w = false -> serve (ev :: evs) s w = (Crashed not_connected, w).
Proof. intros Hc. destruct ev as [ev now]. cbn [serve]. rewrite Hc. reflexivity. Qed.

(** While a session that only receives texts has not concluded, its store
    is the one it started with, its configuration is unchanged and its log
    is not empty. *)
Lemma serve_active_keeps (texts : list (string * string)) (s0 : session) (w0 : world)
    (s : session) (w : world) :
  serve (receive_all texts) s0 w0 = (Serving s, w) -> ended s = false ->
  ended s0 = false /\ files w = files w0 /\ connected w = connected w0
  /\ interview_id s = interview_id s0 /\ job_desc s = job_desc s0
  /\ years_exp s = years_exp s0 /\ candidate_name s = candidate_name s0
  /\ (conversation_log s0 <> [] -> conversation_log s <> []).
Proof.
  revert s0 w0. induction texts as [|[t now] texts IH]; intros s0 w0 H He.
  - cbn in H. inversion H; subst. repeat split; auto.
  - cbn [receive_all map serve fst snd] in H.
    destruct (connected w0) eqn:Hc; [|discriminate].
    pose proof (handle_text_keeps t now s0 w0) as Hk. cbv zeta in Hk.
    destruct (handle_text t now s0 w0) as [s1 w1]. cbn [fst snd] in Hk.
    destruct Hk as (K1 & K2 & K3 & K4 & K5 & K6).
    destruct (IH s1 w1 H He) as (I0 & I1 & I2 & I3 & I4 & I5 & I6 & I7).
    destruct (K6 I0) as (E0 & E1 & E2).
    repeat split; try congruence. auto.
Qed.

End Sessions.

Section Flush.

Context {env : Env}.

(** *** The save at the end of the interview *)

Lemma store_transcript_ok (s : session) (now : string) (fs : gmap string string)
    (d r : list (string * json)) :
  load_db fs = JDict d -> dict_get (interview_id s) d = Some (JDict r) ->
  store_transcript s now fs
  = Ok (save_db (JDict (dict_set (interview_id s) (JDict (concluded_record s now r)) d)) fs).
Proof.
  intros Hd Hg. unfold store_transcript. rewrite Hd.
  cbn [py_contains mbind pyresult_bind]. unfold dict_has. rewrite Hg.
  cbn [py_getitem]. rewrite Hg. reflexivity.
Qed.

Lemma concluded_record_fields (s : session) (now : string) (r : list (string * json)) :
  dict_get "messages" (concluded_record s now r) = Some (log_json (conversation_log s))
  /\ dict_get "transcript" (concluded_record s now r)
     = Some (JStr (flatten_transcript (conversation_log s)))
  /\ dict_get "updated_at" (concluded_record s now r) = Some (JStr (now +:+ "Z"))
  /\ forall k, k <> "messages" -> k <> "transcript" -> k <> "updated_at" ->
       dict_get k (concluded_record s now r) = dict_get k r.
Proof.
  unfold concluded_record. repeat split.
  - rewrite !dict_get_set_ne by discriminate. apply dict_get_set_eq.
  - rewrite dict_get_set_ne by discriminate. apply dict_get_set_eq.
  - apply dict_get_set_eq.
  - intros k H1 H2 H3. rewrite !dict_get_set_ne by congruence. reflexivity.
Qed.

Lemma canonical_concluded_record (s : session) (now : string) (r : list (string * json)) :
  canonical (JDict r) = true -> canonical (JDict (concluded_record s now r)) = true.
Proof.
  intros Hr. unfold concluded_record.
  repeat apply canonical_dict_set; try reflexivity; try assumption.
  apply canonical_log_json.
Qed.

Lemma stored_after_conclusion (s : session) (now : string) (fs : gmap string string)
    (d r : list (string * json)) (key : string) :
  load_db fs = JDict d -> dict_get (interview_id s) d = Some (JDict r) ->
  exists fs', store_transcript s now fs = Ok fs'
    /\ load_db fs' = JDict (dict_set (interview_id s) (JDict (concluded_record s now r)) d)
    /\ stored_field fs' (interview_id s) key = dict_get key (concluded_record s now r).
Proof.
  intros Hd Hg. eexists. split; [apply (store_transcript_ok s now fs d r Hd Hg) |].
  pose proof (load_db_dict_canonical fs d Hd) as Hc.
  assert (Hc' : canonical (JDict (dict_set (interview_id s)
                                   (JDict (concluded_record s now r)) d)) = true).
  { apply canonical_dict_set; [exact Hc |]. apply canonical_concluded_record.
    eapply canonical_dict_get; eassumption. }
  split; [apply load_save; exact Hc' |].
  apply stored_after_save; [exact Hc' | apply dict_get_set_eq].
Qed.

(** *** The save at a disconnect *)

Lemma store_on_disconnect_ok (s : session) (now : string) (fs : gmap string string)
    (d : list (string * json)) :
  load_db fs = JDict d ->
  (forall v, dict_get (interview_id s) d = Some v -> truthy v = true -> exists r, v = JDict r) ->
  let old := match dict_get (interview_id s) d with
             | Some (JDict r) => r
             | _ => []
             end in
  let rec := dict_update old (disconnect_update s now) in
  exists fs', store_on_disconnect s now fs = Ok fs'
    /\ fs' = save_db (JDict (dict_set (interview_id s) (JDict rec) d)) fs
    /\ load_db fs' = JDict (dict_set (interview_id s) (JDict rec) d)
    /\ forall key, stored_field fs' (interview_id s) key = dict_get key rec.
Proof.
  intros Hd Hrec old rec.
  pose proof (load_db_dict_canonical fs d Hd) as Hc.
  assert (Hold : py_or (field (interview_id s) d) (JDict []) = JDict old
                 /\ canonical (JDict old) = true).
  { unfold field, py_or, old. destruct (dict_get (interview_id s) d) as [v|] eqn:Hg;
      [|split; reflexivity].
    destruct (truthy v) eqn:Ht.
    - destruct (Hrec v eq_refl Ht) as [r ->]. split; [reflexivity |].
      eapply canonical_dict_get; eassumption.
    - destruct v as [ | | | | | | [|kv m]]; try (split; reflexivity). discriminate. }
  destruct Hold as [Hold Hco].
  assert (Hcr : canonical (JDict rec) = true).
  { apply canonical_dict_update; [exact Hco |].
    pose proof (canonical_log_json (conversation_log s)) as Hl.
    cbn [disconnect_update forallb snd]. rewrite Hl. reflexivity. }
  assert (Hc' : canonical (JDict (dict_set (interview_id s) (JDict rec) d)) = true)
    by (apply canonical_dict_set; assumption).
  eexists. split.
  - unfold store_on_disconnect. rewrite Hd. cbn [py_get mbind pyresult_bind].
    rewrite Hold. reflexivity.
  - split; [reflexivity |]. split; [apply load_save; exact Hc' |].
    intros key. apply stored_after_save; [exact Hc' | apply dict_get_set_eq].
Qed.

End Flush.

Section Runs.

Context {env : Env}.

(** *** A sequence of turns *)


End Runs.

Section Claims.

Context {env : Env}.

Lemma disconnect_update_fields (s : session) (now : string) (r : list (string * json)) :
  let rec := dict_update r (disconnect_update s now) in
  dict_get "id" rec = Some (JStr (interview_id s))
  /\ dict_get "job_description" rec = Some (JStr (job_desc s))
  /\ dict_get "experience_required" rec = Some (JStr (years_exp s))
  /\ dict_get "candidate_name" rec = Some (JStr (candidate_name s))
  /\ dict_get "messages" rec = Some (log_json (conversation_log s))
  /\ dict_get "transcript" rec = Some (JStr (flatten_transcript (conversation_log s)))
  /\ dict_get "updated_at" rec = Some (JStr (now +:+ "Z"))
  /\ forall k, existsb (String.eqb k) (map fst (disconnect_update s now)) = false ->
       dict_get k rec = dict_get k r.
Proof.
  cbv zeta. unfold dict_update, disconnect_update. cbn [fold_left fst snd map existsb].
  repeat split;
    try (rewrite ?dict_get_set_ne by discriminate; apply dict_get_set_eq).
  intros k Hk. repeat (apply orb_false_elim in Hk as [?%String.eqb_neq Hk]).
  rewrite !dict_get_set_ne by congruence. reflexivity.
Qed.

Lemma handle_disconnect_saved (now : string) (s : session) (w : world)
    (fs' : gmap string string) :
  conversation_log s <> [] -> store_on_disconnect s now (files w) = Ok fs' ->
  handle_disconnect now s w = set_files fs' w.
Proof.
  intros Hl Hs. unfold handle_disconnect. rewrite Hs.
  destruct (conversation_log s); [congruence | reflexivity].
Qed.


End Claims.

Section MoreClaims.

Context {env : Env}.


(** C8. The transcript is a function of the messages alone: the save at the
    end of an interview and the save at a disconnect store, for the same log,
    the same transcript next to the messages, and flattening the messages
    read back from the store gives that transcript again. *)
Theorem transcript_function_of_messages (s : session) (now1 now2 : string)
    (fs : gmap string string) (d r : list (string * json)) :
  load_db fs = JDict d ->
  dict_get (interview_id s) d = Some (JDict r) ->
  exists fs1 fs2 msgs,
    store_transcript s now1 fs = Ok fs1
    /\ store_on_disconnect s now2 fs = Ok fs2
    /\ stored_field fs1 (interview_id s) "messages" = Some msgs
    /\ stored_field fs2 (interview_id s) "messages" = Some msgs
    /\ log_of_json msgs = Some (conversation_log s)
    /\ stored_field fs1 (interview_id s) "transcript"
       = option_map (fun log => JStr (flatten_transcript log)) (log_of_json msgs)
    /\ stored_field fs2 (interview_id s) "transcript"
       = option_map (fun log => JStr (flatten_transcript log)) (log_of_json msgs).
Proof.
  intros Hd Hg.
  destruct (stored_after_conclusion s now1 fs d r "messages" Hd Hg) as (fs1 & H1 & _ & M1).
  destruct (stored_after_conclusion s now1 fs d r "transcript" Hd Hg) as (fs1' & H1' & _ & T1).
  rewrite H1 in H1'. inversion H1'; subst fs1'. clear H1'.
  destruct (store_on_disconnect_ok s now2 fs d Hd) as (fs2 & H2 & _ & _ & F2).
  { rewrite Hg. intros v Hv _. inversion Hv. eauto. }
  rewrite Hg in F2.
  destruct (concluded_record_fields s now1 r) as (C1 & C2 & _).
  destruct (disconnect_update_fields s now2 r) as (_ & _ & _ & _ & D1 & D2 & _).
  cbv zeta in D1, D2.
  exists fs1, fs2, (log_json (conversation_log s)).
  rewrite M1, T1, !F2, C1, C2, D1, D2, log_of_json_log_json.
  repeat split; try reflexivity; assumption.
Qed.



End MoreClaims.

(** ** The score request *)




Section Score.

Context {env : Env}.


End Score.

(** ** The properties at sample inputs *)


Lemma greeting_then_identifier_witness :
  params_get "name" ada_params = Some "Ada"
  /\ load_db (env := sample_env) (files fresh_world) = JDict []
  /\ exists s w',
       open_session (env := sample_env) ada_params "id-1" "T0" fresh_world = Ok (s, w')
       /\ wire w'
          = (wire fresh_world
             ++ [Sent "Hi Ada, let's start the interview. Can you please introduce yourself?";
                 Sent ("[INTERVIEW_ID] " +:+ "id-1")])%list
       /\ interview_id s = "id-1" /\ candidate_name s = "Ada".
Proof.
  split; [reflexivity |]. split; [reflexivity |].
  exact (greeting_then_identifier (env := sample_env) ada_params "id-1" "T0" fresh_world []
           eq_refl eq_refl).
Defined.

Lemma failed_completion_counts_witness :
  "I build APIs." <> ""
  /\ ended (fst opened_sample) = false
  /\ completion_text
       (client (Env := failing_env) (length (calls (snd opened_sample)))
          (messages (fst opened_sample) ++ [ChatMsg "user" "I build APIs."])%list)
     = Raise (CompletionError "Connection error.")
  /\ assistant_turns
       (fst (handle_text (env := failing_env) "I build APIs." "T1"
               (fst opened_sample) (snd opened_sample)))
     = S (assistant_turns (fst opened_sample)).
Proof.
  assert (H1 : "I build APIs." <> "") by discriminate.
  assert (H2 : ended (fst opened_sample) = false) by reflexivity.
  assert (H3 : completion_text
                 (client (Env := failing_env) (length (calls (snd opened_sample)))
                    (messages (fst opened_sample) ++ [ChatMsg "user" "I build APIs."])%list)
               = Raise (CompletionError "Connection error.")) by reflexivity.
  split; [exact H1 |]. split; [exact H2 |]. split; [exact H3 |].
  exact (proj1 (proj2 (proj2 (proj2
           (failed_completion_counts (env := failing_env) "I build APIs." "T1"
              (fst opened_sample) (snd opened_sample) _ H1 H2 H3))))).
Defined.




Lemma transcript_function_of_messages_witness :
  load_db (env := sample_env) (files scored_world) = JDict sample_store
  /\ dict_get (interview_id (fst opened_sample)) sample_store
     = Some (JDict match sample_store with
                   | (_, JDict r) :: _ => r
                   | _ => []
                   end)
  /\ exists fs1 fs2 msgs,
       store_transcript (env := sample_env) (fst opened_sample) "T5" (files scored_world)
       = Ok fs1
       /\ store_on_disconnect (env := sample_env) (fst opened_sample) "T6"
            (files scored_world) = Ok fs2
       /\ stored_field (env := sample_env) fs1 "id-1" "messages" = Some msgs
       /\ stored_field (env := sample_env) fs2 "id-1" "messages" = Some msgs.
Proof.
  assert (H1 : load_db (env := sample_env) (files scored_world) = JDict sample_store)
    by (vm_compute; reflexivity).
  assert (H2 : dict_get (interview_id (fst opened_sample)) sample_store
               = Some (JDict match sample_store with
                             | (_, JDict r) :: _ => r
                             | _ => []
                             end)) by reflexivity.
  split; [exact H1 |]. split; [exact H2 |].
  destruct (transcript_function_of_messages (env := sample_env) (fst opened_sample)
              "T5" "T6" (files scored_world) sample_store _ H1 H2)
    as (fs1 & fs2 & msgs & A & B & C & D & _).
  exists fs1, fs2, msgs. repeat split; assumption.
Defined.



(** ** Where the code departs from the wording of the specification *)




(** * Further properties of the handler *)

Section Handler.

Context {env : Env}.

(** The four ways a round can go. *)
Lemma handle_text_cases (t now : string) (s : session) (w : world) :
  let s' := fst (handle_text t now s w) in
  let w' := snd (handle_text t now s w) in
  (t = "" /\ s' = s /\ files w' = files w /\ calls w' = calls w
   /\ connected w' = connected w)
  \/ (t <> "" /\ ended s = true /\ s' = say "user" t s /\ files w' = files w
      /\ calls w' = calls w /\ connected w' = connected w)
  \/ (t <> "" /\ ended s = false /\ S (assistant_turns s) < max_assistant_turns
      /\ s' = fst (replied t s w) /\ w' = snd (replied t s w))
  \/ (t <> "" /\ ended s = false /\ max_assistant_turns <= S (assistant_turns s)
      /\ s' = set_ended (say "assistant" closing (fst (replied t s w)))
      /\ calls w' = calls (snd (replied t s w))
      /\ ((exists fs, store_transcript s' now (files w) = Ok fs
                      /\ files w' = fs /\ connected w' = false)
          \/ (exists e, store_transcript s' now (files w) = Raise e
                        /\ files w' = files w /\ connected w' = connected w))).
Proof.
  intros s' w'. subst s' w'.
  destruct (string_dec t "") as [-> | Ht].
  { left. rewrite handle_text_empty. cbn. repeat split; reflexivity. }
  right. destruct (ended s) eqn:He.
  { left. rewrite (handle_text_ended t now s w Ht He). cbn. repeat split; auto. }
  right. destruct (Nat.lt_ge_cases (S (assistant_turns s)) max_assistant_turns) as [Hlt | Hge].
  { left. rewrite (handle_text_active t now s w Ht He Hlt). repeat split; auto. }
  right. pose proof (handle_text_limit t now s w Ht He Hge) as Hh.
  pose proof (replied_fields t s w) as Hr.
  destruct (replied t s w) as [s1 w1] eqn:E. cbv zeta in Hh.
  destruct Hr as (_ & _ & _ & _ & _ & _ & _ & _ & _ & Hf & Hc & _).
  cbn [fst snd].
  assert (Hfs : files (send_text closing w1) = files w) by (cbn; exact Hf).
  rewrite Hfs in Hh.
  destruct (store_transcript (set_ended (say "assistant" closing s1)) now (files w))
    as [fs | e] eqn:Est; rewrite Hh; cbn [fst snd].
  - repeat split; auto. left. exists fs. split; [exact Est | split; reflexivity].
  - repeat split; auto. right. exists e. split; [exact Est | cbn; split; auto].
Qed.

Lemma handle_disconnect_calls (now : string) (s : session) (w : world) :
  calls (handle_disconnect now s w) = calls w
  /\ wire (handle_disconnect now s w) = wire w
  /\ connected (handle_disconnect now s w) = connected w.
Proof.
  unfold handle_disconnect. destruct (conversation_log s); [auto |].
  destruct (store_on_disconnect s now (files w)); auto.
Qed.

Lemma handle_text_within_limit (before : list (list chat_msg)) (t now : string)
    (s : session) (w : world) :
  within_limit before s w ->
  within_limit before (fst (handle_text t now s w)) (snd (handle_text t now s w)).
Proof.
  intros (made & Hc & Hl & Hle & Hact).
  pose proof (handle_text_cases t now s w) as H. cbv zeta in H.
  pose proof (replied_fields t s w) as Hr.
  destruct (replied t s w) as [s1 w1]. cbn [fst snd] in H.
  destruct Hr as (_ & _ & Ht1 & He1 & _ & _ & _ & _ & _ & _ & _ & Hc1).
  destruct H as [(_ & -> & _ & Hcw & _) | [(_ & He & -> & _ & Hcw & _) |
                 [(_ & He & Hlt & -> & ->) | (_ & He & Hge & -> & Hcw & _)]]].
  - exists made. rewrite Hcw. auto.
  - exists made. rewrite Hcw. cbn. repeat split; auto; congruence.
  - exists (made ++ [(messages s ++ [ChatMsg "user" t])%list])%list.
    rewrite Hc1, Hc, Ht1, He1, length_app, <- app_assoc. cbn [length].
    repeat split; auto; lia.
  - exists (made ++ [(messages s ++ [ChatMsg "user" t])%list])%list.
    rewrite Hcw, Hc1, Hc, length_app, <- app_assoc. cbn.
    rewrite Ht1. specialize (Hact He).
    repeat split; auto; try lia; try discriminate.
Qed.

Lemma serve_within_limit (before : list (list chat_msg)) (evs : list (event * string)) :
  forall s w, within_limit before s w ->
  exists made, calls (snd (serve evs s w)) = (before ++ made)%list
               /\ length made <= max_assistant_turns.
Proof.
  induction evs as [|[ev now] evs IH]; intros s w Hin.
  - destruct Hin as (made & Hc & Hl & Hle & _). exists made. cbn. split; [exact Hc | lia].
  - cbn [serve]. destruct (connected w).
    + destruct ev as [line|].
      * pose proof (handle_text_within_limit before line now s w Hin) as Hin'.
        destruct (handle_text line now s w) as [s' w']. apply IH. exact Hin'.
      * destruct Hin as (made & Hc & Hl & Hle & _). exists made. cbn [snd].
        destruct (handle_disconnect_calls now s w) as [-> _]. split; [exact Hc | lia].
    + destruct Hin as (made & Hc & Hl & Hle & _). exists made. cbn. split; [exact Hc | lia].
Qed.

(** X1. Whatever the client sends, a connection makes at most
    [max_assistant_turns] calls to the completion client: the calls recorded
    when the handler ends are the ones recorded before it started followed by
    at most thirty more. *)
Theorem completion_calls_bounded (params : list (string * string)) (uuid now : string)
    (evs : list (event * string)) (w0 : world) :
  exists made,
    calls (snd (websocket_endpoint params uuid now evs w0)) = (calls w0 ++ made)%list
    /\ length made <= max_assistant_turns.
Proof.
  unfold websocket_endpoint.
  destruct (open_session params uuid now w0) as [[s w]|e] eqn:Ho.
  - apply serve_within_limit. exists []. unfold open_session in Ho.
    destruct (py_setitem _ _ _) as [db|] in Ho; [|discriminate].
    cbn in Ho. inversion Ho; subst. cbn. rewrite app_nil_r.
    repeat split; auto; unfold max_assistant_turns; lia.
  - exists []. cbn. rewrite app_nil_r. split; [reflexivity | lia].
Qed.

Lemma store_keeps_set (d0 d : list (string * json)) (id : string) (v : list (string * json))
    (fs : gmap string string) :
  load_db fs = JDict (dict_set id (JDict v) d) ->
  (forall id', id' <> id -> dict_get id' d = dict_get id' d0) ->
  store_keeps d0 id fs.
Proof.
  intros Hl Hd. exists (dict_set id (JDict v) d), v. split; [exact Hl |].
  split; [apply dict_get_set_eq |].
  intros id' Hne. rewrite dict_get_set_ne by congruence. apply Hd. exact Hne.
Qed.

Lemma handle_text_store (d0 : list (string * json)) (t now : string)
    (s : session) (w : world) :
  store_keeps d0 (interview_id s) (files w) ->
  store_keeps d0 (interview_id s) (files (snd (handle_text t now s w))).
Proof.
  intros Hk. pose proof (handle_text_cases t now s w) as H. cbv zeta in H.
  pose proof (handle_text_keeps t now s w) as Hid. cbv zeta in Hid.
  destruct Hid as (Hid & _).
  pose proof (replied_fields t s w) as Hr.
  destruct (replied t s w) as [s1 w1]. cbn [fst snd] in H.
  destruct Hr as (_ & _ & _ & _ & _ & _ & _ & _ & _ & Hf1 & _).
  destruct H as [(_ & _ & Hf & _) | [(_ & _ & _ & Hf & _) |
                 [(_ & _ & _ & _ & Hw) | (_ & _ & _ & Hs & _ & Hst)]]].
  - rewrite Hf. exact Hk.
  - rewrite Hf. exact Hk.
  - rewrite Hw, Hf1. exact Hk.
  - destruct Hst as [(fs & Hst & Hf & _) | (e & _ & Hf & _)]; [| rewrite Hf; exact Hk].
    destruct Hk as (d & r & Hl & Hg & Hd).
    rewrite <- Hid in Hg.
    destruct (stored_after_conclusion (fst (handle_text t now s w)) now (files w) d r "id"
                Hl Hg) as (fs' & Hst' & Hl' & _).
    rewrite Hst in Hst'. inversion Hst'; subst fs'.
    rewrite Hf. rewrite Hid in Hl'. eapply store_keeps_set; eassumption.
Qed.

Lemma handle_disconnect_store (d0 : list (string * json)) (now : string)
    (s : session) (w : world) :
  store_keeps d0 (interview_id s) (files w) ->
  store_keeps d0 (interview_id s) (files (handle_disconnect now s w)).
Proof.
  intros Hk. unfold handle_disconnect. destruct (conversation_log s); [exact Hk |].
  destruct Hk as (d & r & Hl & Hg & Hd).
  destruct (store_on_disconnect_ok s now (files w) d Hl) as (fs' & Hst & _ & Hl' & _).
  { rewrite Hg. intros v Hv _. inversion Hv. eauto. }
  rewrite Hst. cbn. eapply store_keeps_set; eassumption.
Qed.

Lemma serve_store (d0 : list (string * json)) (evs : list (event * string)) :
  forall s w, store_keeps d0 (interview_id s) (files w) ->
  store_keeps d0 (interview_id s) (files (snd (serve evs s w))).
Proof.
  induction evs as [|[ev now] evs IH]; intros s w Hk; [exact Hk |].
  cbn [serve]. destruct (connected w); [| exact Hk].
  destruct ev as [line|].
  - pose proof (handle_text_store d0 line now s w Hk) as Hk'.
    pose proof (handle_text_keeps line now s w) as Hid. cbv zeta in Hid.
    destruct Hid as (Hid & _).
    destruct (handle_text line now s w) as [s' w']. cbn [fst snd] in *.
    rewrite <- Hid. apply IH. rewrite Hid. exact Hk'.
  - apply handle_disconnect_store. exact Hk.
Qed.

(** X2. A connection changes the record of its own session only: whatever the
    client sends and however the connection ends, a request for any other
    identifier is answered afterwards as it was before. *)
Theorem other_records_untouched (params : list (string * string)) (uuid now : string)
    (evs : list (event * string)) (w0 : world) (d0 : list (string * json))
    (other : string) :
  load_db (files w0) = JDict d0 ->
  other <> uuid ->
  get_interview other (files (snd (websocket_endpoint params uuid now evs w0)))
  = get_interview other (files w0).
Proof.
  intros Hd Hne.
  pose proof (open_session_ok params uuid now w0 d0 Hd) as Ho.
  unfold config_of in Ho. cbv zeta in Ho. destruct Ho as [Ho Hl1].
  unfold websocket_endpoint. rewrite Ho.
  match type of Ho with _ = Ok (?a, ?b) => set (s0 := a) in *; set (w1 := b) in * end.
  assert (Hk : store_keeps d0 (interview_id s0) (files w1)).
  { unfold initial_record in Hl1. eapply store_keeps_set; [exact Hl1 | auto]. }
  destruct (serve_store d0 evs s0 w1 Hk) as (d & r & Hl & _ & Hsame).
  unfold get_interview. rewrite Hl, Hd. cbn [py_get]. unfold field.
  rewrite (Hsame other Hne). reflexivity.
Qed.

Lemma same_state_refl (w : world) : same_state w w.
Proof. repeat split. Qed.

Lemma same_state_trans (a b c : world) : same_state a b -> same_state b c -> same_state a c.
Proof. intros (A1 & A2 & A3) (B1 & B2 & B3). repeat split; congruence. Qed.

Lemma handle_text_same (t now : string) (s : session) (w1 w2 : world) :
  same_state w1 w2 ->
  fst (handle_text t now s w1) = fst (handle_text t now s w2)
  /\ same_state (snd (handle_text t now s w1)) (snd (handle_text t now s w2)).
Proof.
  destruct w1 as [f1 i1 c1 k1], w2 as [f2 i2 c2 k2]. unfold same_state. cbn [files calls connected].
  intros (<- & <- & <-). unfold handle_text.
  destruct t as [|c t]; [cbn; auto |].
  destruct (ended (say "user" (String c t) s)); [cbn; auto |].
  unfold chat_completion, note_received, send_text. cbn [files calls connected wire].
  destruct (max_assistant_turns <=? _)%nat; [| cbn; auto].
  destruct (store_transcript _ now f1); cbn; auto.
Qed.

Lemma handle_disconnect_same (now : string) (s : session) (w1 w2 : world) :
  same_state w1 w2 -> same_state (handle_disconnect now s w1) (handle_disconnect now s w2).
Proof.
  intros (Hf & Hc & Hk). unfold handle_disconnect.
  destruct (conversation_log s); [repeat split; assumption |].
  rewrite Hf. destruct (store_on_disconnect s now (files w2)); repeat split; cbn; assumption.
Qed.

Lemma serve_same (evs : list (event * string)) :
  forall s w1 w2, same_state w1 w2 ->
  fst (serve evs s w1) = fst (serve evs s w2)
  /\ same_state (snd (serve evs s w1)) (snd (serve evs s w2)).
Proof.
  induction evs as [|[ev now] evs IH]; intros s w1 w2 Hs; [split; [reflexivity | exact Hs] |].
  cbn [serve]. pose proof Hs as (Hf & Hc & Hk). rewrite Hk.
  destruct (connected w2); [| split; [reflexivity | exact Hs]].
  destruct ev as [line|].
  - destruct (handle_text_same line now s w1 w2) as [Hs' Hw']; [exact Hs |].
    destruct (handle_text line now s w1) as [s1 w1'], (handle_text line now s w2) as [s2 w2'].
    cbn [fst snd] in *. subst s2. apply IH. exact Hw'.
  - split; [reflexivity |]. apply handle_disconnect_same. exact Hs.
Qed.

Lemma serve_drop_empty (evs : list (event * string)) :
  forall s w,
  same_state (snd (serve evs s w)) (snd (serve (drop_empty evs) s w))
  /\ (fst (serve evs s w) = fst (serve (drop_empty evs) s w)
      \/ fst (serve evs s w) = Crashed not_connected).
Proof.
  induction evs as [|[ev now] evs IH]; intros s w.
  - split; [apply same_state_refl | left; reflexivity].
  - destruct (is_empty_text (ev, now)) eqn:Eempty.
    + assert (Hev : ev = Recv "").
      { unfold is_empty_text in Eempty. cbn in Eempty.
        destruct ev as [[|c l]|]; [reflexivity | discriminate | discriminate]. }
      subst ev. cbn [drop_empty]. rewrite Eempty.
      cbn [serve]. destruct (connected w) eqn:Hc.
      * rewrite handle_text_empty.
        destruct (serve_same evs s (send_text "[error] Empty message" (note_received "" w)) w)
          as [H1 H2]; [repeat split |].
        destruct (IH s w) as [H3 H4]. rewrite H1. split; [| exact H4].
        eapply same_state_trans; eassumption.
      * split; [| right; reflexivity]. cbn [snd].
        destruct (drop_empty evs) as [|[ev' now'] rest]; [apply same_state_refl |].
        cbn [serve]. rewrite Hc. apply same_state_refl.
    + cbn [drop_empty]. rewrite Eempty.
      cbn [serve]. destruct (connected w); [| split; [apply same_state_refl | left; reflexivity]].
      destruct ev as [line|]; [| split; [apply same_state_refl | left; reflexivity]].
      destruct (handle_text line now s w) as [s' w']. apply IH.
Qed.

(** X3. Empty text frames leave no trace but on the socket: the store, the calls
    made to the completion client and the state of the connection at the end
    are the ones of the same connection without them, and so is the way the
    handler ends, unless the empty frame is what the handler tried to read
    after it had closed the socket. *)
Theorem empty_texts_leave_no_trace (params : list (string * string)) (uuid now : string)
    (evs : list (event * string)) (w0 : world) :
  let run := websocket_endpoint params uuid now evs w0 in
  let run' := websocket_endpoint params uuid now (drop_empty evs) w0 in
  files (snd run) = files (snd run')
  /\ calls (snd run) = calls (snd run')
  /\ connected (snd run) = connected (snd run')
  /\ (fst run = fst run' \/ fst run = Crashed not_connected).
Proof.
  cbv zeta. unfold websocket_endpoint.
  destruct (open_session params uuid now w0) as [[s w]|e].
  - destruct (serve_drop_empty evs s w) as [(H1 & H2 & H3) H4]. auto.
  - cbn. auto.
Qed.

End Handler.

Section Records.

Context {env : Env}.

Lemma get_interview_dict (id : string) (fs : gmap string string)
    (d r : list (string * json)) :
  load_db fs = JDict d -> dict_get id d = Some (JDict r) -> r <> [] ->
  get_interview id fs = Ok (JDict r).
Proof.
  intros Hl Hg Hr. unfold get_interview. rewrite Hl. cbn [py_get]. unfold field.
  rewrite Hg. cbn. destruct r; [congruence | reflexivity].
Qed.

Lemma get_interview_same (id : string) (fs fs' : gmap string string)
    (d d' : list (string * json)) :
  load_db fs = JDict d -> load_db fs' = JDict d' -> dict_get id d' = dict_get id d ->
  get_interview id fs' = get_interview id fs.
Proof.
  intros Hl Hl' Hg. unfold get_interview. rewrite Hl, Hl'. cbn [py_get]. unfold field.
  rewrite Hg. reflexivity.
Qed.

(** X4. The record of a session can be read back as soon as the session is
    opened: on a store that reads as a mapping the handler opens the session,
    greets the candidate by the name the connection gave and announces the
    identifier, and a request for that identifier returns the nine fields
    written at the start, with the configuration the connection asked for. *)
Theorem opened_record_retrievable (params : list (string * string)) (uuid now : string)
    (w : world) (d0 : list (string * json)) :
  load_db (files w) = JDict d0 ->
  exists s w',
    open_session params uuid now w = Ok (s, w')
    /\ wire w'
       = (wire w ++ [Sent (greeting_for (param_or "name" params DEFAULT_CANDIDATE_NAME));
                     Sent ("[INTERVIEW_ID] " +:+ uuid)])%list
    /\ get_interview uuid (files w')
       = Ok (JDict [("id", JStr uuid);
                    ("job_description", JStr (param_or "job" params DEFAULT_JOB_DESCRIPTION));
                    ("experience_required",
                     JStr (param_or "exp" params DEFAULT_EXPERIENCE_REQUIRED));
                    ("candidate_name", JStr (param_or "name" params DEFAULT_CANDIDATE_NAME));
                    ("created_at", JStr (now +:+ "Z"));
                    ("messages", JList []);
                    ("transcript", JNull);
                    ("summary", JNull);
                    ("score", JNull)]).
Proof.
  intros Hd. pose proof (open_session_ok params uuid now w d0 Hd) as Ho.
  unfold config_of in Ho. cbv zeta in Ho. destruct Ho as [Ho Hl].
  eexists _, _. split; [exact Ho |]. split; [reflexivity |]. unfold initial_record in Hl.
  eapply get_interview_dict; [exact Hl | apply dict_get_set_eq | discriminate].
Qed.

Lemma param_or_default (k : string) (params : list (string * string)) (default : string) :
  params_get k params = None \/ params_get k params = Some "" ->
  param_or k params default = default.
Proof. unfold param_or. intros [-> | ->]; reflexivity. Qed.

(** X5. A connection whose query gives no value, or an empty one, for the job,
    the experience and the name is served with the defaults of the process:
    the greeting addresses the default name, the system prompt is built from
    the default job and experience, and the record holds the three
    defaults. *)
Theorem missing_parameters_take_defaults (params : list (string * string))
    (uuid now : string) (w : world) (d0 : list (string * json)) :
  load_db (files w) = JDict d0 ->
  (forall k, In k ["job"; "exp"; "name"] ->
             params_get k params = None \/ params_get k params = Some "") ->
  exists s w',
    open_session params uuid now w = Ok (s, w')
    /\ wire w' = (wire w ++ [Sent (greeting_for DEFAULT_CANDIDATE_NAME);
                             Sent ("[INTERVIEW_ID] " +:+ uuid)])%list
    /\ messages s
       = [ChatMsg "system"
            (build_system_prompt DEFAULT_JOB_DESCRIPTION DEFAULT_EXPERIENCE_REQUIRED);
          ChatMsg "assistant" (greeting_for DEFAULT_CANDIDATE_NAME)]
    /\ get_interview uuid (files w')
       = Ok (initial_record uuid DEFAULT_JOB_DESCRIPTION DEFAULT_EXPERIENCE_REQUIRED
               DEFAULT_CANDIDATE_NAME now).
Proof.
  intros Hd Hp. pose proof (open_session_ok params uuid now w d0 Hd) as Ho.
  unfold config_of in Ho. cbv zeta in Ho.
  rewrite !param_or_default in Ho by (apply Hp; cbn; auto).
  destruct Ho as [Ho Hl].
  eexists _, _. split; [exact Ho |]. cbn [wire messages]. split; [reflexivity |].
  split; [reflexivity |].
  unfold initial_record in *.
  eapply get_interview_dict; [exact Hl | apply dict_get_set_eq | discriminate].
Qed.

(** X6. While an interview is running its record has no transcript, so the
    three evaluation endpoints refuse the session with status 400: nothing
    is asked of the completion client and nothing is written. *)
Theorem no_evaluation_before_transcript (params : list (string * string))
    (uuid now0 now : string) (w0 : world) (d0 : list (string * json))
    (texts : list (string * string)) (s : session) (w : world) :
  load_db (files w0) = JDict d0 ->
  websocket_endpoint params uuid now0 (receive_all texts) w0 = (Serving s, w) ->
  ended s = false ->
  get_summary uuid now w = (Raise no_transcript, w)
  /\ get_score uuid now w = (Raise no_transcript, w)
  /\ get_score_simple uuid now w = (Raise no_transcript, w).
Proof.
  intros Hd Hrun He.
  pose proof (open_session_ok params uuid now0 w0 d0 Hd) as Ho.
  unfold config_of in Ho. cbv zeta in Ho. destruct Ho as [Ho Hl].
  unfold websocket_endpoint in Hrun. rewrite Ho in Hrun.
  match type of Ho with _ = Ok (?a, ?b) => set (s0 := a) in *; set (w1 := b) in * end.
  destruct (serve_active_keeps texts s0 w1 s w Hrun He) as (_ & Kf & _).
  rewrite <- Kf in Hl.
  assert (Hitem : py_get uuid (load_db (files w))
                  = Ok (initial_record uuid (param_or "job" params DEFAULT_JOB_DESCRIPTION)
                          (param_or "exp" params DEFAULT_EXPERIENCE_REQUIRED)
                          (param_or "name" params DEFAULT_CANDIDATE_NAME) now0)).
  { rewrite Hl. cbn [py_get]. unfold field. rewrite dict_get_set_eq. reflexivity. }
  assert (Hs : get_score uuid now w = (Raise no_transcript, w)).
  { unfold get_score. cbv zeta. rewrite Hitem. reflexivity. }
  split; [| split; [exact Hs |]].
  - unfold get_summary. cbv zeta. rewrite Hitem. reflexivity.
  - unfold get_score_simple. rewrite Hitem. cbn -[get_score]. rewrite Hs. reflexivity.
Qed.

(** X7. At the turn limit the handler writes the transcript only if the store
    still has the record of the session.  If the record is gone the store is
    left as it is, and the client is told all the same that the transcript
    was saved, after which the socket is closed. *)
Theorem saved_notice_without_record (t now : string) (s : session) (w : world)
    (d : list (string * json)) :
  t <> "" -> ended s = false -> max_assistant_turns <= S (assistant_turns s) ->
  load_db (files w) = JDict d -> dict_get (interview_id s) d = None ->
  let s' := fst (handle_text t now s w) in
  let w' := snd (handle_text t now s w) in
  let a := answer_of (client (length (calls w)) (messages s ++ [ChatMsg "user" t])%list) in
  files w' = files w
  /\ connected w' = false
  /\ ended s' = true
  /\ wire w' = (wire w ++ [Received t; Sent a; Sent closing;
                           Sent "[INFO] Interview transcript saved."])%list.
Proof.
  intros Ht He Hge Hl Hg. cbv zeta.
  pose proof (handle_text_limit t now s w Ht He Hge) as Hh.
  pose proof (replied_fields t s w) as Hr. cbv zeta in Hr.
  destruct (replied t s w) as [s1 w1]. cbv zeta in Hh.
  destruct Hr as (_ & _ & _ & _ & Hid & _ & _ & _ & Hw & Hf & _).
  assert (Hst : store_transcript (set_ended (say "assistant" closing s1)) now
                  (files (send_text closing w1)) = Ok (files w)).
  { unfold store_transcript. cbn [files send_text interview_id set_ended say].
    rewrite Hf, Hl, Hid. cbn [py_contains]. unfold dict_has. rewrite Hg. reflexivity. }
  rewrite Hst in Hh. rewrite Hh. cbn. rewrite Hw, <- !app_assoc. cbn. auto.
Qed.



End Records.

(** * The evaluation endpoints *)

Section Evaluation.

Context {env : Env}.

Lemma truthy_record (r : list (string * json)) : r <> [] -> truthy (JDict r) = true.
Proof. destruct r; [congruence | reflexivity]. Qed.

Lemma field_some_nonempty (k : string) (r : list (string * json)) (v : json) :
  field k r = v -> v <> JNull -> r <> [].
Proof. intros H Hv ->. cbn in H. congruence. Qed.

Lemma dict_set_nonempty (k : string) (v : json) (m : list (string * json)) :
  dict_set k v m <> [].
Proof.
  destruct m as [|[k' v'] m]; cbn; [discriminate |].
  destruct (String.eqb k k'); discriminate.
Qed.

Lemma truthy_text (t : string) : t <> "" -> truthy (JStr t) = true.
Proof. destruct t; [congruence | reflexivity]. Qed.

(** The store after a record has been replaced. *)
Lemma load_after_update (fs : gmap string string) (d r' : list (string * json))
    (id : string) :
  load_db fs = JDict d -> canonical (JDict r') = true ->
  load_db (save_db (JDict (dict_set id (JDict r') d)) fs) = JDict (dict_set id (JDict r') d).
Proof.
  intros Hl Hc. apply load_save. apply canonical_dict_set; [| exact Hc].
  eapply load_db_dict_canonical. exact Hl.
Qed.

Lemma stored_record_canonical (fs : gmap string string) (d r : list (string * json))
    (id : string) :
  load_db fs = JDict d -> dict_get id d = Some (JDict r) -> canonical (JDict r) = true.
Proof.
  intros Hl Hg. eapply canonical_dict_get; [| exact Hg].
  eapply load_db_dict_canonical. exact Hl.
Qed.

Lemma get_summary_record (id now : string) (w : world) (d r : list (string * json)) :
  load_db (files w) = JDict d -> dict_get id d = Some (JDict r) -> r <> [] ->
  get_summary id now w =
  if truthy (field "summary" r) then (Ok (summary_response id (field "summary" r)), w)
  else if negb (truthy (field "transcript" r)) then (Raise no_transcript, w)
  else
    match field "transcript" r with
    | JStr tr =>
      match completion_text (client (length (calls w)) (summary_messages tr)) with
      | Ok summary =>
        (Ok (summary_response id (JStr summary)),
         World (save_db (JDict (dict_set id
                  (JDict (dict_set "updated_at" (JStr (now +:+ "Z"))
                            (dict_set "summary" (JStr summary) r))) d)) (files w))
               (wire w) (connected w) (calls w ++ [summary_messages tr]))
      | Raise e =>
        (Raise (HTTPException 500 "Failed to generate summary: " (Some e)),
         World (files w) (wire w) (connected w) (calls w ++ [summary_messages tr]))
      end
    | other =>
      (Raise (TypeError ("can only concatenate str (not "
                         +:+ quoted (type_name other) +:+ ") to str")), w)
    end.
Proof.
  intros Hl Hg Hr. unfold get_summary. cbv zeta. rewrite Hl. cbn [py_get].
  assert (Hitem : field id d = JDict r) by (unfold field; rewrite Hg; reflexivity).
  rewrite !Hitem. rewrite (truthy_record r Hr). cbn [negb].
  destruct (truthy (field "summary" r)); [reflexivity |].
  destruct (truthy (field "transcript" r)); [| reflexivity]. cbn [negb].
  destruct (field "transcript" r); try reflexivity.
  unfold chat_completion.
  destruct (completion_text (client (length (calls w)) (summary_messages s))); reflexivity.
Qed.

(** X9. A summary request for a record that has a transcript and no summary
    asks the completion client once, answers with the stripped reply and
    stores it in the record together with the time; the other fields of the
    record and the other records are kept.  If the reply is not blank, every
    later request is answered from the record: same answer, no call, no
    write. *)
Theorem summary_is_stored_once (id now : string) (w : world)
    (d r : list (string * json)) (tr body : string) :
  load_db (files w) = JDict d -> dict_get id d = Some (JDict r) ->
  truthy (field "summary" r) = false ->
  field "transcript" r = JStr tr -> tr <> "" ->
  client (length (calls w)) (summary_messages tr) = Reply (Some body) ->
  let summary := strip body in
  let w' := snd (get_summary id now w) in
  fst (get_summary id now w) = Ok (JDict [("id", JStr id); ("summary", JStr summary)])
  /\ calls w' = (calls w ++ [summary_messages tr])%list
  /\ get_interview id (files w')
     = Ok (JDict (dict_set "updated_at" (JStr (now +:+ "Z"))
                    (dict_set "summary" (JStr summary) r)))
  /\ (forall other, other <> id ->
        get_interview other (files w') = get_interview other (files w))
  /\ (summary <> "" ->
      forall now2, get_summary id now2 w'
                   = (Ok (JDict [("id", JStr id); ("summary", JStr summary)]), w')).
Proof.
  intros Hl Hg Hs Htr Hne Hc. cbv zeta.
  assert (Hr : r <> []) by (eapply field_some_nonempty; [exact Htr | discriminate]).
  rewrite (get_summary_record id now w d r Hl Hg Hr).
  rewrite Hs, Htr, (truthy_text tr Hne), Hc. cbn [negb completion_text fst snd calls files].
  set (r' := dict_set "updated_at" (JStr (now +:+ "Z")) (dict_set "summary" (JStr (strip body)) r)).
  assert (Hcr : canonical (JDict r') = true).
  { subst r'. repeat apply canonical_dict_set; try reflexivity.
    eapply stored_record_canonical; eassumption. }
  pose proof (load_after_update (files w) d r' id Hl Hcr) as Hl'.
  assert (Hr' : r' <> []) by apply dict_set_nonempty.
  split; [reflexivity |]. split; [reflexivity |].
  split; [eapply get_interview_dict; [exact Hl' | apply dict_get_set_eq | exact Hr'] |].
  split.
  - intros other Ho. eapply get_interview_same; [exact Hl | exact Hl' |].
    apply dict_get_set_ne. congruence.
  - intros Hsum now2.
    match goal with |- get_summary _ _ ?w1 = _ => set (w' := w1) end.
    rewrite (get_summary_record id now2 w' _ r' Hl' (dict_get_set_eq _ _ _) Hr').
    assert (Hf : field "summary" r' = JStr (strip body)).
    { subst r'. unfold field. rewrite dict_get_set_ne by discriminate.
      rewrite dict_get_set_eq. reflexivity. }
    rewrite Hf, (truthy_text _ Hsum). reflexivity.
Qed.

(** X10. If the call for a summary fails, or its reply has no content, the
    request fails with status 500 and the store is left as it was. *)
Theorem failed_summary_not_stored (id now : string) (w : world)
    (d r : list (string * json)) (tr : string) (e : pyexn) :
  load_db (files w) = JDict d -> dict_get id d = Some (JDict r) ->
  truthy (field "summary" r) = false ->
  field "transcript" r = JStr tr -> tr <> "" ->
  completion_text (client (length (calls w)) (summary_messages tr)) = Raise e ->
  fst (get_summary id now w)
  = Raise (HTTPException 500 "Failed to generate summary: " (Some e))
  /\ files (snd (get_summary id now w)) = files w.
Proof.
  intros Hl Hg Hs Htr Hne Hc.
  assert (Hr : r <> []) by (eapply field_some_nonempty; [exact Htr | discriminate]).
  rewrite (get_summary_record id now w d r Hl Hg Hr).
  rewrite Hs, Htr, (truthy_text tr Hne), Hc. split; reflexivity.
Qed.

(** X11. A blank reply is stored as the empty summary, which the endpoint does
    not take for a summary: the next request asks the completion client
    again. *)
Theorem blank_summary_asked_again (id now now2 : string) (w : world)
    (d r : list (string * json)) (tr body : string) :
  load_db (files w) = JDict d -> dict_get id d = Some (JDict r) ->
  truthy (field "summary" r) = false ->
  field "transcript" r = JStr tr -> tr <> "" ->
  client (length (calls w)) (summary_messages tr) = Reply (Some body) ->
  strip body = "" ->
  let w' := snd (get_summary id now w) in
  fst (get_summary id now w) = Ok (JDict [("id", JStr id); ("summary", JStr "")])
  /\ calls (snd (get_summary id now2 w'))
     = (calls w ++ [summary_messages tr; summary_messages tr])%list.
Proof.
  intros Hl Hg Hs Htr Hne Hc Hb. cbv zeta.
  assert (Hr : r <> []) by (eapply field_some_nonempty; [exact Htr | discriminate]).
  rewrite (get_summary_record id now w d r Hl Hg Hr).
  rewrite Hs, Htr, (truthy_text tr Hne), Hc. cbn [negb completion_text fst snd]. rewrite Hb.
  split; [reflexivity |].
  set (r' := dict_set "updated_at" (JStr (now +:+ "Z")) (dict_set "summary" (JStr "") r)).
  assert (Hcr : canonical (JDict r') = true).
  { subst r'. repeat apply canonical_dict_set; try reflexivity.
    eapply stored_record_canonical; eassumption. }
  pose proof (load_after_update (files w) d r' id Hl Hcr) as Hl'.
  assert (Hr' : r' <> []) by apply dict_set_nonempty.
  match goal with |- calls (snd (get_summary _ _ ?w1)) = _ => set (w' := w1) end.
  rewrite (get_summary_record id now2 w' _ r' Hl' (dict_get_set_eq _ _ _) Hr').
  assert (Hf : field "summary" r' = JStr "").
  { subst r'. unfold field. rewrite dict_get_set_ne by discriminate.
    rewrite dict_get_set_eq. reflexivity. }
  assert (Hft : field "transcript" r' = JStr tr).
  { subst r'. unfold field. rewrite !dict_get_set_ne by discriminate. exact Htr. }
  rewrite Hf, Hft, (truthy_text tr Hne). cbn [truthy negb].
  destruct (completion_text _); subst w'; cbn; rewrite <- app_assoc; reflexivity.
Qed.

End Evaluation.

(** ** The score *)

Lemma accepted_normal (v : option json) :
  accepted_value v = true ->
  exists z, normal_value v = JInt z /\ (1 <= z <= 10)%Z.
Proof.
  destruct v as [[ | b | z | lit | t | l | m]|]; cbn; try discriminate.
  - unfold in_score_range. intros H. apply andb_prop in H as [H1 H2].
    exists z. split; [reflexivity |]. apply Z.leb_le in H1, H2. lia.
  - intros H. apply andb_prop in H as [_ H].
    destruct (int_of_digits t) as [z|]; [|discriminate].
    unfold in_score_range in H. apply andb_prop in H as [H1 H2].
    exists z. split; [reflexivity |]. apply Z.leb_le in H1, H2. lia.
Qed.

Lemma norm_bucket_accepts (d : list (string * json)) (key : string) :
  accepted_value (claimed_value (JDict d) key) = true ->
  _norm_bucket d key = Ok (normal_bucket (JDict d) key).
Proof.
  unfold _norm_bucket, normal_bucket, claimed_value, field, py_or.
  cbn [mbind pyresult_bind].
  destruct (dict_get key d) as [x|]; [|discriminate].
  destruct x as [ | | | | | | b]; try discriminate.
  destruct (dict_get "value" b) as [val|] eqn:Ev; [|discriminate].
  assert (Hb : truthy (JDict b) = true) by (destruct b; [discriminate | reflexivity]).
  rewrite Hb. cbn [py_get mbind pyresult_bind]. unfold field. rewrite Ev.
  destruct val as [ | bv | z | lit | t | l | m]; cbn [accepted_value]; try discriminate.
  - unfold in_score_range. intros H. apply andb_prop in H as [H1 H2].
    apply Z.leb_le in H1, H2. cbn [mbind pyresult_bind normal_value].
    destruct (Z.ltb_spec z 1); [lia |]. destruct (Z.ltb_spec 10 z); [lia |]. reflexivity.
  - intros H. apply andb_prop in H as [Hd H]. rewrite Hd. cbn [normal_value].
    destruct (int_of_digits t) as [z|]; [|discriminate]. cbn [mbind pyresult_bind].
    unfold in_score_range in H. apply andb_prop in H as [H1 H2].
    apply Z.leb_le in H1, H2.
    destruct (Z.ltb_spec z 1); [lia |]. destruct (Z.ltb_spec 10 z); [lia |]. reflexivity.
Qed.


Lemma all_accepted_dict (data : json) :
  all_accepted data = true -> exists d, data = JDict d.
Proof. destruct data; try discriminate. eauto. Qed.

Lemma build_breakdown_accepts (data : json) :
  all_accepted data = true -> build_breakdown data = Ok (normal_breakdown data).
Proof.
  intros H. destruct (all_accepted_dict data H) as [d ->].
  unfold all_accepted in H. cbn [forallb score_keys] in H.
  apply andb_prop in H as [H1 H]. apply andb_prop in H as [H2 H].
  apply andb_prop in H as [H3 H]. apply andb_prop in H as [H4 H].
  apply andb_prop in H as [H5 _].
  unfold build_breakdown.
  rewrite (norm_bucket_accepts d _ H1), (norm_bucket_accepts d _ H2),
    (norm_bucket_accepts d _ H3), (norm_bucket_accepts d _ H4), (norm_bucket_accepts d _ H5).
  cbn [mbind pyresult_bind]. unfold normal_breakdown, normal_steps, py_or.
  destruct (field "next_steps" d) as [ | b | z | lit | t | l | m]; try reflexivity;
    cbn [truthy].
  - destruct b; reflexivity.
  - destruct (negb (z =? 0)%Z); reflexivity.
  - destruct (match lit with "" => false | String c _ => _ end); reflexivity.
  - destruct t; reflexivity.
  - destruct l; reflexivity.
  - destruct m; reflexivity.
Qed.

Lemma parse_score_canonical (s : string) (v : json) :
  _parse_score s = Some v -> canonical v = true.
Proof.
  unfold _parse_score. destruct (json_loads s) eqn:E.
  - intros H. inversion H; subst. eapply json_loads_canonical; eassumption.
  - destruct (search_object s); [| discriminate]. apply json_loads_canonical.
Qed.

Lemma canonical_field (k : string) (d : list (string * json)) :
  canonical (JDict d) = true -> canonical (field k d) = true.
Proof.
  intros H. unfold field. destruct (dict_get k d) eqn:E; [| reflexivity].
  eapply canonical_dict_get; eassumption.
Qed.

Lemma canonical_normal_breakdown (data : json) :
  all_accepted data = true -> canonical data = true ->
  canonical (JDict (normal_breakdown data)) = true.
Proof.
  intros H Hc. destruct (all_accepted_dict data H) as [d ->].
  unfold all_accepted in H. cbn [forallb score_keys] in H.
  apply andb_prop in H as [H1 H]. apply andb_prop in H as [H2 H].
  apply andb_prop in H as [H3 H]. apply andb_prop in H as [H4 H].
  apply andb_prop in H as [H5 _].
  apply accepted_normal in H1 as (z1 & E1 & _), H2 as (z2 & E2 & _), H3 as (z3 & E3 & _),
    H4 as (z4 & E4 & _), H5 as (z5 & E5 & _).
  unfold normal_breakdown, normal_bucket. rewrite E1, E2, E3, E4, E5.
  assert (Hs : canonical (normal_steps (JDict d)) = true).
  { unfold normal_steps. pose proof (canonical_field "next_steps" d Hc) as Hf.
    destruct (field "next_steps" d); try reflexivity. exact Hf. }
  cbn -[normal_steps]. rewrite Hs. reflexivity.
Qed.

Section ScoreEndpoints.

Context {env : Env}.

(** The record a successful score request leaves. *)
Lemma get_score_accepts (id now : string) (w : world)
    (d r : list (string * json)) (tr body : string) (data : json) :
  load_db (files w) = JDict d -> dict_get id d = Some (JDict r) ->
  truthy (field "score_breakdown" r) = false ->
  field "transcript" r = JStr tr -> tr <> "" ->
  client (length (calls w))
    (score_messages (score_prompt (field "job_description" r)
                                  (field "experience_required" r) tr))
  = Reply (Some body) ->
  _parse_score (strip body) = Some data ->
  all_accepted data = true ->
  let r' := dict_set "updated_at" (JStr (now +:+ "Z"))
              (dict_set "score" (normal_value (claimed_value data "overall"))
                 (dict_set "score_breakdown" (JDict (normal_breakdown data)) r)) in
  let w' := World (save_db (JDict (dict_set id (JDict r') d)) (files w))
              (wire w) (connected w)
              (calls w ++ [score_messages
                             (score_prompt (field "job_description" r)
                                (field "experience_required" r) tr)]) in
  get_score id now w = (Ok (score_response id (normal_breakdown data)), w')
  /\ load_db (files w') = JDict (dict_set id (JDict r') d)
  /\ py_get id (load_db (files w')) = Ok (JDict r')
  /\ r' <> []
  /\ field "score_breakdown" r' = JDict (normal_breakdown data)
  /\ field "score" r' = normal_value (claimed_value data "overall")
  /\ exists z, normal_value (claimed_value data "overall") = JInt z /\ (1 <= z <= 10)%Z.
Proof.
  intros Hl Hg Hsb Htr Hne Hc Hp Ha. cbv zeta.
  assert (Hr : r <> []) by (eapply field_some_nonempty; [exact Htr | discriminate]).
  assert (Hitem : field id d = JDict r) by (unfold field; rewrite Hg; reflexivity).
  pose proof (build_breakdown_accepts data Ha) as Hb.
  set (nb := normal_breakdown data) in *.
  set (ov := normal_value (claimed_value data "overall")).
  set (r' := dict_set "updated_at" (JStr (now +:+ "Z"))
               (dict_set "score" ov (dict_set "score_breakdown" (JDict nb) r))).
  assert (Hov : exists z, ov = JInt z /\ (1 <= z <= 10)%Z).
  { apply accepted_normal. unfold all_accepted in Ha. cbn [forallb score_keys] in Ha.
    apply andb_prop in Ha as [Ha _]. exact Ha. }
  assert (Hcr : canonical (JDict r') = true).
  { subst r'. destruct Hov as (z & -> & _).
    repeat apply canonical_dict_set; try reflexivity.
    - eapply stored_record_canonical; eassumption.
    - apply canonical_normal_breakdown; [exact Ha |]. eapply parse_score_canonical; exact Hp. }
  pose proof (load_after_update (files w) d r' id Hl Hcr) as Hl'.
  split.
  { unfold get_score. cbv zeta. rewrite Hl. cbn [py_get]. rewrite !Hitem.
    rewrite (truthy_record r Hr), Hsb, Htr, (truthy_text tr Hne). cbn [negb].
    unfold chat_completion. rewrite Hc. cbn [completion_text mbind pyresult_bind].
    rewrite Hp, Hb. reflexivity. }
  cbn [files]. split; [exact Hl' |]. split.
  { rewrite Hl'. cbn [py_get]. unfold field. rewrite dict_get_set_eq. reflexivity. }
  split; [apply dict_set_nonempty |]. split.
  { subst r'. unfold field. rewrite !dict_get_set_ne by discriminate.
    rewrite dict_get_set_eq. reflexivity. }
  split; [| exact Hov].
  subst r'. unfold field. rewrite dict_get_set_ne by discriminate.
  rewrite dict_get_set_eq. reflexivity.
Qed.


(** X14. The simple score of a record that has neither a score nor a breakdown
    is computed through the breakdown request: what the simple request
    answers is the overall value of the breakdown, an integer from 1 to 10,
    and the store is left as the breakdown request leaves it. *)
Theorem simple_score_through_breakdown (id now : string) (w : world)
    (d r : list (string * json)) (tr body : string) (data : json) :
  load_db (files w) = JDict d -> dict_get id d = Some (JDict r) ->
  field "score" r = JNull ->
  truthy (field "score_breakdown" r) = false ->
  field "transcript" r = JStr tr -> tr <> "" ->
  client (length (calls w))
    (score_messages (score_prompt (field "job_description" r)
                                  (field "experience_required" r) tr))
  = Reply (Some body) ->
  _parse_score (strip body) = Some data ->
  all_accepted data = true ->
  let overall := normal_value (claimed_value data "overall") in
  get_score_simple id now w = (Ok (simple_response id overall), snd (get_score id now w))
  /\ (exists z, overall = JInt z /\ (1 <= z <= 10)%Z)
  /\ calls (snd (get_score_simple id now w))
     = (calls w ++ [score_messages (score_prompt (field "job_description" r)
                                      (field "experience_required" r) tr)])%list.
Proof.
  intros Hl Hg Hsc Hsb Htr Hne Hc Hp Ha. cbv zeta.
  destruct (get_score_accepts id now w d r tr body data Hl Hg Hsb Htr Hne Hc Hp Ha)
    as (Hrun & Hl' & Hitem' & Hr' & Hfb & Hfs & Hov).
  cbv zeta in *.
  match type of Hl' with load_db (files ?w1) = JDict (dict_set _ (JDict ?x) _) =>
    set (w' := w1) in *; set (r' := x) in * end.
  assert (Hr : r <> []) by (eapply field_some_nonempty; [exact Htr | discriminate]).
  assert (Hsimple : get_score_simple id now w
                    = (Ok (simple_response id (normal_value (claimed_value data "overall"))),
                       w')).
  { unfold get_score_simple. rewrite Hl. cbn [py_get].
    assert (Hitem : field id d = JDict r) by (unfold field; rewrite Hg; reflexivity).
    rewrite Hitem, (truthy_record r Hr). cbn [negb py_get]. rewrite Hsc, Hrun, Hitem'.
    cbn [mbind pyresult_bind]. unfold py_or. rewrite (truthy_record r' Hr').
    cbn [py_get mbind pyresult_bind]. rewrite Hfs. reflexivity. }
  rewrite Hsimple, Hrun. cbn [snd]. split; [reflexivity |]. split; [exact Hov |].
  reflexivity.
Qed.

End ScoreEndpoints.

(** ** The transcript *)

Lemma join_tail_app (sep : string) (a b : list string) :
  join_tail sep (a ++ b)%list = join_tail sep a +:+ join_tail sep b.
Proof.
  induction a as [|x a IH]; cbn [app join_tail].
  - rewrite str_app_nil_l. reflexivity.
  - rewrite IH, !str_app_assoc. reflexivity.
Qed.

(** X15. The transcript of two logs put one after the other is the transcript of
    the first, a line break and the transcript of the second: a message
    appended to the log adds one line at the end and changes nothing of what
    was there. *)
Theorem transcript_of_appended_logs (a b : list log_entry) :
  a <> [] -> b <> [] ->
  flatten_transcript (a ++ b)%list
  = flatten_transcript a +:+ String newline "" +:+ flatten_transcript b.
Proof.
  intros Ha Hb. destruct a as [|x a]; [congruence |]. destruct b as [|y b]; [congruence |].
  unfold flatten_transcript. cbn [app map str_join]. rewrite map_app. cbn [map].
  rewrite join_tail_app. cbn [join_tail]. rewrite !str_app_assoc. reflexivity.
Qed.

Lemma flatten_transcript_nonempty (log : list log_entry) :
  log <> [] -> flatten_transcript log <> "".
Proof.
  destruct log as [|[who line] log]; [congruence |]. intros _.
  unfold flatten_transcript. cbn [map str_join speaker text].
  destruct who as [|c who].
  - rewrite str_app_nil_l, !str_app_cons. discriminate.
  - rewrite !str_app_cons. discriminate.
Qed.

Section Interrupted.

Context {env : Env}.

(** The record a disconnect leaves for a session opened on a store that
    reads as a mapping. *)
Lemma disconnected_record (params : list (string * string))
    (uuid now0 now1 : string) (w0 : world) (d0 : list (string * json))
    (texts : list (string * string)) (s : session) (w : world) :
  load_db (files w0) = JDict d0 ->
  websocket_endpoint params uuid now0 (receive_all texts) w0 = (Serving s, w) ->
  ended s = false ->
  let w' := handle_disconnect now1 s w in
  exists d' rec,
    load_db (files w') = JDict d'
    /\ dict_get uuid d' = Some (JDict rec)
    /\ conversation_log s <> []
    /\ calls w' = calls w
    /\ dict_get "messages" rec = Some (log_json (conversation_log s))
    /\ dict_get "transcript" rec = Some (JStr (flatten_transcript (conversation_log s)))
    /\ dict_get "summary" rec = Some JNull
    /\ dict_get "score" rec = Some JNull
    /\ dict_get "score_breakdown" rec = None
    /\ dict_get "job_description" rec
       = Some (JStr (param_or "job" params DEFAULT_JOB_DESCRIPTION))
    /\ dict_get "experience_required" rec
       = Some (JStr (param_or "exp" params DEFAULT_EXPERIENCE_REQUIRED)).
Proof.
  intros Hd Hrun He w'.
  pose proof (open_session_ok params uuid now0 w0 d0 Hd) as Ho.
  unfold config_of in Ho. cbv zeta in Ho. destruct Ho as [Ho Hl1].
  unfold initial_record in Ho, Hl1.
  match type of Ho with _ = Ok (?a, ?b) => set (s0 := a) in *; set (w1 := b) in * end.
  match type of Hl1 with _ = JDict (dict_set _ (JDict ?r) _) => set (r0 := r) in * end.
  unfold websocket_endpoint in *. rewrite Ho in *.
  destruct (serve_active_keeps texts s0 w1 s w Hrun He)
    as (_ & Kf & Kc & Ki & Kj & Ky & Kn & Kl).
  assert (Hlog : conversation_log s <> []) by (apply Kl; discriminate).
  assert (Hg : dict_get (interview_id s) (dict_set uuid (JDict r0) d0) = Some (JDict r0))
    by (rewrite Ki; apply dict_get_set_eq).
  destruct (store_on_disconnect_ok s now1 (files w) (dict_set uuid (JDict r0) d0))
    as (fs' & Hst & _ & Hl' & _); [rewrite Kf; exact Hl1 | |].
  { rewrite Hg. intros v Hv _. inversion Hv. eauto. }
  rewrite Hg in Hl'. cbv zeta in Hl'.
  pose proof (handle_disconnect_saved now1 s w fs' Hlog Hst) as Hh.
  destruct (disconnect_update_fields s now1 r0) as (F1 & F2 & F3 & F4 & F5 & F6 & F7 & F8).
  cbv zeta in *.
  exists (dict_set (interview_id s) (JDict (dict_update r0 (disconnect_update s now1)))
            (dict_set uuid (JDict r0) d0)),
         (dict_update r0 (disconnect_update s now1)).
  subst w'. rewrite Hh. cbn [set_files files calls].
  split; [exact Hl' |]. split; [rewrite Ki; apply dict_get_set_eq |].
  split; [exact Hlog |]. split; [reflexivity |].
  rewrite F2, F3, F5, F6, !F8 by reflexivity. rewrite Kj, Ky.
  repeat split; reflexivity.
Qed.

(** X16. An interview the client left before its end can be summarised: after
    the disconnect the record has the transcript of what was said, so a
    summary request asks the completion client about that transcript, answers
    with the stripped reply and stores it next to the messages. *)
Theorem interrupted_interview_summarised (params : list (string * string))
    (uuid now0 now1 now2 : string) (w0 : world) (d0 : list (string * json))
    (texts : list (string * string)) (s : session) (w : world) (body : string) :
  load_db (files w0) = JDict d0 ->
  websocket_endpoint params uuid now0 (receive_all texts) w0 = (Serving s, w) ->
  ended s = false ->
  let w1 := handle_disconnect now1 s w in
  let asked := summary_messages (flatten_transcript (conversation_log s)) in
  client (length (calls w)) asked = Reply (Some body) ->
  fst (get_summary uuid now2 w1)
  = Ok (JDict [("id", JStr uuid); ("summary", JStr (strip body))])
  /\ calls (snd (get_summary uuid now2 w1)) = (calls w ++ [asked])%list
  /\ stored_field (files (snd (get_summary uuid now2 w1))) uuid "summary"
     = Some (JStr (strip body))
  /\ stored_field (files (snd (get_summary uuid now2 w1))) uuid "messages"
     = Some (log_json (conversation_log s)).
Proof.
  intros Hd Hrun He w1 asked Hc.
  destruct (disconnected_record params uuid now0 now1 w0 d0 texts s w Hd Hrun He)
    as (d' & rec & Hl & Hg & Hlog & Hcalls & Fm & Ft & Fs & _).
  fold w1 in Hl, Hcalls.
  assert (Hrec : rec <> []) by (intros ->; discriminate).
  rewrite (get_summary_record uuid now2 w1 d' rec Hl Hg Hrec).
  unfold field. rewrite Fs, Ft.
  rewrite (truthy_text _ (flatten_transcript_nonempty _ Hlog)).
  change (truthy JNull) with false. cbn [negb].
  rewrite Hcalls. fold asked. rewrite Hc. cbn [completion_text fst snd calls files].
  split; [reflexivity |]. split; [reflexivity |].
  set (rec' := dict_set "updated_at" (JStr (now2 +:+ "Z"))
                 (dict_set "summary" (JStr (strip body)) rec)).
  assert (Hcr : canonical (JDict rec') = true).
  { subst rec'. repeat apply canonical_dict_set; try reflexivity.
    eapply stored_record_canonical; eassumption. }
  assert (Hcd : canonical (JDict (dict_set uuid (JDict rec') d')) = true).
  { apply canonical_dict_set; [| exact Hcr]. eapply load_db_dict_canonical. exact Hl. }
  rewrite !(stored_after_save _ uuid _ rec' (files w1) Hcd (dict_get_set_eq _ _ _)).
  subst rec'. split.
  - rewrite dict_get_set_ne by discriminate. apply dict_get_set_eq.
  - rewrite !dict_get_set_ne by discriminate. exact Fm.
Qed.

End Interrupted.

(** ** Reading the answer to a score request *)

Lemma from_first_app (c : ascii) (a r : string) :
  str_contains_char c a = false -> from_first c (a +:+ String c r) = Some (String c r).
Proof.
  induction a as [|x a IH]; intros H.
  - rewrite str_app_nil_l. cbn. rewrite Ascii.eqb_refl. reflexivity.
  - rewrite str_app_cons. cbn in H |- *. apply orb_false_elim in H as [H1 H2].
    rewrite Ascii.eqb_sym, H1. apply IH. exact H2.
Qed.

Lemma upto_last_snoc (c : ascii) (a : string) :
  upto_last c (a +:+ String c "") = a +:+ String c "".
Proof.
  induction a as [|x a IH].
  - rewrite str_app_nil_l. cbn. rewrite Ascii.eqb_refl. reflexivity.
  - rewrite str_app_cons. cbn [upto_last]. rewrite contains_char_app. cbn [str_contains_char].
    rewrite Ascii.eqb_refl, orb_true_r, orb_true_r, IH. reflexivity.
Qed.

Lemma search_object_framed (before inner after : string) :
  str_contains_char "{" before = false ->
  str_contains_char "}" after = false ->
  search_object (before +:+ String "{" (inner +:+ "}") +:+ after)
  = Some (String "{" (inner +:+ "}")).
Proof.
  intros Hb Ha. unfold search_object.
  rewrite str_app_cons, (from_first_app "{" before _ Hb).
  rewrite (upto_last_app "}" (inner +:+ "}") after Ha), upto_last_snoc.
  destruct inner; reflexivity.
Qed.

(** X17. An answer that wraps its JSON object in prose is read all the same:
    when the whole text is no JSON, the text from the first opening brace to
    the last closing brace is decoded instead, so words before the object
    (without an opening brace) and after it (without a closing brace) do no
    harm. *)
Theorem parse_score_skips_prose (before inner after : string) (v : json) :
  str_contains_char "{" before = false ->
  str_contains_char "}" after = false ->
  json_loads (before +:+ String "{" (inner +:+ "}") +:+ after) = None ->
  json_loads (String "{" (inner +:+ "}")) = Some v ->
  _parse_score (before +:+ String "{" (inner +:+ "}") +:+ after) = Some v.
Proof.
  intros Hb Ha Hn Hv. unfold _parse_score.
  rewrite Hn, (search_object_framed before inner after Hb Ha). exact Hv.
Qed.

(** * Text to speech *)

(** ** Paths *)

Lemma path_join_nonempty (a : string) (c : ascii) (r : string) :
  path_join a (String c r) <> "".
Proof.
  unfold path_join. destruct (Ascii.eqb c sep); [discriminate |].
  destruct a as [|x a]; [discriminate |].
  destruct (ends_with_sep (String x a)); rewrite str_app_cons; discriminate.
Qed.

Lemma basename_no_sep (p : string) : str_contains_char sep p = false -> basename p = p.
Proof. destruct p as [|c p]; [reflexivity |]. intros H. cbn [basename]. rewrite H. reflexivity. Qed.

Lemma basename_app (a b : string) :
  str_contains_char sep b = false -> basename (a +:+ b) = basename a +:+ b.
Proof.
  intros Hb. induction a as [|c a IH].
  - rewrite str_app_nil_l. cbn [basename]. rewrite str_app_nil_l. apply basename_no_sep. exact Hb.
  - rewrite str_app_cons. cbn [basename]. rewrite <- str_app_cons, contains_char_app, Hb, orb_false_r.
    destruct (str_contains_char sep (String c a)); [exact IH | reflexivity].
Qed.

Lemma dir_and_base (p : string) : upto_last sep p +:+ basename p = p.
Proof.
  induction p as [|c p IH]; [reflexivity |].
  cbn [upto_last basename str_contains_char].
  destruct (Ascii.eqb c sep) eqn:E.
  - rewrite Ascii.eqb_sym, E. cbn [orb]. rewrite str_app_cons, IH. reflexivity.
  - rewrite Ascii.eqb_sym, E. cbn [orb].
    destruct (str_contains_char sep p); [rewrite str_app_cons, IH |]; reflexivity.
Qed.

Lemma substring_all_but_last (a : string) (c : ascii) :
  substring 0 (String.length (a +:+ String c "") - 1) (a +:+ String c "") = a.
Proof.
  rewrite str_length_app. cbn [String.length]. replace (String.length a + 1 - 1) with (String.length a) by lia.
  induction a as [|x a IH]; [reflexivity |].
  rewrite str_app_cons. cbn [String.length substring]. rewrite IH. reflexivity.
Qed.

Lemma splitext_root_onnx (stem : string) :
  all_dots (basename stem) = false -> splitext_root (stem +:+ ".onnx") = stem.
Proof.
  intros Hd. unfold splitext_root.
  rewrite (upto_last_app sep stem ".onnx" eq_refl).
  rewrite (basename_app stem ".onnx" eq_refl).
  change ".onnx" with ("." +:+ "onnx"). rewrite <- str_app_assoc.
  rewrite (upto_last_app "." (basename stem +:+ ".") "onnx" eq_refl), upto_last_snoc.
  destruct (basename stem +:+ ".") as [|c r] eqn:E.
  { destruct (basename stem); discriminate. }
  rewrite <- E, substring_all_but_last, Hd. apply dir_and_base.
Qed.

Section SpeechProperties.

Context {env : Env} {host : Host}.

(** X18. The configuration of a model is looked for next to it: for a model
    [stem.onnx], the file [stem.onnx.json] if there is one, else the file
    [stem.json] if there is one; the listing of the directory is asked only
    if both are missing. *)
Theorem config_next_to_model (stem : string) (dk : disk) :
  all_dots (basename stem) = false ->
  let model := stem +:+ ".onnx" in
  (isfile (model +:+ ".json") dk = true ->
   _guess_config_from_model model dk = Some (model +:+ ".json"))
  /\ (isfile (model +:+ ".json") dk = false -> isfile (stem +:+ ".json") dk = true ->
      _guess_config_from_model model dk = Some (stem +:+ ".json"))
  /\ (isfile (model +:+ ".json") dk = false -> isfile (stem +:+ ".json") dk = false ->
      _guess_config_from_model model dk
      = first_amy (glob (path_join (dirname model) "*.json"))).
Proof.
  intros Hd model. unfold _guess_config_from_model. subst model.
  rewrite (splitext_root_onnx stem Hd), !str_app_assoc.
  change (".onnx" +:+ ".json") with ".onnx.json".
  repeat split.
  - intros ->. reflexivity.
  - intros -> ->. reflexivity.
  - intros -> ->. reflexivity.
Qed.

Lemma first_file_found (cs : list string) (dk : disk) (c : string) :
  first_file cs dk = Some c -> isfile c dk = true /\ In c cs.
Proof.
  induction cs as [|x cs IH]; [discriminate |]. cbn [first_file].
  destruct (isfile x dk) eqn:E.
  - intros H. inversion H; subst. split; [exact E | left; reflexivity].
  - intros H. destruct (IH H) as [H1 H2]. split; [exact H1 | right; exact H2].
Qed.

Lemma given_file_spec (o : option string) (dk : disk) :
  given_file o dk = true -> is_set o = true /\ isfile (text_of o) dk = true.
Proof. unfold given_file. intros H. apply andb_prop in H. exact H. Qed.

(** The voice the resolution settles on. *)
Lemma resolve_shape (voice : option string) (dk : disk) :
  let '(model, config, alias) := _resolve_model_paths voice dk in
  (is_set model = true /\ isfile (text_of model) dk = true /\ alias = None)
  \/ (model = None /\ config = None /\ is_set alias = true).
Proof.
  unfold _resolve_model_paths.
  destruct (given_file (getenv "PIPER_MODEL_PATH") dk) eqn:E1.
  { apply given_file_spec in E1 as [A B]. left. auto. }
  destruct (given_file voice dk) eqn:E2.
  { apply given_file_spec in E2 as [A B]. left. auto. }
  cbv zeta.
  destruct (first_file _ dk) as [c|] eqn:E3.
  { apply first_file_found in E3 as [A B]. left. split; [| auto].
    cbn [In] in B. destruct B as [<- | [<- | []]]; cbn [is_set];
      match goal with |- context [path_join ?a (String ?c ?r)] =>
        pose proof (path_join_nonempty a c r) as Hn;
        destruct (path_join a (String c r)); [congruence | reflexivity]
      end. }
  destruct (is_set voice && negb (str_contains_char sep (text_of voice))) eqn:E4.
  - apply andb_prop in E4 as [A _]. right. auto.
  - right. auto.
Qed.

(** X19. A synthesiser has a model that is a file, or else an alias, never
    neither: the fallback of the constructor is not used, what the
    constructor keeps is what the resolution found, and a command line can
    always be built. *)
Theorem piper_has_model_or_alias (voice : option string) (dk : disk) (tts : PiperTTS) :
  new_piper voice dk = Ok tts ->
  (model_path tts, config_path tts, alias tts) = _resolve_model_paths voice dk
  /\ ((is_set (model_path tts) = true /\ isfile (text_of (model_path tts)) dk = true
       /\ alias tts = None)
      \/ (model_path tts = None /\ config_path tts = None /\ is_set (alias tts) = true))
  /\ forall temp_path, exists cmd,
       piper_command tts temp_path = Some cmd
       /\ head cmd = Some (piper_path tts)
       /\ last cmd = Some temp_path.
Proof.
  unfold new_piper. destruct (_find_piper dk) as [path|]; [| discriminate].
  cbn [mbind pyresult_bind]. pose proof (resolve_shape voice dk) as Hs.
  destruct (_resolve_model_paths voice dk) as [[m c] a].
  assert (Hf : negb (is_set m) && negb (is_set a) = false).
  { destruct Hs as [(-> & _) | (_ & _ & ->)]; [reflexivity | apply andb_false_r]. }
  rewrite Hf. intros H. inversion H; subst. cbn [model_path config_path alias piper_path].
  split; [reflexivity |]. split; [exact Hs |].
  intros temp. unfold piper_command. cbn [model_path config_path alias piper_path].
  destruct Hs as [(Hm & _) | (-> & _ & Ha)].
  - rewrite Hm. eexists. split; [reflexivity |]. split; [reflexivity |].
    destruct (is_set c); reflexivity.
  - cbn [is_set]. destruct a as [a|]; [| discriminate].
    eexists. split; [reflexivity |]. split; reflexivity.
Qed.

Lemma unlink_quietly_other (p q : string) (dk : disk) :
  q <> p -> unlink_quietly p dk !! q = dk !! q.
Proof.
  intros Hne. unfold unlink_quietly. destruct (dk !! p) as [[c|]|]; try reflexivity.
  apply lookup_delete_ne. congruence.
Qed.

Lemma unlink_quietly_file (p : string) (dk : disk) (c : string) :
  dk !! p = Some (File c) -> unlink_quietly p dk !! p = None.
Proof. intros H. unfold unlink_quietly. rewrite H. apply lookup_delete_eq. Qed.

Lemma unlink_quietly_absent (p : string) (dk : disk) :
  dk !! p = None -> unlink_quietly p dk !! p = None.
Proof. intros H. unfold unlink_quietly. rewrite H. exact H. Qed.

(** What the run leaves at the output path is a file or nothing, and the
    other paths are as before. *)
Lemma run_piper_disk (tts : PiperTTS) (text temp_path : string) (dk : disk) (c0 : string) :
  dk !! temp_path = Some (File c0) ->
  let dk' := snd (run_piper tts text temp_path dk) in
  (forall p, p <> temp_path -> dk' !! p = dk !! p)
  /\ (dk' !! temp_path = None \/ exists c, dk' !! temp_path = Some (File c)).
Proof.
  intros H0. unfold run_piper. destruct (piper_command tts temp_path) as [cmd|].
  - destruct (run cmd text) as [outcome [content|]]; cbn [snd]; split.
    + intros p Hp. apply lookup_insert_ne. congruence.
    + right. exists content. apply lookup_insert_eq.
    + intros p Hp. apply lookup_delete_ne. congruence.
    + left. apply lookup_delete_eq.
  - cbn [snd]. split; [reflexivity |]. right. eauto.
Qed.

Lemma synthesize_spec (tts : PiperTTS) (text temp_path : string) (dk : disk) :
  dk !! temp_path = None ->
  let result := fst (synthesize_to_file tts text temp_path dk) in
  let dk' := snd (synthesize_to_file tts text temp_path dk) in
  (forall p, p <> temp_path -> dk' !! p = dk !! p)
  /\ (forall path, result = Some path ->
        path = temp_path
        /\ exists cmd stderr content,
             piper_command tts temp_path = Some cmd
             /\ run cmd text = (Completed 0 stderr, Some content)
             /\ content <> ""
             /\ dk' !! temp_path = Some (File content))
  /\ (result = None ->
      strip text = ""
      \/ (exists cmd returncode stderr,
            piper_command tts temp_path = Some cmd
            /\ fst (run cmd text) = Completed returncode stderr) ->
      dk' !! temp_path = None).
Proof.
  intros Hfresh. cbv zeta. unfold synthesize_to_file.
  destruct (strip text) as [|sc sr] eqn:Es.
  { cbn [fst snd]. split; [reflexivity |]. split; [discriminate | auto]. }
  assert (H0 : (<[temp_path := File ""]> dk : disk) !! temp_path = Some (File ""))
    by apply lookup_insert_eq.
  pose proof (run_piper_disk tts text temp_path _ "" H0) as Hrun. cbv zeta in Hrun.
  assert (Hout : forall cmd, piper_command tts temp_path = Some cmd ->
            run_piper tts text temp_path (<[temp_path := File ""]> dk)
            = (fst (run cmd text),
               match snd (run cmd text) with
               | Some content => <[temp_path := File content]> (<[temp_path := File ""]> dk)
               | None => delete temp_path (<[temp_path := File ""]> dk)
               end)).
  { intros cmd Hc. unfold run_piper. rewrite Hc. destruct (run cmd text). reflexivity. }
  assert (Hnone : piper_command tts temp_path = None ->
            fst (run_piper tts text temp_path (<[temp_path := File ""]> dk))
            = RunError (TypeError "expected str, bytes or os.PathLike object, not NoneType")).
  { intros Hc. unfold run_piper. rewrite Hc. reflexivity. }
  destruct (run_piper tts text temp_path (<[temp_path := File ""]> dk)) as [outcome dk1] eqn:Er.
  cbn [snd] in Hrun. destruct Hrun as [Hother Htemp].
  assert (Hbase : forall p, p <> temp_path -> dk1 !! p = dk !! p).
  { intros p Hp. rewrite (Hother p Hp). apply lookup_insert_ne. congruence. }
  assert (Hunlink : unlink_quietly temp_path dk1 !! temp_path = None).
  { destruct Htemp as [Hn | [c Hc]];
      [apply unlink_quietly_absent | eapply unlink_quietly_file]; eassumption. }
  destruct outcome as [rc err | | e].
  - destruct (rc =? 0)%Z eqn:Erc; cbn [negb].
    + destruct (path_exists temp_path dk1 && (0 <? getsize temp_path dk1)%nat) eqn:Eok;
        cbn [fst snd].
      * split; [exact Hbase |]. split; [| discriminate].
        intros path Hp. inversion Hp; subst path. split; [reflexivity |].
        apply Z.eqb_eq in Erc. subst rc.
        apply andb_prop in Eok as [_ Hsize]. apply Nat.ltb_lt in Hsize.
        destruct (piper_command tts temp_path) as [cmd|] eqn:Ec;
          [| specialize (Hnone eq_refl); try rewrite Er in Hnone; discriminate].
        specialize (Hout cmd eq_refl). try rewrite Er in Hout. inversion Hout as [[Ho Hd]].
        destruct (run cmd text) as [o [content|]] eqn:Erun; cbn [fst snd] in *.
        -- exists cmd, err, content. subst o. split; [reflexivity |]. split; [exact Erun |].
           assert (Hl : dk1 !! temp_path = Some (File content))
             by (rewrite Hd; apply lookup_insert_eq).
           split; [| first [exact Hl | apply lookup_insert_eq]].
           unfold getsize in Hsize. rewrite Hl in Hsize. intros ->. cbn in Hsize. lia.
        -- exfalso. unfold getsize in Hsize.
           assert (Hl : dk1 !! temp_path = None) by (rewrite Hd; apply lookup_delete_eq).
           rewrite Hl in Hsize. lia.
      * split; [intros p Hp; rewrite unlink_quietly_other by exact Hp; apply Hbase; exact Hp |].
        split; [discriminate | auto].
    + cbn [fst snd].
      split; [intros p Hp; rewrite unlink_quietly_other by exact Hp; apply Hbase; exact Hp |].
      split; [discriminate | auto].
  - cbn [fst snd]. split; [exact Hbase |]. split; [discriminate |].
    intros _ [Hb | (cmd & rc & err & Hc & Hr)]; [discriminate |].
    specialize (Hout cmd Hc). try rewrite Er in Hout. inversion Hout as [[Ho Hd]].
    rewrite Hr in Ho. discriminate.
  - cbn [fst snd]. split; [exact Hbase |]. split; [discriminate |].
    intros _ [Hb | (cmd & rc & err & Hc & Hr)]; [discriminate |].
    specialize (Hout cmd Hc). try rewrite Er in Hout. inversion Hout as [[Ho Hd]].
    rewrite Hr in Ho. discriminate.
Qed.

(** X20. A synthesis returns a path only for a file that is there and not
    empty, the one the synthesiser wrote at the temporary name; when it
    returns nothing for a blank text or after a run that came to its end, no
    temporary file is left.  No other path of the disk is touched. *)
Theorem synthesis_returns_audio_or_cleans_up (tts : PiperTTS) (text temp_path : string)
    (dk : disk) :
  dk !! temp_path = None ->
  let result := fst (synthesize_to_file tts text temp_path dk) in
  let dk' := snd (synthesize_to_file tts text temp_path dk) in
  (forall p, p <> temp_path -> dk' !! p = dk !! p)
  /\ (forall path, result = Some path ->
        path = temp_path
        /\ exists cmd stderr content,
             piper_command tts temp_path = Some cmd
             /\ run cmd text = (Completed 0 stderr, Some content)
             /\ content <> ""
             /\ dk' !! temp_path = Some (File content))
  /\ (result = None ->
      strip text = ""
      \/ (exists cmd returncode stderr,
            piper_command tts temp_path = Some cmd
            /\ fst (run cmd text) = Completed returncode stderr) ->
      dk' !! temp_path = None).
Proof. exact (synthesize_spec tts text temp_path dk). Qed.

(** X21. A run that does not come to its end (it is timed out, or it raises)
    makes the synthesis return nothing, and the temporary file stays on the
    disk as the run left it. *)
Theorem interrupted_synthesis_leaves_file (tts : PiperTTS) (text temp_path : string)
    (dk : disk) (cmd : list string) (outcome : run_outcome) (content : string) :
  strip text <> "" ->
  piper_command tts temp_path = Some cmd ->
  run cmd text = (outcome, Some content) ->
  (forall returncode stderr, outcome <> Completed returncode stderr) ->
  fst (synthesize_to_file tts text temp_path dk) = None
  /\ snd (synthesize_to_file tts text temp_path dk) !! temp_path = Some (File content).
Proof.
  intros Hs Hc Hr Hn. unfold synthesize_to_file.
  destruct (strip text) as [|sc sr]; [congruence |].
  unfold run_piper. rewrite Hc, Hr.
  destruct outcome as [rc err | | e]; [exfalso; eapply Hn; reflexivity | |];
    cbn [fst snd]; (split; [reflexivity | apply lookup_insert_eq]).
Qed.

Lemma stream_audio (path : string) (dk : disk) (content : string) :
  dk !! path = Some (File content) ->
  stream_file path dk = (Some content, delete path dk).
Proof. intros H. unfold stream_file, unlink_quietly. rewrite H. reflexivity. Qed.

(** X22. A request to [/tts]: a blank text is refused with status 400 before the
    synthesiser is looked at, and without a synthesiser a text is refused
    with status 503, the disk being left as it is; the audio of an answer is
    what the synthesiser wrote, it is not empty, and once it has been
    streamed the temporary file is gone; the stream never breaks on a missing
    file.  No other path of the disk is touched. *)
Theorem tts_request_outcomes (piper_tts : option PiperTTS) (text temp_path : string)
    (dk : disk) :
  temp_path <> "" ->
  dk !! temp_path = None ->
  let response := fst (tts_endpoint piper_tts text temp_path dk) in
  let dk' := snd (tts_endpoint piper_tts text temp_path dk) in
  (forall p, p <> temp_path -> dk' !! p = dk !! p)
  /\ (strip text = "" -> response = TtsRefused 400 "text is required" /\ dk' = dk)
  /\ (strip text <> "" -> piper_tts = None ->
      response = TtsRefused 503 "Piper TTS not available on server" /\ dk' = dk)
  /\ (forall body, response = TtsAudio body ->
        body <> "" /\ dk' !! temp_path = None
        /\ exists tts cmd stderr,
             piper_tts = Some tts
             /\ piper_command tts temp_path = Some cmd
             /\ run cmd text = (Completed 0 stderr, Some body))
  /\ response <> TtsBroken.
Proof.
  intros Hname Hfresh. cbv zeta. unfold tts_endpoint.
  destruct text as [|tc tr] eqn:Et.
  { cbn [fst snd]. repeat split; auto; try (intros; discriminate).
    match goal with H : strip "" <> "" |- _ => exfalso; apply H; reflexivity end. }
  rewrite <- Et. destruct (strip text) as [|sc sr] eqn:Es.
  { cbn [fst snd]. repeat split; auto; try (intros; discriminate). congruence. }
  destruct piper_tts as [tts|].
  2:{ cbn [fst snd]. repeat split; auto; intros; discriminate. }
  pose proof (synthesize_spec tts text temp_path dk Hfresh) as (Hother & Hsome & Hnone).
  destruct (synthesize_to_file tts text temp_path dk) as [[path|] dk1]; cbn [fst snd] in *.
  - destruct (Hsome path eq_refl) as (-> & cmd & err & content & Hc & Hr & Hne & Hl).
    assert (Hnb : is_set (Some temp_path) = true)
      by (destruct temp_path; [congruence | reflexivity]).
    rewrite Hnb. cbn [text_of]. rewrite (stream_audio temp_path dk1 content Hl).
    cbv beta iota zeta delta [fst snd]. split.
    { intros p Hp. transitivity (dk1 !! p);
        [apply lookup_delete_ne; congruence | apply Hother; exact Hp]. }
    split; [congruence |]. split; [congruence |]. split; [| discriminate].
    intros body Hb. inversion Hb; subst body. split; [exact Hne |].
    split; [apply lookup_delete_eq |]. exists tts, cmd, err. auto.
  - cbn [is_set fst snd]. repeat split; auto; try (intros; discriminate); congruence.
Qed.

Lemma first_usable_found (paths : list string) (dk : disk) (p : string) :
  first_usable paths dk = Ok p -> usable p dk = Ok true /\ In p paths.
Proof.
  induction paths as [|x paths IH]; [discriminate |]. cbn [first_usable].
  destruct (usable x dk) as [[|]|] eqn:E; cbn [mbind pyresult_bind]; [| | discriminate].
  - intros H. inversion H; subst. split; [exact E | left; reflexivity].
  - intros H. destruct (IH H) as [H1 H2]. split; [exact H1 | right; exact H2].
Qed.

Lemma find_piper_found (dk : disk) (p : string) :
  _find_piper dk = Ok p ->
  usable p dk = Ok true /\ (getenv "PIPER_BIN" = Some p \/ In p possible_paths).
Proof.
  unfold _find_piper. destruct (getenv "PIPER_BIN") as [[|c r]|].
  - intros H. apply first_usable_found in H as [H1 H2]. auto.
  - destruct (usable (String c r) dk) as [[|]|] eqn:E; cbn [mbind pyresult_bind];
      [| | discriminate].
    + intros H. inversion H; subst. auto.
    + intros H. apply first_usable_found in H as [H1 H2]. auto.
  - intros H. apply first_usable_found in H as [H1 H2]. auto.
Qed.

Lemma new_piper_ok (voice : option string) (dk : disk) :
  match new_piper voice dk with
  | Ok tts => _find_piper dk = Ok (piper_path tts)
              /\ (model_path tts, config_path tts, alias tts) = _resolve_model_paths voice dk
  | Raise e => _find_piper dk = Raise e
  end.
Proof.
  unfold new_piper. destruct (_find_piper dk) as [path|e]; [| reflexivity].
  cbn [mbind pyresult_bind]. pose proof (resolve_shape voice dk) as Hs.
  destruct (_resolve_model_paths voice dk) as [[m c] a].
  assert (Hf : negb (is_set m) && negb (is_set a) = false).
  { destruct Hs as [(-> & _) | (_ & _ & ->)]; [reflexivity | apply andb_false_r]. }
  rewrite Hf. cbn. auto.
Qed.

(** X23. The server has a synthesiser after startup exactly when an executable
    was found: the search is the only step of the construction that can
    fail.  The executable it keeps is the one named by [PIPER_BIN] or one of
    the five usual places, and it exists or answers the probe. *)
Theorem synthesiser_iff_executable (dk : disk) :
  (_init_tts dk = None <-> exists e, _find_piper dk = Raise e)
  /\ forall tts, _init_tts dk = Some tts ->
       _find_piper dk = Ok (piper_path tts)
       /\ usable (piper_path tts) dk = Ok true
       /\ (getenv "PIPER_BIN" = Some (piper_path tts) \/ In (piper_path tts) possible_paths).
Proof.
  unfold _init_tts. cbv zeta.
  match goal with |- context [new_piper ?v dk] => set (voice := v) end.
  pose proof (new_piper_ok voice dk) as H.
  destruct (new_piper voice dk) as [tts|e].
  - destruct H as [Hf _]. split.
    + split; [discriminate |]. intros [e He]. congruence.
    + intros t Ht. inversion Ht; subst t. split; [exact Hf |].
      apply find_piper_found. exact Hf.
  - split.
    + split; [eauto | reflexivity].
    + discriminate.
Qed.

(** X24. The voice of the server: a model file named by [PIPER_MODEL_PATH] comes
    first; without one, the model bundled next to the module; without that
    one, the model in the [voices] directory next to the module. *)
Theorem server_voice_choice (dk : disk) (p : string) :
  _find_piper dk = Ok p ->
  let env_model := getenv "PIPER_MODEL_PATH" in
  let bundled := path_join module_dir "en_US-amy-medium.onnx" in
  let alt := path_join (path_join module_dir "voices") "en_US-amy-medium.onnx" in
  (given_file env_model dk = true ->
   exists tts, _init_tts dk = Some tts /\ piper_path tts = p
               /\ model_path tts = env_model /\ alias tts = None)
  /\ (given_file env_model dk = false -> isfile bundled dk = true ->
      _init_tts dk
      = Some (Piper p (Some bundled) (_guess_config_from_model bundled dk) None))
  /\ (given_file env_model dk = false -> isfile bundled dk = false -> isfile alt dk = true ->
      _init_tts dk = Some (Piper p (Some alt) (_guess_config_from_model alt dk) None)).
Proof.
  intros Hf. cbv zeta. unfold _init_tts, new_piper. rewrite Hf. cbn [mbind pyresult_bind].
  assert (Hb : is_set (Some (path_join module_dir "en_US-amy-medium.onnx")) = true).
  { pose proof (path_join_nonempty module_dir "e" "n_US-amy-medium.onnx") as Hn.
    cbn [is_set]. destruct (path_join module_dir _); [congruence | reflexivity]. }
  assert (Ha : is_set (Some (path_join (path_join module_dir "voices")
                                 "en_US-amy-medium.onnx")) = true).
  { pose proof (path_join_nonempty (path_join module_dir "voices") "e" "n_US-amy-medium.onnx")
      as Hn.
    cbn [is_set]. destruct (path_join (path_join module_dir "voices") _);
      [congruence | reflexivity]. }
  split; [| split].
  - intros He. destruct (given_file_spec _ _ He) as [Hn _].
    match goal with |- context [_resolve_model_paths ?v dk] => generalize v end.
    intros voice. unfold _resolve_model_paths. rewrite He, Hn. cbn [negb andb].
    eexists. split; [reflexivity |]. cbn. auto.
  - intros He Hi. rewrite Hi, Hb. unfold _resolve_model_paths. rewrite He.
    unfold given_file. rewrite Hb. cbn [text_of andb]. rewrite Hi, Hb. reflexivity.
  - intros He Hi Hi2. rewrite Hi, Hi2, Ha. unfold _resolve_model_paths. rewrite He.
    unfold given_file. rewrite Ha. cbn [text_of andb]. rewrite Hi2, Ha. reflexivity.
Qed.

End SpeechProperties.

(** * The store and the log, once more *)

Section StoreAndLog.

Context {env : Env}.



Lemma say_in_step (prompt who line : string) (s : session) :
  messages s = ChatMsg "system" prompt :: map entry_msg (conversation_log s) ->
  messages (say who line s)
  = ChatMsg "system" prompt :: map entry_msg (conversation_log (say who line s)).
Proof.
  intros H. cbn [say messages conversation_log]. rewrite H, map_app. reflexivity.
Qed.

Lemma handle_text_in_step (prompt t now : string) (s : session) (w : world) :
  messages s = ChatMsg "system" prompt :: map entry_msg (conversation_log s) ->
  let s' := fst (handle_text t now s w) in
  messages s' = ChatMsg "system" prompt :: map entry_msg (conversation_log s').
Proof.
  intros H. cbv zeta. unfold handle_text.
  destruct t as [|c t]; [exact H |].
  pose proof (say_in_step prompt "user" (String c t) s H) as H1.
  destruct (ended (say "user" (String c t) s)); [exact H1 |].
  destruct (chat_completion _ _) as [resp w1].
  set (s1 := say "user" (String c t) s) in *.
  pose proof (say_in_step prompt "assistant" (answer_of resp) s1 H1) as H2.
  set (s2 := count_turn (say "assistant" (answer_of resp) s1)).
  assert (H3 : messages s2 = ChatMsg "system" prompt :: map entry_msg (conversation_log s2))
    by exact H2.
  destruct (max_assistant_turns <=? assistant_turns s2)%nat; [| exact H3].
  pose proof (say_in_step prompt "assistant" closing s2 H3) as H4.
  destruct (store_transcript _ now _); exact H4.
Qed.

Lemma serve_in_step (prompt : string) (evs : list (event * string)) :
  forall s w s' w',
  messages s = ChatMsg "system" prompt :: map entry_msg (conversation_log s) ->
  serve evs s w = (Serving s', w') ->
  messages s' = ChatMsg "system" prompt :: map entry_msg (conversation_log s').
Proof.
  induction evs as [|[ev now] evs IH]; intros s w s' w' H Hrun.
  - cbn in Hrun. inversion Hrun; subst. exact H.
  - cbn [serve] in Hrun. destruct (connected w); [| discriminate].
    destruct ev as [line|]; [| discriminate].
    pose proof (handle_text_in_step prompt line now s w H) as H1. cbv zeta in H1.
    destruct (handle_text line now s w) as [s1 w1]. eapply IH; eassumption.
Qed.

(** X27. The history sent to the completion client and the log that is stored
    stay in step: at every point of a connection the history is the system
    prompt followed by the entries of the log, speaker for role and text for
    content. *)
Theorem history_follows_log (params : list (string * string)) (uuid now : string)
    (evs : list (event * string)) (w0 : world) (s : session) (w : world) :
  websocket_endpoint params uuid now evs w0 = (Serving s, w) ->
  messages s
  = ChatMsg "system"
      (build_system_prompt (param_or "job" params DEFAULT_JOB_DESCRIPTION)
         (param_or "exp" params DEFAULT_EXPERIENCE_REQUIRED))
    :: map entry_msg (conversation_log s).
Proof.
  unfold websocket_endpoint.
  destruct (open_session params uuid now w0) as [[s0 w1]|e] eqn:Ho; [| discriminate].
  intros Hrun. eapply serve_in_step; [| exact Hrun].
  unfold open_session in Ho. destruct (py_setitem _ _ _) as [db|]; [| discriminate].
  cbn in Ho. inversion Ho; subst. reflexivity.
Qed.

End StoreAndLog.

(** * The further properties at sample inputs *)

Lemma other_records_untouched_witness :
  load_db (env := sample_env) (files scored_world) = JDict sample_store
  /\ "id-1" <> "id-2"
  /\ get_interview (env := sample_env) "id-1"
       (files (snd (websocket_endpoint (env := sample_env) ada_params "id-2" "T0"
                      second_events scored_world)))
     = get_interview (env := sample_env) "id-1" (files scored_world).
Proof.
  assert (H1 : load_db (env := sample_env) (files scored_world) = JDict sample_store)
    by (vm_compute; reflexivity).
  assert (H2 : "id-1" <> "id-2") by discriminate.
  split; [exact H1 |]. split; [exact H2 |].
  exact (other_records_untouched (env := sample_env) ada_params "id-2" "T0" second_events
           scored_world sample_store "id-1" H1 H2).
Defined.

Lemma opened_record_retrievable_witness :
  load_db (env := sample_env) (files fresh_world) = JDict []
  /\ exists s w',
       open_session (env := sample_env) ada_params "id-1" "T0" fresh_world = Ok (s, w')
       /\ get_interview (env := sample_env) "id-1" (files w')
          = Ok (initial_record "id-1" "Backend Engineer" "4" "Ada" "T0").
Proof.
  assert (H1 : load_db (env := sample_env) (files fresh_world) = JDict []) by reflexivity.
  split; [exact H1 |].
  destruct (opened_record_retrievable (env := sample_env) ada_params "id-1" "T0"
              fresh_world [] H1) as (s & w' & A & _ & B).
  exists s, w'. split; [exact A | exact B].
Defined.

Lemma missing_parameters_take_defaults_witness :
  load_db (env := sample_env) (files fresh_world) = JDict []
  /\ (forall k, In k ["job"; "exp"; "name"] ->
        params_get k [("name", "")] = None \/ params_get k [("name", "")] = Some "")
  /\ exists s w',
       open_session (env := sample_env) [("name", "")] "id-1" "T0" fresh_world = Ok (s, w')
       /\ wire w' = [Sent (greeting_for "Candidate"); Sent ("[INTERVIEW_ID] " +:+ "id-1")].
Proof.
  assert (H1 : load_db (env := sample_env) (files fresh_world) = JDict []) by reflexivity.
  assert (H2 : forall k, In k ["job"; "exp"; "name"] ->
                 params_get k [("name", "")] = None \/ params_get k [("name", "")] = Some "").
  { intros k [<- | [<- | [<- | []]]]; [left | left | right]; reflexivity. }
  split; [exact H1 |]. split; [exact H2 |].
  destruct (missing_parameters_take_defaults (env := sample_env) [("name", "")] "id-1" "T0"
              fresh_world [] H1 H2) as (s & w' & A & B & _).
  exists s, w'. split; [exact A | exact B].
Defined.

Lemma no_evaluation_before_transcript_witness :
  load_db (env := sample_env) (files fresh_world) = JDict []
  /\ websocket_endpoint (env := sample_env) ada_params "id-1" "T0" (receive_all [])
       fresh_world = (Serving (fst opened_sample), snd opened_sample)
  /\ ended (fst opened_sample) = false
  /\ get_score (env := sample_env) "id-1" "T5" (snd opened_sample)
     = (Raise no_transcript, snd opened_sample).
Proof.
  assert (H1 : load_db (env := sample_env) (files fresh_world) = JDict []) by reflexivity.
  assert (H2 : websocket_endpoint (env := sample_env) ada_params "id-1" "T0" (receive_all [])
                 fresh_world = (Serving (fst opened_sample), snd opened_sample))
    by reflexivity.
  assert (H3 : ended (fst opened_sample) = false) by reflexivity.
  split; [exact H1 |]. split; [exact H2 |]. split; [exact H3 |].
  exact (proj1 (proj2 (no_evaluation_before_transcript (env := sample_env) ada_params
                         "id-1" "T0" "T5" fresh_world [] [] _ _ H1 H2 H3))).
Defined.

Lemma saved_notice_without_record_witness :
  "Last answer." <> ""
  /\ ended (fst orphaned_sample) = false
  /\ max_assistant_turns <= S (assistant_turns (fst orphaned_sample))
  /\ load_db (env := sample_env) (files (snd orphaned_sample)) = JDict []
  /\ dict_get (interview_id (fst orphaned_sample)) [] = None
  /\ files (snd (handle_text (env := sample_env) "Last answer." "T2"
                   (fst orphaned_sample) (snd orphaned_sample)))
     = files (snd orphaned_sample)
  /\ connected (snd (handle_text (env := sample_env) "Last answer." "T2"
                       (fst orphaned_sample) (snd orphaned_sample)))
     = false.
Proof.
  assert (H1 : "Last answer." <> "") by discriminate.
  assert (H2 : ended (fst orphaned_sample) = false) by (vm_compute; reflexivity).
  assert (H3 : max_assistant_turns <= S (assistant_turns (fst orphaned_sample)))
    by (vm_compute; repeat constructor).
  assert (H4 : load_db (env := sample_env) (files (snd orphaned_sample)) = JDict [])
    by (vm_compute; reflexivity).
  assert (H5 : dict_get (interview_id (fst orphaned_sample)) [] = None) by reflexivity.
  split; [exact H1 |]. split; [exact H2 |]. split; [exact H3 |]. split; [exact H4 |].
  split; [exact H5 |].
  destruct (saved_notice_without_record (env := sample_env) "Last answer." "T2"
              (fst orphaned_sample) (snd orphaned_sample) [] H1 H2 H3 H4 H5)
    as (A & B & _).
  split; [exact A | exact B].
Defined.


Lemma summary_is_stored_once_witness :
  load_db (env := sample_env) (files scored_world) = JDict sample_store
  /\ dict_get "id-1" sample_store = Some (JDict sample_record)
  /\ truthy (field "summary" sample_record) = false
  /\ field "transcript" sample_record = JStr sample_transcript
  /\ sample_transcript <> ""
  /\ client (Env := sample_env) (length (calls scored_world))
       (summary_messages sample_transcript) = Reply (Some "Question 0")
  /\ fst (get_summary (env := sample_env) "id-1" "T9" scored_world)
     = Ok (JDict [("id", JStr "id-1"); ("summary", JStr (strip "Question 0"))]).
Proof.
  assert (H1 : load_db (env := sample_env) (files scored_world) = JDict sample_store)
    by (vm_compute; reflexivity).
  assert (H2 : dict_get "id-1" sample_store = Some (JDict sample_record)) by reflexivity.
  assert (H3 : truthy (field "summary" sample_record) = false) by reflexivity.
  assert (H4 : field "transcript" sample_record = JStr sample_transcript) by reflexivity.
  assert (H5 : sample_transcript <> "") by (vm_compute; discriminate).
  assert (H6 : client (Env := sample_env) (length (calls scored_world))
                 (summary_messages sample_transcript) = Reply (Some "Question 0"))
    by reflexivity.
  split; [exact H1 |]. split; [exact H2 |]. split; [exact H3 |]. split; [exact H4 |].
  split; [exact H5 |]. split; [exact H6 |].
  exact (proj1 (summary_is_stored_once (env := sample_env) "id-1" "T9" scored_world
                  sample_store sample_record sample_transcript "Question 0"
                  H1 H2 H3 H4 H5 H6)).
Defined.

Lemma failed_summary_not_stored_witness :
  load_db (env := failing_env) (files scored_world) = JDict sample_store
  /\ dict_get "id-1" sample_store = Some (JDict sample_record)
  /\ truthy (field "summary" sample_record) = false
  /\ field "transcript" sample_record = JStr sample_transcript
  /\ sample_transcript <> ""
  /\ completion_text (client (Env := failing_env) (length (calls scored_world))
                        (summary_messages sample_transcript))
     = Raise (CompletionError "Connection error.")
  /\ files (snd (get_summary (env := failing_env) "id-1" "T9" scored_world))
     = files scored_world.
Proof.
  assert (H1 : load_db (env := failing_env) (files scored_world) = JDict sample_store)
    by (vm_compute; reflexivity).
  assert (H2 : dict_get "id-1" sample_store = Some (JDict sample_record)) by reflexivity.
  assert (H3 : truthy (field "summary" sample_record) = false) by reflexivity.
  assert (H4 : field "transcript" sample_record = JStr sample_transcript) by reflexivity.
  assert (H5 : sample_transcript <> "") by (vm_compute; discriminate).
  assert (H6 : completion_text (client (Env := failing_env) (length (calls scored_world))
                                  (summary_messages sample_transcript))
               = Raise (CompletionError "Connection error.")) by reflexivity.
  split; [exact H1 |]. split; [exact H2 |]. split; [exact H3 |]. split; [exact H4 |].
  split; [exact H5 |]. split; [exact H6 |].
  exact (proj2 (failed_summary_not_stored (env := failing_env) "id-1" "T9" scored_world
                  sample_store sample_record sample_transcript _ H1 H2 H3 H4 H5 H6)).
Defined.

Lemma blank_summary_asked_again_witness :
  load_db (env := blank_env) (files scored_world) = JDict sample_store
  /\ dict_get "id-1" sample_store = Some (JDict sample_record)
  /\ truthy (field "summary" sample_record) = false
  /\ field "transcript" sample_record = JStr sample_transcript
  /\ sample_transcript <> ""
  /\ client (Env := blank_env) (length (calls scored_world))
       (summary_messages sample_transcript) = Reply (Some "   ")
  /\ strip "   " = ""
  /\ calls (snd (get_summary (env := blank_env) "id-1" "T10"
                   (snd (get_summary (env := blank_env) "id-1" "T9" scored_world))))
     = [summary_messages sample_transcript; summary_messages sample_transcript].
Proof.
  assert (H1 : load_db (env := blank_env) (files scored_world) = JDict sample_store)
    by (vm_compute; reflexivity).
  assert (H2 : dict_get "id-1" sample_store = Some (JDict sample_record)) by reflexivity.
  assert (H3 : truthy (field "summary" sample_record) = false) by reflexivity.
  assert (H4 : field "transcript" sample_record = JStr sample_transcript) by reflexivity.
  assert (H5 : sample_transcript <> "") by (vm_compute; discriminate).
  assert (H6 : client (Env := blank_env) (length (calls scored_world))
                 (summary_messages sample_transcript) = Reply (Some "   ")) by reflexivity.
  assert (H7 : strip "   " = "") by reflexivity.
  split; [exact H1 |]. split; [exact H2 |]. split; [exact H3 |]. split; [exact H4 |].
  split; [exact H5 |]. split; [exact H6 |]. split; [exact H7 |].
  exact (proj2 (blank_summary_asked_again (env := blank_env) "id-1" "T9" "T10" scored_world
                  sample_store sample_record sample_transcript "   "
                  H1 H2 H3 H4 H5 H6 H7)).
Defined.


Lemma simple_score_through_breakdown_witness :
  let asked := score_messages (score_prompt (field "job_description" sample_record)
                                 (field "experience_required" sample_record)
                                 sample_transcript) in
  load_db (env := score_env (JInt 9)) (files scored_world) = JDict sample_store
  /\ dict_get "id-1" sample_store = Some (JDict sample_record)
  /\ field "score" sample_record = JNull
  /\ truthy (field "score_breakdown" sample_record) = false
  /\ field "transcript" sample_record = JStr sample_transcript
  /\ sample_transcript <> ""
  /\ client (Env := score_env (JInt 9)) (length (calls scored_world)) asked
     = Reply (Some (score_answer (JInt 9)))
  /\ _parse_score (strip (score_answer (JInt 9))) = Some sample_answer
  /\ all_accepted sample_answer = true
  /\ get_score_simple (env := score_env (JInt 9)) "id-1" "T9" scored_world
     = (Ok (simple_response "id-1" (JInt 9)),
        snd (get_score (env := score_env (JInt 9)) "id-1" "T9" scored_world)).
Proof.
  intros asked.
  assert (H1 : load_db (env := score_env (JInt 9)) (files scored_world) = JDict sample_store)
    by (vm_compute; reflexivity).
  assert (H2 : dict_get "id-1" sample_store = Some (JDict sample_record)) by reflexivity.
  assert (H0 : field "score" sample_record = JNull) by reflexivity.
  assert (H3 : truthy (field "score_breakdown" sample_record) = false) by reflexivity.
  assert (H4 : field "transcript" sample_record = JStr sample_transcript) by reflexivity.
  assert (H5 : sample_transcript <> "") by (vm_compute; discriminate).
  assert (H6 : client (Env := score_env (JInt 9)) (length (calls scored_world)) asked
               = Reply (Some (score_answer (JInt 9)))) by reflexivity.
  assert (H7 : _parse_score (strip (score_answer (JInt 9))) = Some sample_answer)
    by (vm_compute; reflexivity).
  assert (H8 : all_accepted sample_answer = true) by reflexivity.
  split; [exact H1 |]. split; [exact H2 |]. split; [exact H0 |]. split; [exact H3 |].
  split; [exact H4 |]. split; [exact H5 |]. split; [exact H6 |]. split; [exact H7 |].
  split; [exact H8 |].
  exact (proj1 (simple_score_through_breakdown (env := score_env (JInt 9)) "id-1" "T9"
                  scored_world sample_store sample_record sample_transcript
                  (score_answer (JInt 9)) sample_answer H1 H2 H0 H3 H4 H5 H6 H7 H8)).
Defined.

Lemma transcript_of_appended_logs_witness :
  [LogEntry "assistant" "Hi"] <> []
  /\ [LogEntry "user" "Hello"] <> []
  /\ flatten_transcript [LogEntry "assistant" "Hi"; LogEntry "user" "Hello"]
     = flatten_transcript [LogEntry "assistant" "Hi"] +:+ String newline ""
       +:+ flatten_transcript [LogEntry "user" "Hello"].
Proof.
  assert (H1 : [LogEntry "assistant" "Hi"] <> []) by discriminate.
  assert (H2 : [LogEntry "user" "Hello"] <> []) by discriminate.
  split; [exact H1 |]. split; [exact H2 |].
  exact (transcript_of_appended_logs [LogEntry "assistant" "Hi"] [LogEntry "user" "Hello"]
           H1 H2).
Defined.

Lemma interrupted_interview_summarised_witness :
  load_db (env := sample_env) (files fresh_world) = JDict []
  /\ websocket_endpoint (env := sample_env) ada_params "id-1" "T0" (receive_all [])
       fresh_world = (Serving (fst opened_sample), snd opened_sample)
  /\ ended (fst opened_sample) = false
  /\ client (Env := sample_env) (length (calls (snd opened_sample)))
       (summary_messages (flatten_transcript (conversation_log (fst opened_sample))))
     = Reply (Some "Question 0")
  /\ fst (get_summary (env := sample_env) "id-1" "T9"
            (handle_disconnect (env := sample_env) "T5" (fst opened_sample)
               (snd opened_sample)))
     = Ok (JDict [("id", JStr "id-1"); ("summary", JStr (strip "Question 0"))]).
Proof.
  assert (H1 : load_db (env := sample_env) (files fresh_world) = JDict []) by reflexivity.
  assert (H2 : websocket_endpoint (env := sample_env) ada_params "id-1" "T0" (receive_all [])
                 fresh_world = (Serving (fst opened_sample), snd opened_sample))
    by reflexivity.
  assert (H3 : ended (fst opened_sample) = false) by reflexivity.
  assert (H4 : client (Env := sample_env) (length (calls (snd opened_sample)))
                 (summary_messages
                    (flatten_transcript (conversation_log (fst opened_sample))))
               = Reply (Some "Question 0")) by reflexivity.
  split; [exact H1 |]. split; [exact H2 |]. split; [exact H3 |]. split; [exact H4 |].
  exact (proj1 (interrupted_interview_summarised (env := sample_env) ada_params
                  "id-1" "T0" "T5" "T9" fresh_world [] [] _ _ "Question 0" H1 H2 H3 H4)).
Defined.

Lemma parse_score_skips_prose_witness :
  let inner := quoted "overall" +:+ ": 7" in
  str_contains_char "{" "Here is my answer: " = false
  /\ str_contains_char "}" " Good luck!" = false
  /\ json_loads ("Here is my answer: " +:+ String "{" (inner +:+ "}") +:+ " Good luck!") = None
  /\ json_loads (String "{" (inner +:+ "}")) = Some (JDict [("overall", JInt 7)])
  /\ _parse_score ("Here is my answer: " +:+ String "{" (inner +:+ "}") +:+ " Good luck!")
     = Some (JDict [("overall", JInt 7)]).
Proof.
  intros inner.
  assert (H1 : str_contains_char "{" "Here is my answer: " = false) by reflexivity.
  assert (H2 : str_contains_char "}" " Good luck!" = false) by reflexivity.
  assert (H3 : json_loads ("Here is my answer: " +:+ String "{" (inner +:+ "}")
                           +:+ " Good luck!") = None) by (vm_compute; reflexivity).
  assert (H4 : json_loads (String "{" (inner +:+ "}")) = Some (JDict [("overall", JInt 7)]))
    by (vm_compute; reflexivity).
  split; [exact H1 |]. split; [exact H2 |]. split; [exact H3 |]. split; [exact H4 |].
  exact (parse_score_skips_prose "Here is my answer: " inner " Good luck!" _ H1 H2 H3 H4).
Defined.

Lemma config_next_to_model_witness :
  all_dots (basename "/srv/app/en_US-amy-medium") = false
  /\ isfile (("/srv/app/en_US-amy-medium" +:+ ".onnx") +:+ ".json") sample_disk = true
  /\ _guess_config_from_model (host := sample_host)
       ("/srv/app/en_US-amy-medium" +:+ ".onnx") sample_disk
     = Some (("/srv/app/en_US-amy-medium" +:+ ".onnx") +:+ ".json").
Proof.
  assert (H1 : all_dots (basename "/srv/app/en_US-amy-medium") = false) by reflexivity.
  assert (H2 : isfile (("/srv/app/en_US-amy-medium" +:+ ".onnx") +:+ ".json") sample_disk
               = true) by (vm_compute; reflexivity).
  split; [exact H1 |]. split; [exact H2 |].
  exact (proj1 (config_next_to_model (host := sample_host) "/srv/app/en_US-amy-medium"
                  sample_disk H1) H2).
Defined.

Lemma piper_has_model_or_alias_witness :
  new_piper (host := sample_host) (Some "/srv/app/en_US-amy-medium.onnx") sample_disk
  = Ok sample_piper
  /\ (model_path sample_piper, config_path sample_piper, alias sample_piper)
     = _resolve_model_paths (host := sample_host) (Some "/srv/app/en_US-amy-medium.onnx")
         sample_disk.
Proof.
  assert (H1 : new_piper (host := sample_host) (Some "/srv/app/en_US-amy-medium.onnx")
                 sample_disk = Ok sample_piper) by (vm_compute; reflexivity).
  split; [exact H1 |].
  exact (proj1 (piper_has_model_or_alias (host := sample_host) _ _ _ H1)).
Defined.

Lemma synthesis_returns_audio_or_cleans_up_witness :
  sample_disk !! "/tmp/a.wav" = None
  /\ forall p, p <> "/tmp/a.wav" ->
       snd (synthesize_to_file (host := sample_host) sample_piper "Hello" "/tmp/a.wav"
              sample_disk) !! p
       = sample_disk !! p.
Proof.
  assert (H1 : sample_disk !! "/tmp/a.wav" = None) by (vm_compute; reflexivity).
  split; [exact H1 |].
  exact (proj1 (synthesis_returns_audio_or_cleans_up (host := sample_host) sample_piper
                  "Hello" "/tmp/a.wav" sample_disk H1)).
Defined.

Lemma interrupted_synthesis_leaves_file_witness :
  let cmd := ["piper"; "--model"; "/srv/app/en_US-amy-medium.onnx"; "--config";
              "/srv/app/en_US-amy-medium.onnx.json"; "--output_file"; "/tmp/a.wav"] in
  strip "Hello" <> ""
  /\ piper_command sample_piper "/tmp/a.wav" = Some cmd
  /\ run (Host := slow_host) cmd "Hello" = (TimeoutExpired, Some "RI")
  /\ (forall returncode stderr, TimeoutExpired <> Completed returncode stderr)
  /\ fst (synthesize_to_file (host := slow_host) sample_piper "Hello" "/tmp/a.wav"
            sample_disk) = None
  /\ snd (synthesize_to_file (host := slow_host) sample_piper "Hello" "/tmp/a.wav"
            sample_disk) !! "/tmp/a.wav" = Some (File "RI").
Proof.
  intros cmd.
  assert (H1 : strip "Hello" <> "") by (vm_compute; discriminate).
  assert (H2 : piper_command sample_piper "/tmp/a.wav" = Some cmd) by reflexivity.
  assert (H3 : run (Host := slow_host) cmd "Hello" = (TimeoutExpired, Some "RI"))
    by reflexivity.
  assert (H4 : forall returncode stderr, TimeoutExpired <> Completed returncode stderr)
    by discriminate.
  split; [exact H1 |]. split; [exact H2 |]. split; [exact H3 |]. split; [exact H4 |].
  exact (interrupted_synthesis_leaves_file (host := slow_host) sample_piper "Hello"
           "/tmp/a.wav" sample_disk cmd TimeoutExpired "RI" H1 H2 H3 H4).
Defined.

Lemma tts_request_outcomes_witness :
  "/tmp/a.wav" <> ""
  /\ sample_disk !! "/tmp/a.wav" = None
  /\ fst (tts_endpoint (host := sample_host) (Some sample_piper) "Hello" "/tmp/a.wav"
            sample_disk) <> TtsBroken.
Proof.
  assert (H1 : "/tmp/a.wav" <> "") by discriminate.
  assert (H2 : sample_disk !! "/tmp/a.wav" = None) by (vm_compute; reflexivity).
  split; [exact H1 |]. split; [exact H2 |].
  exact (proj2 (proj2 (proj2 (proj2
           (tts_request_outcomes (host := sample_host) (Some sample_piper) "Hello"
              "/tmp/a.wav" sample_disk H1 H2))))).
Defined.

Lemma synthesiser_iff_executable_witness :
  _init_tts (env := sample_env) (host := sample_host) sample_disk = Some sample_piper
  /\ usable (host := sample_host) (piper_path sample_piper) sample_disk = Ok true.
Proof.
  assert (H1 : _init_tts (env := sample_env) (host := sample_host) sample_disk
               = Some sample_piper) by (vm_compute; reflexivity).
  split; [exact H1 |].
  exact (proj1 (proj2 (proj2 (synthesiser_iff_executable (env := sample_env)
                                (host := sample_host) sample_disk) sample_piper H1))).
Defined.

Lemma server_voice_choice_witness :
  _find_piper (host := sample_host) sample_disk = Ok "piper"
  /\ given_file (getenv (Host := sample_host) "PIPER_MODEL_PATH") sample_disk = false
  /\ isfile (path_join (module_dir (Env := sample_env)) "en_US-amy-medium.onnx") sample_disk
     = true
  /\ _init_tts (env := sample_env) (host := sample_host) sample_disk
     = Some (Piper "piper"
               (Some (path_join (module_dir (Env := sample_env)) "en_US-amy-medium.onnx"))
               (_guess_config_from_model (host := sample_host)
                  (path_join (module_dir (Env := sample_env)) "en_US-amy-medium.onnx")
                  sample_disk)
               None).
Proof.
  assert (H1 : _find_piper (host := sample_host) sample_disk = Ok "piper")
    by (vm_compute; reflexivity).
  assert (H2 : given_file (getenv (Host := sample_host) "PIPER_MODEL_PATH") sample_disk
               = false) by reflexivity.
  assert (H3 : isfile (path_join (module_dir (Env := sample_env)) "en_US-amy-medium.onnx")
                 sample_disk = true) by (vm_compute; reflexivity).
  split; [exact H1 |]. split; [exact H2 |]. split; [exact H3 |].
  exact (proj1 (proj2 (server_voice_choice (env := sample_env) (host := sample_host)
                         sample_disk "piper" H1)) H2 H3).
Defined.



Lemma history_follows_log_witness :
  websocket_endpoint (env := sample_env) ada_params "id-1" "T0" (receive_all [])
    fresh_world = (Serving (fst opened_sample), snd opened_sample)
  /\ messages (fst opened_sample)
     = ChatMsg "system" (build_system_prompt "Backend Engineer" "4")
       :: map entry_msg (conversation_log (fst opened_sample)).
Proof.
  assert (H1 : websocket_endpoint (env := sample_env) ada_params "id-1" "T0" (receive_all [])
                 fresh_world = (Serving (fst opened_sample), snd opened_sample))
    by reflexivity.
  split; [exact H1 |].
  exact (history_follows_log (env := sample_env) ada_params "id-1" "T0" (receive_all [])
           fresh_world _ _ H1).
Defined.

